(** * SirsiMaster component library: a shallow embedding of its scripts

    The repository ships these JavaScript programs:
    - the documentation generator, a script that scans component files
      with regular expressions ([parseComponent]);
    - [cicd-pipelines/scripts/setup-pipeline.js]: the interactive setup
      wizard ([main], [selectOption], [getRequiredSecrets], ...);
    - the navigation loaders [admin-header.js], [sidebar.js] and
      [universal-header.js] ([resolveBase], [injectHeader], [parseConfig],
      [processTokens], ...).

    JavaScript strings are sequences of UTF-16 code units; they are
    modelled as [list N].  Regular expressions are modelled by a small
    backtracking matcher that follows the ECMAScript semantics (greedy
    quantifiers, leftmost match, capture groups, look-ahead).  Prompts,
    files, the DOM and the network are modelled by explicit state. *)

From stdpp Require Import base list strings gmap.
From Stdlib Require Import NArith ZArith Lia DecimalString.

Open Scope list_scope.
Set Warnings "-register-all".

(** ** JavaScript strings *)

Module JS.

Abbreviation jsstring := (list N).

(** A string literal of the source, as its code units (ASCII only). *)
Definition js (s : string) : jsstring :=
  map Ascii.N_of_ascii (String.list_ascii_of_string s).

Arguments js _ : simpl never.

(** A literal in which [~] stands for the double quote. *)
Definition jsq (s : string) : jsstring :=
  map (fun c => if (c =? 126)%N then 34%N else c) (js s).

Arguments jsq _ : simpl never.

(** [ch "x"] is the code unit of a one-character literal. *)
Definition ch (s : string) : N :=
  match js s with x :: _ => x | [] => 0%N end.

Arguments ch _ : simpl never.

Definition unit_eqb (x y : N) : bool := N.eqb x y.

Fixpoint str_eqb (a b : jsstring) : bool :=
  match a, b with
  | [], [] => true
  | x :: a', y :: b' => unit_eqb x y && str_eqb a' b'
  | _, _ => false
  end.

(** Truthiness of a string: only the empty string is falsy. *)
Definition truthy (s : jsstring) : bool :=
  match s with [] => false | _ :: _ => true end.

(** [a || b] on strings. *)
Definition or_else (a b : jsstring) : jsstring :=
  if truthy a then a else b.

(** [a || b] where [a] may be [null] (a missing attribute). *)
Definition opt_or_else (a : option jsstring) (b : jsstring) : jsstring :=
  match a with
  | Some s => or_else s b
  | None => b
  end.

(** ECMAScript WhiteSpace and LineTerminator code points: the set that
    [String.prototype.trim], [parseInt] and the regex class [\s] use. *)
Definition is_space (c : N) : bool :=
  ((9 <=? c) && (c <=? 13) || (c =? 32) || (c =? 160) || (c =? 5760)
   || ((8192 <=? c) && (c <=? 8202)) || (c =? 8232) || (c =? 8233)
   || (c =? 8239) || (c =? 8287) || (c =? 12288) || (c =? 65279))%N.

Definition is_digit (c : N) : bool := ((48 <=? c) && (c <=? 57))%N.

(** The regex class [\w] (no [u] or [i] flag): [A-Za-z0-9_]. *)
Definition is_word (c : N) : bool :=
  (((65 <=? c) && (c <=? 90)) || ((97 <=? c) && (c <=? 122))
   || is_digit c || (c =? 95))%N.

Fixpoint trimStart (s : jsstring) : jsstring :=
  match s with
  | c :: s' => if is_space c then trimStart s' else s
  | [] => []
  end.

Definition trimEnd (s : jsstring) : jsstring := rev (trimStart (rev s)).

Definition trim (s : jsstring) : jsstring := trimEnd (trimStart s).

Fixpoint startsWith (s p : jsstring) {struct p} : bool :=
  match p, s with
  | [], _ => true
  | x :: p', y :: s' => unit_eqb x y && startsWith s' p'
  | _ :: _, [] => false
  end.

(** [s.includes(sub)] *)
Fixpoint includes (s sub : jsstring) : bool :=
  startsWith s sub ||
  match s with
  | [] => false
  | _ :: s' => includes s' sub
  end.

(** [s.indexOf(sub)], [None] standing for -1. *)
Fixpoint indexOf (s sub : jsstring) : option nat :=
  if startsWith s sub then Some 0
  else match s with
       | [] => None
       | _ :: s' => S <$> indexOf s' sub
       end.

(** [s.split(sep)] for a separator of one code unit. *)
Fixpoint split (sep : N) (s : jsstring) : list jsstring :=
  match s with
  | [] => [[]]
  | c :: s' =>
      if unit_eqb c sep then [] :: split sep s'
      else match split sep s' with
           | seg :: segs => (c :: seg) :: segs
           | [] => [[c]]
           end
  end.

(** [s.split(sep)[0]] *)
Definition split_first (sep : N) (s : jsstring) : jsstring :=
  match split sep s with seg :: _ => seg | [] => [] end.

(** [toLowerCase] and [toUpperCase] on the ASCII letters.  The sources
    use them only to compare a prompt answer with ['y'] and ['yes'] and
    to upper-case the environment names ['production'], ['staging'] and
    ['development']; no code unit outside [A-Z] lower-cases to one of
    [y], [e], [s], so the comparisons agree with the full Unicode
    mapping. *)
Definition lower_unit (c : N) : N :=
  if ((65 <=? c) && (c <=? 90))%N then (c + 32)%N else c.
Definition upper_unit (c : N) : N :=
  if ((97 <=? c) && (c <=? 122))%N then (c - 32)%N else c.
Definition toLowerCase (s : jsstring) : jsstring := map lower_unit s.
Definition toUpperCase (s : jsstring) : jsstring := map upper_unit s.

(** *** parseInt(string) with no radix argument

    Leading white space is skipped, then an optional sign, then an
    optional [0x]/[0X] prefix that selects radix 16, then the longest
    run of digits; the result is NaN ([None]) when that run is empty.
    [parseInt] below is the mathematical value of that run, exact;
    [Number_parseInt] is the Number that JavaScript makes of it, rounded
    to the nearest double.  The two differ only beyond 2^53:
    [selectOption] and [processTokens] compare the value with a length,
    where the rounding cannot matter, and read the exact value. *)

Definition digit_value (radix : N) (c : N) : option N :=
  let v :=
    if is_digit c then Some (c - 48)%N
    else if ((97 <=? c) && (c <=? 122))%N then Some (c - 87)%N
    else if ((65 <=? c) && (c <=? 90))%N then Some (c - 55)%N
    else None in
  match v with
  | Some d => if (d <? radix)%N then Some d else None
  | None => None
  end.

Fixpoint digits_value (radix : N) (acc : option N) (s : jsstring) : option N :=
  match s with
  | c :: s' =>
      match digit_value radix c with
      | Some d =>
          digits_value radix
            (Some (match acc with Some a => a * radix + d | None => d end)%N) s'
      | None => acc
      end
  | [] => acc
  end.

Definition parseInt (input : jsstring) : option Z :=
  let s := trimStart input in
  let '(neg, s) :=
    match s with
    | c :: s' =>
        if unit_eqb c (ch "-") then (true, s')
        else if unit_eqb c (ch "+") then (false, s')
        else (false, s)
    | [] => (false, s)
    end in
  let '(radix, s) :=
    match s with
    | c0 :: c1 :: s' =>
        if unit_eqb c0 (ch "0") && (unit_eqb c1 (ch "x") || unit_eqb c1 (ch "X"))
        then (16%N, s') else (10%N, s)
    | _ => (10%N, s)
    end in
  match digits_value radix None s with
  | Some v => Some (if neg then (- Z.of_N v)%Z else Z.of_N v)
  | None => None
  end.

(** *** Numbers

    The Numbers the sources compute are integers, infinities or NaN
    (the sign of a zero is never observed). *)
Inductive number : Type :=
| NaN
| Finite (z : Z)
| Infinite (negative : bool).

(** The Number nearest to an integer: the integer itself below 2^53;
    beyond, the nearest integer with 53 significant bits, the even one
    of two that are as near; an infinity from 2^1024 on. *)
Definition Number_of_integer (z : Z) : number :=
  let a := Z.abs z in
  if (a <? 2 ^ 53)%Z then Finite z
  else
    let e := (Z.log2 a - 52)%Z in
    let q := Z.shiftr a e in
    let r := (a - Z.shiftl q e)%Z in
    let half := Z.shiftl 1 (e - 1) in
    let q := if ((half <? r) || ((r =? half) && Z.odd q))%Z then (q + 1)%Z else q in
    let a := Z.shiftl q e in
    if (2 ^ 1024 <=? a)%Z then Infinite (z <? 0)%Z
    else Finite (if (z <? 0)%Z then (- a)%Z else a).

(** [parseInt(string)] as a Number. *)
Definition Number_parseInt (input : jsstring) : number :=
  match parseInt input with
  | Some z => Number_of_integer z
  | None => NaN
  end.

End JS.

(** ** A backtracking matcher for the regular expressions of the sources *)

Module Regex.
Import JS.

Inductive re : Type :=
| Empty                       (* the empty pattern *)
| Char (p : N -> bool)        (* a literal, class or escape: one code unit *)
| Seq (r1 r2 : re)
| Alt (r1 r2 : re)            (* r1|r2 *)
| Star (r : re)               (* r*, greedy *)
| Opt (r : re)                (* r?, greedy *)
| Group (i : nat) (r : re)    (* the i-th capturing group *)
| Bol                         (* ^ without the m flag *)
| Eol                         (* $ without the m flag *)
| NotAhead (r : re).          (* (?!r) *)

(** r+ *)
Definition Plus (r : re) : re := Seq r (Star r).

(** A literal code unit and its complement class. *)
Definition Lit (c : N) : re := Char (unit_eqb c).
Definition NotLit (c : N) : re := Char (fun x => negb (unit_eqb c x)).

(** A run of literal characters. *)
Fixpoint lit (t : jsstring) : re :=
  match t with
  | [] => Empty
  | x :: t' => Seq (Lit x) (lit t')
  end.

(** Captures: group number to captured text ([None] is [undefined]). *)
Definition caps := nat -> option jsstring.
Definition no_caps : caps := fun _ => None.
Definition set_cap (i : nat) (v : jsstring) (c : caps) : caps :=
  fun j => if Nat.eqb j i then Some v else c j.
Definition clear_caps (gs : list nat) (c : caps) : caps :=
  fun j => if existsb (Nat.eqb j) gs then None else c j.

Fixpoint groups (r : re) : list nat :=
  match r with
  | Empty | Char _ | Bol | Eol => []
  | Seq r1 r2 | Alt r1 r2 => groups r1 ++ groups r2
  | Star r1 | Opt r1 | NotAhead r1 => groups r1
  | Group i r1 => i :: groups r1
  end.

Definition state : Type := jsstring * caps.
Definition cont : Type := jsstring -> caps -> option state.

(** The iterations of a greedy [*]: [step] matches the body once.  An
    iteration is tried before the continuation [k], and an iteration that
    consumes nothing is rejected.  Every iteration consumes a code unit,
    so a fuel above the length of the input is never used up. *)
Fixpoint repeat_match (step : jsstring -> caps -> cont -> option state)
    (k : cont) (fuel : nat) (s : jsstring) (c : caps) : option state :=
  match fuel with
  | 0 => k s c
  | S fuel' =>
      match step s c
              (fun s' c' =>
                 if length s' <? length s then repeat_match step k fuel' s' c'
                 else None) with
      | Some res => Some res
      | None => k s c
      end
  end.

(** [m total r s c k]: match [r] against the remaining input [s] (the
    whole input has [total] code units), then continue with [k].  The
    alternatives are tried in the order of the ECMAScript matcher; the
    captures of a quantified group are reset when an iteration starts. *)
Fixpoint m (total : nat) (r : re) (s : jsstring) (c : caps) (k : cont)
  : option state :=
  match r with
  | Empty => k s c
  | Char p =>
      match s with
      | x :: s' => if p x then k s' c else None
      | [] => None
      end
  | Seq r1 r2 => m total r1 s c (fun s' c' => m total r2 s' c' k)
  | Alt r1 r2 =>
      match m total r1 s c k with
      | Some res => Some res
      | None => m total r2 s c k
      end
  | Star r1 =>
      repeat_match (fun s' c' k' => m total r1 s' (clear_caps (groups r1) c') k')
        k (S (length s)) s c
  | Opt r1 =>
      match m total r1 s (clear_caps (groups r1) c)
              (fun s' c' => if length s' <? length s then k s' c' else None) with
      | Some res => Some res
      | None => k s c
      end
  | Group i r1 =>
      m total r1 s c
        (fun s' c' => k s' (set_cap i (take (length s - length s') s) c'))
  | Bol => if length s =? total then k s c else None
  | Eol => match s with [] => k s c | _ :: _ => None end
  | NotAhead r1 =>
      match m total r1 s c (fun s' c' => Some (s', c')) with
      | Some _ => None
      | None => k s c
      end
  end.

(** The result of [RegExp.prototype.exec]. *)
Record match_result : Type := MatchResult {
  m_index : nat;          (* index of the match in the input *)
  m_text : jsstring;      (* match[0] *)
  m_caps : caps;          (* match[1], match[2], ... *)
  m_rest : jsstring       (* the input after the match *)
}.

(** Leftmost match at or after the current position. *)
Fixpoint exec_from (total : nat) (r : re) (s : jsstring) (idx : nat)
  : option match_result :=
  match m total r s no_caps (fun s' c' => Some (s', c')) with
  | Some (s', c') =>
      Some (MatchResult idx (take (length s - length s') s) c' s')
  | None =>
      match s with
      | [] => None
      | _ :: s' => exec_from total r s' (S idx)
      end
  end.

(** [str.match(r)] for a regex without the g flag. *)
Definition str_match (r : re) (s : jsstring) : option match_result :=
  exec_from (length s) r s 0.

(** GetSubstitution: the [$] patterns of a replacement string.  [ncaps]
    is the number of capturing groups of the regex. *)
Fixpoint substitution (ncaps : nat) (matched before after : jsstring)
    (c : caps) (rep : jsstring) {struct rep} : jsstring :=
  let go := substitution ncaps matched before after c in
  match rep with
  | [] => []
  | x :: rep' =>
      if negb (unit_eqb x (ch "$")) then x :: go rep'
      else match rep' with
           | [] => [x]
           | y :: rep'' =>
               if unit_eqb y (ch "$") then y :: go rep''
               else if unit_eqb y (ch "&") then matched ++ go rep''
               else if unit_eqb y (ch "`") then before ++ go rep''
               else if unit_eqb y (ch "'") then after ++ go rep''
               else if is_digit y then
                 let d1 := N.to_nat (y - 48) in
                 let one :=
                   if (1 <=? d1) && (d1 <=? ncaps)
                   then default [] (c d1) ++ go rep''
                   else x :: go rep' in
                 match rep'' with
                 | z :: rep3 =>
                     if is_digit z then
                       let n2 := d1 * 10 + N.to_nat (z - 48) in
                       if (1 <=? n2) && (n2 <=? ncaps)
                       then default [] (c n2) ++ go rep3
                       else one
                     else one
                 | [] => one
                 end
               else x :: go rep'
           end
  end.

Definition get_substitution (ncaps : nat) (matched before after : jsstring)
    (c : caps) (rep : jsstring) : jsstring :=
  substitution ncaps matched before after c rep.

(** [str.replace(r, rep)] for a regex without the g flag: the first match
    only. *)
Definition replace_first (r : re) (s rep : jsstring) : jsstring :=
  match str_match r s with
  | None => s
  | Some res =>
      let before := take (m_index res) s in
      before
      ++ get_substitution (length (groups r)) (m_text res) before (m_rest res)
           (m_caps res) rep
      ++ m_rest res
  end.

(** [str.replace(r, f)] for a regex with the g flag and a replacer [f]
    that receives the match, its captures, its offset and the whole
    string.  After an empty match the search resumes one code unit
    further. [done] is the input before [s]. *)
Fixpoint replace_loop (fuel : nat) (total : nat) (r : re)
    (f : match_result -> jsstring) (done s : jsstring) : jsstring :=
  match fuel with
  | 0 => s
  | S fuel' =>
      match exec_from total r s (length done) with
      | None => s
      | Some res =>
          let skipped := take (m_index res - length done) s in
          let upto := done ++ skipped ++ m_text res in
          skipped ++ f res ++
          match m_text res, m_rest res with
          | [], x :: rest' =>
              x :: replace_loop fuel' total r f (upto ++ [x]) rest'
          | [], [] => []
          | _ :: _, rest => replace_loop fuel' total r f upto rest
          end
      end
  end.

Definition replace_all_with (r : re) (f : match_result -> jsstring)
    (s : jsstring) : jsstring :=
  replace_loop (S (length s)) (length s) r f [] s.

(** [str.replace(r, rep)] for a regex with the g flag and a replacement
    string. *)
Definition replace_all (r : re) (s rep : jsstring) : jsstring :=
  replace_all_with r
    (fun res =>
       get_substitution (length (groups r)) (m_text res)
         (take (m_index res) s) (m_rest res) (m_caps res) rep)
    s.

End Regex.

(** ** JavaScript values: the objects the wizard builds and JSON yields *)

Module Value.
Import JS.

Inductive value : Type :=
| VUndef
| VNull
| VBool (b : bool)
| VNum (n : number)
| VStr (s : jsstring)
| VArr (items : list value)
| VObj (fields : list (jsstring * value)).
    (* own properties, in the order [Object.keys] lists them *)

Fixpoint obj_get (fields : list (jsstring * value)) (key : jsstring) : value :=
  match fields with
  | [] => VUndef
  | (k, v) :: rest => if str_eqb k key then v else obj_get rest key
  end.

(** [o[key] = v]: an existing property keeps its place, a new one goes
    last.  (A new name that is an array index would go before the other
    names; the sources assign none.) *)
Fixpoint obj_set (fields : list (jsstring * value)) (key : jsstring) (v : value)
  : list (jsstring * value) :=
  match fields with
  | [] => [(key, v)]
  | (k, w) :: rest =>
      if str_eqb k key then (k, v) :: rest else (k, w) :: obj_set rest key v
  end.

(** [{ ...base, ...extra }] *)
Definition spread (base extra : list (jsstring * value)) : list (jsstring * value) :=
  fold_left (fun acc kv => obj_set acc kv.1 kv.2) extra base.

(** [v.key] for the property names the sources read (none of them is a
    property of a string, number, boolean or array).  [None] is the
    TypeError of reading a property of [undefined] or [null]. *)
Definition get (v : value) (key : jsstring) : option value :=
  match v with
  | VUndef | VNull => None
  | VObj fields => Some (obj_get fields key)
  | VBool _ | VNum _ | VStr _ | VArr _ => Some VUndef
  end.

(** [v?.key] *)
Definition get_opt (v : value) (key : jsstring) : value :=
  default VUndef (get v key).

(** [Object.values(v)]; [None] is the TypeError on [undefined] and [null]. *)
Definition Object_values (v : value) : option (list value) :=
  match v with
  | VUndef | VNull => None
  | VObj fields => Some (map snd fields)
  | VArr items => Some items
  | VStr s => Some (map (fun c => VStr [c]) s)
  | VBool _ | VNum _ => Some []
  end.

Definition is_truthy (v : value) : bool :=
  match v with
  | VUndef | VNull => false
  | VBool b => b
  | VNum NaN => false
  | VNum (Finite z) => negb (Z.eqb z 0)
  | VNum (Infinite _) => true
  | VStr s => truthy s
  | VArr _ | VObj _ => true
  end.

(** [v === 'literal'] *)
Definition is_str (v : value) (s : jsstring) : bool :=
  match v with
  | VStr x => str_eqb x s
  | _ => false
  end.

(** [String(n)]: the decimal digits of an integer (below 10^21, where
    JavaScript changes to the exponent notation; the sources turn no
    larger number into a string). *)
Definition number_to_string (n : number) : jsstring :=
  match n with
  | NaN => js "NaN"
  | Finite z => js (DecimalString.NilEmpty.string_of_int (Z.to_int z))
  | Infinite false => js "Infinity"
  | Infinite true => js "-Infinity"
  end.

Fixpoint join (sep : jsstring) (parts : list jsstring) : jsstring :=
  match parts with
  | [] => []
  | [p] => p
  | p :: rest => p ++ sep ++ join sep rest
  end.

(** [String(v)], as a template literal applies it. *)
Fixpoint to_string (v : value) : jsstring :=
  match v with
  | VUndef => js "undefined"
  | VNull => js "null"
  | VBool true => js "true"
  | VBool false => js "false"
  | VNum n => number_to_string n
  | VStr s => s
  | VArr items =>
      join (js ",")
        (map (fun x => match x with
                       | VUndef | VNull => []
                       | _ => to_string x
                       end) items)
  | VObj _ => js "[object Object]"
  end.

(** The value [JSON.stringify] serialises: NaN and the infinities become
    [null], a property whose value is [undefined] is left out. *)
Fixpoint jsonify (v : value) : value :=
  match v with
  | VNum NaN | VNum (Infinite _) => VNull
  | VArr items =>
      VArr (map (fun x => match jsonify x with VUndef => VNull | y => y end) items)
  | VObj fields =>
      VObj ((fix go (fs : list (jsstring * value)) : list (jsstring * value) :=
               match fs with
               | [] => []
               | (k, x) :: rest =>
                   match jsonify x with
                   | VUndef => go rest
                   | y => (k, y) :: go rest
                   end
               end) fields)
  | _ => v
  end.

(** [Object.keys(v)] of an object value. *)
Definition keys (v : value) : list jsstring :=
  match v with
  | VObj fields => map fst fields
  | _ => []
  end.

End Value.

(** ** cicd-pipelines/scripts/setup-pipeline.js: the setup wizard *)

Module Wizard.
Import JS Value.

(** What [fs.writeFileSync] is given: the JSON text of a value, or text. *)
Inductive content : Type :=
| FJson (v : value)       (* JSON.stringify(v, null, 2) *)
| FText (s : jsstring).

(** The answers still to be typed at the prompt, and the directories and
    files below [process.cwd()], keyed by their path relative to it. *)
Record wstate : Type := WState {
  answers : list jsstring;
  dirs : gset jsstring;
  files : gmap jsstring content
}.

Inductive outcome (A : Type) : Type :=
| Done (a : A) (st : wstate)
| Threw (st : wstate)        (* an exception, caught by main's catch *)
| Waiting.                   (* a prompt that is never answered *)
Arguments Done {A} a st.
Arguments Threw {A} st.
Arguments Waiting {A}.

Definition W (A : Type) : Type := wstate -> outcome A.

#[export] Instance W_ret : MRet W := fun A a st => Done a st.
#[export] Instance W_bind : MBind W := fun A B f w st =>
  match w st with
  | Done a st' => f a st'
  | Threw st' => Threw st'
  | Waiting => Waiting
  end.

(** A step that throws a TypeError when its value is [None]. *)
Definition try_ {A : Type} (o : option A) : W A := fun st =>
  match o with
  | Some a => Done a st
  | None => Threw st
  end.

(** [await question(query)]: the next line typed by the user. *)
Definition question : W jsstring := fun st =>
  match answers st with
  | a :: rest => Done a (WState rest (dirs st) (files st))
  | [] => Waiting
  end.

(** What a path below [process.cwd()] names.  A path that is in [files]
    is a regular file; any other path that is in [dirs] is a directory.
    Permissions and input/output errors are outside the model. *)
Inductive kind : Type :=
| IsFile
| IsDirectory.

Definition stat (st : wstate) (path : jsstring) : option kind :=
  match files st !! path with
  | Some _ => Some IsFile
  | None => if bool_decide (path ∈ dirs st) then Some IsDirectory else None
  end.

Definition isFile (st : wstate) (path : jsstring) : bool :=
  match stat st path with Some IsFile => true | _ => false end.

Definition isDirectory (st : wstate) (path : jsstring) : bool :=
  match stat st path with Some IsDirectory => true | _ => false end.

(** [fs.existsSync(path)] *)
Definition existsSync (st : wstate) (path : jsstring) : bool :=
  match stat st path with Some _ => true | None => false end.

(** The directories on the way from [process.cwd()] down to [path], and
    [path] itself at the end: [a], [a/b], [a/b/c] for [a/b/c]. *)
Definition ancestors (path : jsstring) : list jsstring :=
  let parts := split (ch "/") path in
  map (fun n => join (js "/") (take n parts)) (seq 1 (length parts)).

(** [path.dirname(path)] of a relative path; [None] is [process.cwd()]
    itself, the directory of a path without a slash. *)
Definition dirname (path : jsstring) : option jsstring :=
  match split (ch "/") path with
  | [] | [_] => None
  | parts => Some (join (js "/") (removelast parts))
  end.

(** [fs.mkdirSync(dir, { recursive: true })]: the missing directories on
    the way are made too.  It throws (ENOTDIR, EEXIST) when [dir] or a
    directory on the way is a regular file. *)
Definition mkdirSync (dir : jsstring) : W unit := fun st =>
  if existsb (isFile st) (ancestors dir) then Threw st
  else Done tt (WState (answers st) (list_to_set (ancestors dir) ∪ dirs st) (files st)).

(** [if (!fs.existsSync(dir)) fs.mkdirSync(dir, { recursive: true })] *)
Definition mkdir (dir : jsstring) : W unit := fun st =>
  if existsSync st dir then Done tt st else mkdirSync dir st.

(** [fs.writeFileSync(path, data)]: the file is made or overwritten.  It
    throws when the directory of [path] is missing (ENOENT) or is a
    regular file (ENOTDIR), and when [path] is a directory (EISDIR). *)
Definition writeFileSync (path : jsstring) (c : content) : W unit := fun st =>
  let reachable :=
    match dirname path with
    | Some dir => isDirectory st dir
    | None => true
    end in
  if reachable && negb (isDirectory st path)
  then Done tt (WState (answers st) (dirs st) (<[path := c]> (files st)))
  else Threw st.

(** The choice [selectOption] makes from the typed answer; [None] is
    [undefined], what indexing past the end of an array yields. *)
Definition select (options : list jsstring) (answer : jsstring) : option jsstring :=
  match parseInt answer with
  | Some n =>
      let index := (n - 1)%Z in
      if ((0 <=? index) && (index <? Z.of_nat (length options)))%Z
      then options !! Z.to_nat index
      else options !! 0
  | None => options !! 0
  end.

Definition opt_value (o : option jsstring) : value :=
  match o with
  | Some s => VStr s
  | None => VUndef
  end.

Definition selectOption (options : list jsstring) : W value :=
  answer ← question;
  mret (opt_value (select options answer)).

Definition confirm (defaultValue : bool) : W bool :=
  answer ← question;
  mret (if negb (truthy answer) then defaultValue
        else str_eqb (toLowerCase answer) (js "y")
             || str_eqb (toLowerCase answer) (js "yes")).

(** [v.split(' ')[0]]; a TypeError when [v] is [undefined]. *)
Definition first_word (v : value) : option jsstring :=
  match v with
  | VStr s => Some (split_first (ch " ") s)
  | _ => None
  end.

Definition getProviderConfig (provider : value) : W (list (jsstring * value)) :=
  type ← try_ (first_word provider);
  let config := [(js "type", VStr type)] in
  if str_eqb type (js "firebase") then
    projectId ← question;
    let config := obj_set config (js "projectId") (VStr projectId) in
    site ← question;
    mret (obj_set config (js "site") (VStr (or_else site projectId)))
  else if str_eqb type (js "aws") then
    bucket ← question;
    let config := obj_set config (js "bucket") (VStr bucket) in
    region ← question;
    let config := obj_set config (js "region") (VStr (or_else region (js "us-east-1"))) in
    cloudfront ← question;
    mret (obj_set config (js "cloudfront") (VStr cloudfront))
  else if str_eqb type (js "azure") then
    storageAccount ← question;
    let config := obj_set config (js "storageAccount") (VStr storageAccount) in
    resourceGroup ← question;
    let config := obj_set config (js "resourceGroup") (VStr resourceGroup) in
    container ← question;
    mret (obj_set config (js "container") (VStr (or_else container (js "$web"))))
  else if str_eqb type (js "vercel") then
    orgId ← question;
    let config := obj_set config (js "orgId") (VStr orgId) in
    projectName ← question;
    mret (obj_set config (js "projectName") (VStr projectName))
  else if str_eqb type (js "netlify") then
    siteId ← question;
    mret (obj_set config (js "siteId") (VStr siteId))
  else if str_eqb type (js "custom") then
    deployScript ← question;
    mret (obj_set config (js "deployScript")
            (VStr (or_else deployScript (js ".cicd/deploy.sh"))))
  else mret config.

(** [generateWorkflow(config)]; [None] is a TypeError. *)
Definition generateWorkflow (config : value) : option jsstring :=
  providers ← get config (js "providers");
  production ← get providers (js "production");
  let type := get_opt production (js "type") in
  let prodProvider := if is_truthy type then type else VStr (js "firebase") in
  build ← get config (js "build");
  nodeVersion ← get build (js "nodeVersion");
  command ← get build (js "command");
  testing ← get config (js "testing");
  testCommand ← get testing (js "command");
  outputDir ← get build (js "outputDir");
  enabled ← get testing (js "enabled");
  advanced ← get config (js "advanced");
  caching ← get advanced (js "caching");
  securityScan ← get advanced (js "securityScan");
  metrics ← get advanced (js "metrics");
  Some (js "name: Deploy Pipeline
# Generated by Universal CI/CD Setup

on:
  push:
    branches:
      - main
      - staging
      - develop
  workflow_dispatch:
    inputs:
      environment:
        description: 'Deployment environment'
        required: true
        type: choice
        options:
          - production
          - staging
          - development

jobs:
  deploy:
    name: Deploy to Cloud
    uses: sirsimaster/universal-cicd/.github/workflows/universal-deploy.yml@main
    with:
      provider: '"
    ++ to_string prodProvider
    ++ js "'
      environment: ${{ github.event.inputs.environment || (github.ref == 'refs/heads/main' && 'production') || (github.ref == 'refs/heads/staging' && 'staging') || 'development' }}
      node-version: '"
    ++ to_string nodeVersion
    ++ js "'
      build-command: '"
    ++ to_string command
    ++ js "'
      test-command: '"
    ++ to_string testCommand
    ++ js "'
      output-directory: '"
    ++ to_string outputDir
    ++ js "'
      enable-testing: "
    ++ to_string enabled
    ++ js "
      enable-caching: "
    ++ to_string caching
    ++ js "
      enable-security-scan: "
    ++ to_string securityScan
    ++ js "
      enable-metrics: "
    ++ to_string metrics
    ++ js "
    secrets: inherit
").

Definition nl : jsstring := [10%N].

(** [generateEnvExample(env)]: the lines pushed, joined by a line feed. *)
Definition generateEnvExample (env : value) : option jsstring :=
  name ← get env (js "name");
  name ← match name with VStr s => Some s | _ => None end;
  let lines := [js "# " ++ toUpperCase name ++ js " Environment Variables" ++ nl] in
  let field (k : string) := to_string (get_opt env (js k)) in
  let type := get_opt env (js "type") in
  let lines :=
    if is_str type (js "firebase") then
      lines ++ [js "FIREBASE_TOKEN=your-firebase-token";
                js "FIREBASE_PROJECT=" ++ field "projectId"]
    else if is_str type (js "aws") then
      lines ++ [js "AWS_ACCESS_KEY_ID=your-access-key";
                js "AWS_SECRET_ACCESS_KEY=your-secret-key";
                js "AWS_REGION=" ++ field "region";
                js "AWS_S3_BUCKET=" ++ field "bucket"]
      ++ (if is_truthy (get_opt env (js "cloudfront"))
          then [js "AWS_CLOUDFRONT_ID=" ++ field "cloudfront"] else [])
    else if is_str type (js "azure") then
      lines ++ [jsq "AZURE_CREDENTIALS={~clientId~:~~,~clientSecret~:~~,~subscriptionId~:~~,~tenantId~:~~}";
                js "AZURE_STORAGE_ACCOUNT=" ++ field "storageAccount";
                js "AZURE_RESOURCE_GROUP=" ++ field "resourceGroup"]
    else if is_str type (js "vercel") then
      lines ++ [js "VERCEL_TOKEN=your-vercel-token"]
      ++ (if is_truthy (get_opt env (js "orgId"))
          then [js "VERCEL_ORG_ID=" ++ field "orgId"] else [])
    else if is_str type (js "netlify") then
      lines ++ [js "NETLIFY_AUTH_TOKEN=your-netlify-token";
                js "NETLIFY_SITE_ID=" ++ field "siteId"]
    else lines in
  Some (join nl lines).

(** A JavaScript [Set] of strings: insertion-ordered, [add] ignores a
    member that is already present, [Array.from] lists it in order. *)
Definition set_add (x : jsstring) (s : list jsstring) : list jsstring :=
  if decide (x ∈ s) then s else s ++ [x].

(** The body of the [forEach] callback of [getRequiredSecrets]. *)
Definition provider_secrets (secrets : list jsstring) (provider : value)
  : option (list jsstring) :=
  type ← get provider (js "type");
  Some (if is_str type (js "firebase") then
          set_add (js "FIREBASE_TOKEN") secrets
        else if is_str type (js "aws") then
          set_add (js "AWS_SECRET_ACCESS_KEY") (set_add (js "AWS_ACCESS_KEY_ID") secrets)
        else if is_str type (js "azure") then
          set_add (js "AZURE_CREDENTIALS") secrets
        else if is_str type (js "vercel") then
          set_add (js "VERCEL_TOKEN") secrets
        else if is_str type (js "netlify") then
          set_add (js "NETLIFY_SITE_ID") (set_add (js "NETLIFY_AUTH_TOKEN") secrets)
        else secrets).

Fixpoint forEach_secrets (secrets : list jsstring) (providers : list value)
  : option (list jsstring) :=
  match providers with
  | [] => Some secrets
  | p :: rest =>
      secrets' ← provider_secrets secrets p;
      forEach_secrets secrets' rest
  end.

(** [getRequiredSecrets(config)]; [None] is a TypeError. *)
Definition getRequiredSecrets (config : value) : option (list jsstring) :=
  providers ← get config (js "providers");
  values ← Object_values providers;
  secrets ← forEach_secrets [] values;
  notifications ← get config (js "notifications");
  type ← get notifications (js "type");
  Some (if is_str type (js "slack") then set_add (js "SLACK_WEBHOOK") secrets
        else if is_str type (js "discord") then set_add (js "DISCORD_WEBHOOK") secrets
        else secrets).

(** [config.providers[env.name] = env] for every environment. *)
Fixpoint add_environments (providers : list (jsstring * value)) (envs : list value)
  : list (jsstring * value) :=
  match envs with
  | [] => providers
  | env :: rest =>
      add_environments (obj_set providers (to_string (get_opt env (js "name"))) env) rest
  end.

(** The [forEach] that writes one [.env.example] file per environment,
    at [path.join(process.cwd(), '.cicd', `${env.name}.env.example`)];
    the names [main] gives its environments leave [path.join] nothing to
    normalise. *)
Fixpoint write_env_examples (envs : list value) : W unit :=
  match envs with
  | [] => mret tt
  | env :: rest =>
      envExample ← try_ (generateEnvExample env);
      _ ← writeFileSync
            (js ".cicd/" ++ to_string (get_opt env (js "name")) ++ js ".env.example")
            (FText envExample);
      write_env_examples rest
  end.

Section Main.

(** [path.basename(process.cwd())], the default project name. *)
Variable cwd_name : jsstring.

(** The body of [main]'s [try] block.  Console output is not modelled;
    the value returned is the list of secrets that [main] prints under
    its next steps, [getRequiredSecrets(config)].  An outcome [Threw] is
    a run that ends in the [catch] block. *)
Definition main : W (list jsstring) :=
  (* Project Information *)
  answer ← question;
  let projectName := or_else answer cwd_name in
  projectType ← selectOption [
    js "web - Static website or SPA";
    js "api - Backend API service";
    js "fullstack - Full-stack application";
    js "mobile - Mobile application";
    js "desktop - Desktop application" ];
  framework ← selectOption [
    js "react - React";
    js "nextjs - Next.js";
    js "vue - Vue.js";
    js "angular - Angular";
    js "svelte - Svelte/SvelteKit";
    js "vanilla - Vanilla HTML/CSS/JS";
    js "node - Node.js";
    js "python - Python";
    js "dotnet - .NET";
    js "other - Other/Custom" ];
  (* Build Configuration *)
  answer ← question;
  let buildCommand := or_else answer (js "npm run build") in
  answer ← question;
  let outputDir := or_else answer (js "dist") in
  answer ← question;
  let nodeVersion := or_else answer (js "18") in
  (* Testing Configuration *)
  enableTesting ← confirm false;
  '(testCommand, coverageThreshold) ←
    (if enableTesting : bool then
       answer ← question;
       let testCommand := or_else answer (js "npm test") in
       enableCoverage ← confirm false;
       if enableCoverage : bool then
         answer ← question;
         mret (testCommand, Number_parseInt (or_else answer (js "80")))
       else mret (testCommand, Finite 80)
     else mret (js "npm test", Finite 80));
  (* Deployment Providers: production *)
  prodProvider ← selectOption [
    js "firebase - Firebase Hosting";
    js "aws - AWS S3 + CloudFront";
    js "azure - Azure Storage + CDN";
    js "vercel - Vercel";
    js "netlify - Netlify";
    js "gcp - Google Cloud Platform";
    js "custom - Custom/Self-hosted" ];
  prodConfig ← getProviderConfig prodProvider;
  let environments :=
    [VObj (spread [(js "name", VStr (js "production")); (js "provider", prodProvider)]
             prodConfig)] in
  (* staging *)
  staging ← confirm false;
  environments ←
    (if staging : bool then
       stagingProvider ← selectOption [
         js "firebase - Firebase Hosting";
         js "aws - AWS S3 + CloudFront";
         js "azure - Azure Storage + CDN";
         js "vercel - Vercel";
         js "netlify - Netlify";
         js "same - Same as production" ];
       stagingConfig ←
         (if is_str stagingProvider (js "same")
          then mret (spread (spread [] prodConfig)
                       [(js "environment", VStr (js "staging"))])
          else getProviderConfig stagingProvider);
       mret (environments ++
             [VObj (spread
                      [(js "name", VStr (js "staging"));
                       (js "provider",
                        if is_str stagingProvider (js "same")
                        then prodProvider else stagingProvider)]
                      stagingConfig)])
     else mret environments);
  (* development *)
  development ← confirm false;
  environments ←
    (if development : bool then
       devProvider ← selectOption [
         js "firebase - Firebase Hosting";
         js "vercel - Vercel";
         js "netlify - Netlify";
         js "local - Local only" ];
       if negb (is_str devProvider (js "local")) then
         devConfig ← getProviderConfig devProvider;
         mret (environments ++
               [VObj (spread
                        [(js "name", VStr (js "development"));
                         (js "provider", devProvider)]
                        devConfig)])
       else mret environments
     else mret environments);
  (* Advanced Options *)
  enableCaching ← confirm true;
  enableSecurityScan ← confirm true;
  enableMetrics ← confirm true;
  enableNotifications ← confirm false;
  notificationConfig ←
    (if enableNotifications : bool then
       notificationType ← selectOption [
         js "slack - Slack";
         js "discord - Discord";
         js "email - Email";
         js "teams - Microsoft Teams" ];
       mret [(js "type", notificationType); (js "enabled", VBool true)]
     else mret []);
  (* Generate Configuration *)
  projectWord ← try_ (first_word projectType);
  frameworkWord ← try_ (first_word framework);
  let config : list (jsstring * value) := [
    (js "project", VObj [
       (js "name", VStr projectName);
       (js "type", VStr projectWord);
       (js "framework", VStr frameworkWord) ]);
    (js "build", VObj [
       (js "command", VStr buildCommand);
       (js "outputDir", VStr outputDir);
       (js "nodeVersion", VStr nodeVersion) ]);
    (js "testing", VObj [
       (js "enabled", VBool enableTesting);
       (js "command", VStr testCommand);
       (js "coverage", VObj [
          (js "enabled",
           VBool (match coverageThreshold with
                  | Finite z => (0 <? z)%Z
                  | Infinite negative => negb negative
                  | NaN => false
                  end));
          (js "threshold", VNum coverageThreshold) ]) ]);
    (js "providers", VObj []);
    (js "notifications", VObj notificationConfig);
    (js "advanced", VObj [
       (js "caching", VBool enableCaching);
       (js "securityScan", VBool enableSecurityScan);
       (js "metrics", VBool enableMetrics) ]) ] in
  (* Add environments to config *)
  let config :=
    VObj (obj_set config (js "providers") (VObj (add_environments [] environments))) in
  (* Create directories *)
  _ ← mkdir (js ".cicd");
  _ ← mkdir (js ".github/workflows");
  (* Write config file *)
  _ ← writeFileSync (js ".cicd/config.json") (FJson (jsonify config));
  (* Generate workflow file *)
  workflowContent ← try_ (generateWorkflow config);
  _ ← writeFileSync (js ".github/workflows/deploy.yml") (FText workflowContent);
  (* Generate environment files *)
  _ ← write_env_examples environments;
  (* Display next steps *)
  try_ (getRequiredSecrets config).

End Main.

(** A run of the wizard from a list of typed answers, in a directory
    whose files and sub-directories are [fs]. *)
Definition run (cwd_name : jsstring) (typed : list jsstring)
    (ds : gset jsstring) (fs : gmap jsstring content) : outcome (list jsstring) :=
  main cwd_name (WState typed ds fs).

(** The secrets a completed run lists, and the file it leaves at a path. *)
Definition listed_secrets (o : outcome (list jsstring)) : option (list jsstring) :=
  match o with
  | Done secrets _ => Some secrets
  | Threw _ | Waiting => None
  end.

Definition written (o : outcome (list jsstring)) (path : jsstring) : option content :=
  match o with
  | Done _ st => files st !! path
  | Threw _ | Waiting => None
  end.

End Wizard.

(** ** The page as the navigation loaders see it *)

Module Dom.
Import JS.

(** An element, by its attributes: [el.getAttribute(name)] is a lookup. *)
Abbreviation element := (gmap jsstring jsstring).

Definition getAttribute (el : element) (name : jsstring) : option jsstring :=
  el !! name.

(** A console call and its first argument. *)
Inductive entry : Type :=
| Log (msg : jsstring)
| Warn (msg : jsstring)
| Error (msg : jsstring).

(** What stands in the page at the place of the loader's root element. *)
Inductive slot : Type :=
| Placeholder                   (* the root element, untouched *)
| Markup (html : jsstring).     (* the markup the loader put there *)

(** An [XMLHttpRequest] once its [readyState] is 4. *)
Record xhr : Type := Xhr {
  status : nat;
  responseText : jsstring
}.

End Dom.

(** ** admin-header.js: the admin header loader *)

Module AdminHeader.
Import JS Regex Value Dom.

(** [/\/$/] *)
Definition trailingSlash : re := Seq (Lit (ch "/")) Eol.

(** [/\[\[BASE\]\]/g] *)
Definition baseToken : re := lit (js "[[BASE]]").

Definition resolveBase (el : element) : jsstring :=
  match getAttribute el (js "data-base") with
  | Some base =>
      if truthy base && truthy (trim base)
      then replace_first trailingSlash base []
      else []
  | None => []
  end.

(** The path of the template, chosen from [window.location.pathname]. *)
Definition headerPath (path : jsstring) : jsstring :=
  if includes path (js "/assiduousflip/admin/development/backups/") then
    js "../../../components/admin-header.html"
  else if includes path (js "/admin/development/backups/") then
    js "../../../components/admin-header.html"
  else if includes path (js "/assiduousflip/admin/development/")
          || includes path (js "/assiduousflip/admin/contracts/") then
    js "../../components/admin-header.html"
  else if includes path (js "/admin/development/")
          || includes path (js "/admin/contracts/") then
    js "../../components/admin-header.html"
  else if includes path (js "/assiduousflip/admin/") then
    js "../components/admin-header.html"
  else if includes path (js "/admin/") || includes path (js "/client/")
          || includes path (js "/docs/") then
    js "../components/admin-header.html"
  else if includes path (js "/assiduousflip/") then
    js "components/admin-header.html"
  else
    js "components/admin-header.html".

Record config : Type := Config {
  title : jsstring;
  subtitle : jsstring;
  searchPlaceholder : jsstring;
  actions : value
}.

(** What the loader leaves behind: the slot of the root element, the
    configuration handed to [configureHeader] (when it is scheduled), the
    template requested and the console. *)
Record page : Type := Page {
  root_slot : slot;
  configured : option config;
  requested : option jsstring;
  console : list entry
}.

Section Loader.

(** [JSON.parse]; [None] when it throws a SyntaxError. *)
Variable JSON_parse : jsstring -> option value.

(** [parseConfig(root)], with the console calls it makes. *)
Definition parseConfig (root : element) : config * list entry :=
  let config :=
    Config (opt_or_else (getAttribute root (js "data-title")) (js "Admin Portal"))
           (opt_or_else (getAttribute root (js "data-subtitle"))
              (js "Manage your platform efficiently"))
           (opt_or_else (getAttribute root (js "data-search-placeholder"))
              (js "Search across all modules..."))
           (VArr []) in
  match getAttribute root (js "data-actions") with
  | Some actionsData =>
      if truthy actionsData then
        match JSON_parse actionsData with
        | Some parsed =>
            (Config (title config) (subtitle config) (searchPlaceholder config) parsed,
             [])
        | None => (config, [Warn (js "Failed to parse header actions:")])
        end
      else (config, [])
  | None => (config, [])
  end.

(** [injectHeader(root, base, config)], once the request has completed. *)
Definition injectHeader (pathname : jsstring) (base : jsstring) (config : config)
    (response : xhr) : page :=
  let path := headerPath pathname in
  let logs := [Log (js "Loading header from:")] in
  if (200 <=? status response) && (status response <? 300) then
    let html := replace_all baseToken (responseText response) base in
    Page (Markup (jsq "<header class=~admin-header~ data-base=~" ++ base
                  ++ jsq "~>" ++ html ++ js "</header>"))
         (Some config) (Some path) logs
  else
    Page Placeholder None (Some path)
         (logs ++ [Error (js "Failed to load admin header template:")]).

(** The [onReady] callback: [root] is [document.getElementById
    ('admin-header-root')]. *)
Definition load (root : option element) (pathname : jsstring) (response : xhr)
  : page :=
  match root with
  | None => Page Placeholder None None []
  | Some root =>
      let base := resolveBase root in
      let '(config, warnings) := parseConfig root in
      let p := injectHeader pathname base config response in
      Page (root_slot p) (configured p) (requested p) (warnings ++ console p)
  end.

End Loader.

End AdminHeader.

(** ** sidebar.js: the sidebar loader *)

Module Sidebar.
Import JS Regex Dom.

Definition trailingSlash : re := Seq (Lit (ch "/")) Eol.
Definition baseToken : re := lit (js "[[BASE]]").

Definition resolveBase (el : element) (path : jsstring) : jsstring :=
  let computed :=
    if includes path (js "/admin/development/") then js "../"
    else if includes path (js "/admin/contracts/") then js "../"
    else if includes path (js "/admin/") then []
    else js "admin/" in
  match getAttribute el (js "data-base") with
  | Some base =>
      if truthy base && truthy (trim base)
      then replace_first trailingSlash base []
      else computed
  | None => computed
  end.

Definition sidebarPath (path : jsstring) : jsstring :=
  if includes path (js "/assiduousflip/admin/development/")
     || includes path (js "/assiduousflip/admin/contracts/") then
    js "../../components/sidebar.html"
  else if includes path (js "/admin/development/")
          || includes path (js "/admin/contracts/") then
    js "../../components/sidebar.html"
  else if includes path (js "/assiduousflip/admin/") then
    js "../components/sidebar.html"
  else if includes path (js "/admin/") || includes path (js "/client/")
          || includes path (js "/docs/") then
    js "../components/sidebar.html"
  else if includes path (js "/assiduousflip/") then
    js "components/sidebar.html"
  else
    js "components/sidebar.html".

Record page : Type := Page {
  root_slot : slot;
  active : option jsstring;      (* the data-key looked up for highlighting *)
  requested : option jsstring;
  console : list entry
}.

(** [injectSidebar(root, base, activeKey)], once the request has completed. *)
Definition injectSidebar (pathname : jsstring) (base activeKey : jsstring)
    (response : xhr) : page :=
  let path := sidebarPath pathname in
  let logs := [Log (js "Loading sidebar from:")] in
  if (200 <=? status response) && (status response <? 300) then
    let html := replace_all baseToken (responseText response) base in
    Page (Markup (jsq "<aside class=~sidebar~ data-base=~" ++ base
                  ++ jsq "~>" ++ html ++ js "</aside>"))
         (if truthy activeKey then Some activeKey else None)
         (Some path) logs
  else
    Page Placeholder None (Some path)
         (logs ++ [Error (js "Failed to load sidebar template:")]).

Definition load (root : option element) (pathname : jsstring)
    (response : xhr) : page :=
  match root with
  | None => Page Placeholder None None []
  | Some root =>
      let base := resolveBase root pathname in
      let active := opt_or_else (getAttribute root (js "data-active")) [] in
      injectSidebar pathname base active response
  end.

End Sidebar.

(** ** universal-header.js: the universal header loader *)

Module UniversalHeader.
Import JS Regex Value Dom.

Definition bs : N := 92%N.   (* the backslash *)

(** A class of listed code units, [[...]]. *)
Definition one_of (set : jsstring) : re :=
  Char (fun c => existsb (unit_eqb c) set).

(** The token regexes are written with doubled backslashes inside regex
    literals.  [/\[\[BASE\]\]/g] therefore reads: a backslash, one
    code unit of the class [[\[BASE\]], a backslash, a closing
    bracket. *)
Definition escaped (class : jsstring) : re :=
  Seq (Lit bs) (Seq (one_of (bs :: ch "[" :: class ++ [bs]))
                  (Seq (Lit bs) (Lit (ch "]")))).

Definition baseTokenRegex : re := escaped (js "BASE").
Definition typeTokenRegex : re := escaped (js "TYPE").
Definition titleTokenRegex : re := escaped (js "TITLE").
Definition subtitleTokenRegex : re := escaped (js "SUBTITLE").
(** In [/\[\[USER_NAME(?::(\d+):(\d+))?\]\]/g] the class runs up to
    the first closing bracket, so the regex has no capturing group. *)
Definition userNameTokenRegex : re :=
  escaped (js "USER_NAME(?::(" ++ [bs] ++ js "d+):(" ++ [bs] ++ js "d+))?").
Definition searchPlaceholderTokenRegex : re := escaped (js "SEARCH_PLACEHOLDER").

(** [/\/components\/universal-header\.js$/] *)
Definition scriptSuffix : re := Seq (lit (js "/components/universal-header.js")) Eol.

Record location : Type := Location {
  origin : jsstring;
  pathname : jsstring
}.

(** [resolveBase()]; [script] is [document.currentScript ||
    document.querySelector('script[src$=...]')]. *)
Definition resolveBase (script : option element) (loc : location) : jsstring :=
  let from_location :=
    if includes (pathname loc) (js "/")
    then origin loc ++ js "/assiduousflip"
    else origin loc in
  match script with
  | None => from_location
  | Some script =>
      match getAttribute script (js "src") with
      | Some src =>
          if truthy src then
            if startsWith src (js "components/") then from_location
            else replace_first scriptSuffix src []
          else []
      | None => []
      end
  end.

Record config : Type := Config {
  base : jsstring;
  type : jsstring;
  title : jsstring;
  subtitle : jsstring;
  userName : jsstring;
  searchPlaceholder : jsstring;
  showAuth : bool;
  actions : value
}.

(** [s.substring(a, b)] with arguments that may be NaN. *)
Definition substring (s : jsstring) (a b : option Z) : jsstring :=
  let clamp (x : option Z) : nat :=
    match x with
    | None => 0
    | Some z => Nat.min (Z.to_nat z) (length s)
    end in
  let from := Nat.min (clamp a) (clamp b) in
  let to := Nat.max (clamp a) (clamp b) in
  take (to - from) (drop from s).

(** What ends up at the place of the root element. *)
Inductive injected : Type :=
| Kept                                        (* the root element itself *)
| Template (html : jsstring) (type : jsstring)
    (* the first element of the processed template, showing the parts
       marked for [type] *)
| Fallback (html : jsstring).                 (* root.outerHTML = fallbackHtml *)

(** The outcome of [fetch(fetchUrl)] and of reading the body. *)
Inductive fetched : Type :=
| Rejected                                    (* a network error *)
| Responded (status : nat) (body : option jsstring).
    (* [body] is [None] when [response.text()] rejects *)

Record page : Type := Page {
  header : injected;
  fetchUrl : option jsstring;
  console : list entry
}.

Section Loader.

(** [JSON.parse]; [None] when it throws a SyntaxError. *)
Variable JSON_parse : jsstring -> option value.
(** [String.prototype.toUpperCase] with the full Unicode mapping. *)
Variable toUpperCase : jsstring -> jsstring.
(** Whether the fragment parsed from a markup string has a first element
    ([container.firstElementChild] is not [null]). *)
Variable firstElementChild : jsstring -> bool.
(** Whether that first element has a descendant marked
    [data-header-actions]
    ([headerElement.querySelector('[data-header-actions]')] is not
    [null]). *)
Variable headerActions : jsstring -> bool.

Definition processTokens (html : jsstring) (config : config) : jsstring :=
  let html := replace_all baseTokenRegex html (base config) in
  let html := replace_all typeTokenRegex html (type config) in
  let html := replace_all titleTokenRegex html (title config) in
  let html := replace_all subtitleTokenRegex html (subtitle config) in
  let html := replace_all searchPlaceholderTokenRegex html (searchPlaceholder config) in
  replace_all_with userNameTokenRegex
    (fun res =>
       (* the replacer's [start] and [end] parameters receive the offset
          and the whole string: the regex has no group *)
       if negb (truthy (userName config)) then []
       else toUpperCase
              (substring (userName config)
                 (Some (Z.of_nat (m_index res))) (parseInt html)))
    html.

Definition fallbackHtml (base : jsstring) : jsstring :=
  jsq "
        <header class=~universal-header public-header~ style=~background: white; border-bottom: 1px solid #e5e7eb; padding: 1rem 1.5rem; display: flex; justify-content: space-between; align-items: center;~>
          <div style=~display: flex; align-items: center; gap: 0.5rem;~>
            <svg width=~24~ height=~24~ viewBox=~0 0 24 24~ fill=~none~ stroke=~#60A3D9~ stroke-width=~2~>
              <path d=~M3 9l9-7 9 7v11a2 2 0 0 1-2 2H5a2 2 0 0 1-2-2z~></path>
              <polyline points=~9 22 9 12 15 12 15 22~></polyline>
            </svg>
            <div>
              <span style=~font-size: 1.125rem; font-weight: 700; color: #111827;~>Assiduous</span><br>
              <span style=~font-size: 0.75rem; color: #6b7280; text-transform: uppercase; letter-spacing: 0.05em;~>Properties</span>
            </div>
          </div>
          <div style=~display: flex; align-items: center; gap: 1rem;~>
            <nav style=~display: flex; gap: 1.5rem;~>
              <a href=~"
    ++ base ++
    jsq "/~ style=~color: #6b7280; text-decoration: none; font-size: 0.875rem;~>Home</a>
              <a href=~"
    ++ base ++
    jsq "/properties.html~ style=~color: #6b7280; text-decoration: none; font-size: 0.875rem;~>Properties</a>
              <a href=~"
    ++ base ++
    jsq "/agents.html~ style=~color: #6b7280; text-decoration: none; font-size: 0.875rem;~>Find Agents</a>
              <a href=~"
    ++ base ++
    jsq "/about.html~ style=~color: #6b7280; text-decoration: none; font-size: 0.875rem;~>About</a>
            </nav>
            <div style=~display: flex; gap: 0.75rem;~>
              <a href=~#~ onclick=~showLogin()~ style=~color: #6b7280; text-decoration: none; font-size: 0.875rem;~>Sign In</a>
              <a href=~#~ onclick=~showSignup()~ style=~background: #60A3D9; color: white; padding: 0.5rem 1rem; border-radius: 0.375rem; text-decoration: none; font-size: 0.875rem;~>Get Started</a>
            </div>
          </div>
        </header>
      ".

(** Whether [config.actions.forEach(action => ...)] throws: a TypeError
    when the actions are no array, which has no [forEach], and in the
    callback, which reads [action.primary], when an action is [null]. *)
Definition forEach_throws (actions : value) : bool :=
  match actions with
  | VArr items =>
      existsb (fun action => match action with
                             | VNull | VUndef => true
                             | _ => false
                             end) items
  | _ => true
  end.

(** Whether [setupInteractivity(headerElement, config)] throws.  Its
    listeners are only registered; the buttons of the actions are made
    when the actions are truthy, the type is ['admin'] and the header has
    a place for them. *)
Definition setupInteractivity_throws (html : jsstring) (config : config) : bool :=
  is_truthy (actions config) && str_eqb (type config) (js "admin")
  && headerActions html && forEach_throws (actions config).

Definition injectHeader (root : option element) (script : option element)
    (loc : location) (response : fetched) : page :=
  match root with
  | None => Page Kept None []
  | Some root =>
      let base := resolveBase script loc in
      let type := opt_or_else (getAttribute root (js "data-type")) (js "public") in
      let title :=
        opt_or_else (getAttribute root (js "data-title")) (js "Assiduous Properties") in
      let subtitle := opt_or_else (getAttribute root (js "data-subtitle")) [] in
      let userName := opt_or_else (getAttribute root (js "data-user-name")) (js "User") in
      let searchPlaceholder :=
        opt_or_else (getAttribute root (js "data-search-placeholder")) (js "Search...") in
      let showAuth :=
        match getAttribute root (js "data-show-auth") with
        | Some v => str_eqb v (js "true")
        | None => false
        end in
      let '(actions, warnings) :=
        match getAttribute root (js "data-actions") with
        | Some actionsAttr =>
            if truthy actionsAttr then
              match JSON_parse actionsAttr with
              | Some parsed => (parsed, [])
              | None => (VArr [], [Warn (js "Failed to parse data-actions:")])
              end
            else (VArr [], [])
        | None => (VArr [], [])
        end in
      let config :=
        Config base type title subtitle userName searchPlaceholder showAuth actions in
      let fetchUrl := base ++ js "/components/universal-header.html" in
      let logs :=
        warnings ++
        [Log (js "Universal Header: Attempting to fetch from:");
         Log (js "Base path resolved as:");
         Log (js "Current location:")] in
      let createFallbackHeader (logs : list entry) :=
        Page (Fallback (fallbackHtml base)) (Some fetchUrl)
             (logs ++ [Error (js "Failed to load universal header:");
                       Log (js "Using fallback header instead")]) in
      match response with
      | Rejected => createFallbackHeader logs
      | Responded status body =>
          let logs := logs ++ [Log (js "Fetch response status:")] in
          if negb ((200 <=? status) && (status <=? 299)) then createFallbackHeader logs
          else
            match body with
            | None => createFallbackHeader logs
            | Some html =>
                let logs := logs ++ [Log (js "Successfully fetched header template")] in
                let html := processTokens html config in
                if firstElementChild html
                then
                  (* the header is in the page when [setupInteractivity]
                     runs: if that throws, the [catch] logs the failure,
                     and [root.outerHTML = fallbackHtml] does nothing,
                     the root having no parent any more *)
                  Page (Template html type) (Some fetchUrl)
                       (if setupInteractivity_throws html config
                        then logs ++ [Error (js "Failed to load universal header:");
                                      Log (js "Using fallback header instead")]
                        else logs)
                else createFallbackHeader logs
            end
      end
  end.

End Loader.

End UniversalHeader.

(** ** scripts/generate-docs.js: the documentation generator *)

Module DocGen.
Import JS Regex.

Record prop : Type := Prop_ {
  prop_name : jsstring;
  prop_required : bool;
  prop_type : jsstring
}.

Record componentInfo : Type := ComponentInfo {
  name : jsstring;
  props : list prop;
  methods : list jsstring;
  description : jsstring;
  examples : list jsstring
}.

(** [/interface\s+\w+Props\s*{([^}]+)}/] *)
Definition propsRe : re :=
  Seq (lit (js "interface"))
  (Seq (Plus (Char is_space))
  (Seq (Plus (Char is_word))
  (Seq (lit (js "Props"))
  (Seq (Star (Char is_space))
  (Seq (Lit (ch "{"))
  (Seq (Group 1 (Plus (NotLit (ch "}"))))
       (Lit (ch "}")))))))).

(** [/^\s*(\w+)(\?)?:\s*([^;]+)/] *)
Definition propRe : re :=
  Seq Bol
  (Seq (Star (Char is_space))
  (Seq (Group 1 (Plus (Char is_word)))
  (Seq (Opt (Group 2 (Lit (ch "?"))))
  (Seq (Lit (ch ":"))
  (Seq (Star (Char is_space))
       (Group 3 (Plus (NotLit (ch ";"))))))))).

(** [/\/\*\*\s*\n([^*]|\*(?!\/))*\*\//] *)
Definition docRe : re :=
  Seq (lit (js "/**"))
  (Seq (Star (Char is_space))
  (Seq (Lit 10%N)
  (Seq (Star (Group 1 (Alt (NotLit (ch "*"))
                           (Seq (Lit (ch "*")) (NotAhead (Lit (ch "/")))))))
       (lit (js "*/"))))).

(** [/\*\s+([^@\n]+)/] *)
Definition descRe : re :=
  Seq (Lit (ch "*"))
  (Seq (Plus (Char is_space))
       (Group 1 (Plus (Char (fun c => negb (unit_eqb c (ch "@")) && negb (unit_eqb c 10%N)))))).

(** The callback of [propLines.forEach]: the property a line declares. *)
Definition parseLine (line : jsstring) : list prop :=
  match str_match propRe line with
  | Some propMatch =>
      [Prop_ (default [] (m_caps propMatch 1))
             (negb (match m_caps propMatch 2 with Some s => truthy s | None => false end))
             (trim (default [] (m_caps propMatch 3)))]
  | None => []
  end.

(** [parseComponent(filePath)]: [name] is [path.basename(filePath,
    path.extname(filePath))] and [code] the text of the file. *)
Definition parseComponent (name code : jsstring) : componentInfo :=
  let props :=
    match str_match propsRe code with
    | Some propsMatch =>
        let propsContent := default [] (m_caps propsMatch 1) in
        let propLines :=
          filter (fun line => truthy (trim line) = true) (split 10%N propsContent) in
        concat (map parseLine propLines)
    | None => []
    end in
  let description :=
    match str_match docRe code with
    | Some docMatch =>
        let docContent := m_text docMatch in
        match str_match descRe docContent with
        | Some descMatch => trim (default [] (m_caps descMatch 1))
        | None => []
        end
    | None => []
    end in
  ComponentInfo name props [] description [].

End DocGen.

(** ** The base token and plain bases *)

Module BaseToken.
Import JS.





End BaseToken.

(** ** Sample inputs *)

Module Examples.
Import JS Regex Value Dom.

(** Three environments on AWS and a Slack channel: each secret once. *)
Definition three_aws_environments : value :=
  VObj [
    (js "providers", VObj [
       (js "production", VObj [(js "name", VStr (js "production")); (js "type", VStr (js "aws"))]);
       (js "staging", VObj [(js "name", VStr (js "staging")); (js "type", VStr (js "aws"))]);
       (js "development", VObj [(js "name", VStr (js "development")); (js "type", VStr (js "aws"))]) ]);
    (js "notifications", VObj [(js "type", VStr (js "slack"))]) ].

(** A root element without attributes. *)
Definition bare_root : element := ∅.

(** A component file with neither a props interface nor a JSDoc comment. *)
Definition plain_module : jsstring :=
  js "export const Icon = () => null;
".

(** A page served from the root of a site. *)
Definition site_root : UniversalHeader.location :=
  UniversalHeader.Location (js "https://example.org") (js "/index.html").



(** A session of the wizard: defaults for the project, Firebase for
    production, no staging or development environment, notifications on
    with the first channel, Slack. *)
Definition slack_session : list jsstring :=
  map js [ "shop"; "1"; "1"; "npm run build"; "dist"; "20"; "n";
           "1"; "shop-prod"; "shop";
           "n"; "n";
           "y"; "y"; "y"; "y"; "1" ].


End Examples.

(** ** Props interface blocks, line by line

    The text of an interface block up to its first closing brace: the
    opening [interface <Name>Props {], then the lines, each a declaration
    ([name: type] or [name?: type], with or without a [;]) or a line that
    does not start with a name, like a blank line or a comment.  A flat
    interface
    is such a block up to its own closing brace.  In an interface with a
    nested object literal the block ends at the closing brace of the
    nested object, and the line that opens the nested object is a
    declaration whose type is the opening brace. *)

Module InterfaceBlock.
Import JS.

Record field : Type := Field {
  f_indent : jsstring;      (* blanks before the name *)
  f_name : jsstring;
  f_optional : bool;        (* whether the name is followed by [?] *)
  f_gap : jsstring;         (* blanks after the colon *)
  f_type : jsstring;
  f_tail : jsstring         (* the rest of the line: blanks, or from the [;] on *)
}.

(** White space other than the line feed. *)
Definition is_blank (c : N) : bool := is_space c && negb (unit_eqb c 10%N).

(** A code unit of a line inside the block: no line feed, no closing brace. *)
Definition line_unit (c : N) : bool :=
  negb (unit_eqb c 10%N) && negb (unit_eqb c (ch "}")).

(** A code unit of a type expression. *)
Definition type_unit (c : N) : bool :=
  negb (unit_eqb c (ch ";")) && line_unit c.

Definition well_formed (f : field) : bool :=
  forallb is_blank (f_indent f)
  && truthy (f_name f) && forallb is_word (f_name f)
  && forallb is_blank (f_gap f)
  && truthy (f_type f) && forallb type_unit (f_type f)
  && str_eqb (trim (f_type f)) (f_type f)
  && (forallb is_blank (f_tail f) || startsWith (f_tail f) (js ";"))
  && forallb line_unit (f_tail f).

Definition declaration (f : field) : jsstring :=
  f_indent f ++ f_name f ++ (if f_optional f then js "?" else [])
  ++ js ":" ++ f_gap f ++ f_type f ++ f_tail f.

Definition body (fields : list field) : jsstring :=
  concat (map (fun f => declaration f ++ [10%N]) fields).

(** A block with a line feed after the opening brace and one declaration
    on every line: [interface <Name>Props {] with white space [sep] after
    the keyword and [opening] before the brace, the declaration lines,
    the blanks before the first closing brace, and that brace. *)
Definition block (sep component opening : jsstring) (fields : list field)
    (closing : jsstring) : jsstring :=
  js "interface" ++ sep ++ component ++ js "Props" ++ opening ++ js "{"
  ++ [10%N] ++ body fields ++ closing ++ js "}".

(** The entry [parseComponent] is expected to produce for a field. *)
Definition declared (f : field) : DocGen.prop :=
  DocGen.Prop_ (f_name f) (negb (f_optional f)) (f_type f).

(** A line between the braces: the declaration of a field, or another
    line. *)
Inductive line : Type :=
| Declares (f : field)
| Other (text : jsstring).

(** A line that does not start with a name: it is blank, or its first
    character after the blanks is no word character, as in a comment. *)
Definition nameless (text : jsstring) : bool :=
  forallb line_unit text
  && match trimStart text with
     | [] => true
     | c :: _ => negb (is_word c)
     end.

Definition line_text (l : line) : jsstring :=
  match l with
  | Declares f => declaration f
  | Other text => text
  end.

Definition well_formed_line (l : line) : bool :=
  match l with
  | Declares f => well_formed f
  | Other text => nameless text
  end.

(** The fields the lines declare, in order. *)
Fixpoint declarations (lines : list line) : list field :=
  match lines with
  | [] => []
  | Declares f :: rest => f :: declarations rest
  | Other _ :: rest => declarations rest
  end.

(** The text between the braces: the lines, a line feed between each
    two.  The first line stands on the line of the opening brace, the
    last one before the closing brace. *)
Definition lines_text (lines : list line) : jsstring :=
  Value.join [10%N] (map line_text lines).

(** [interface <Name>Props {], the lines, and the first closing brace. *)
Definition interface (sep component opening : jsstring) (lines : list line)
  : jsstring :=
  js "interface" ++ sep ++ component ++ js "Props" ++ opening ++ js "{"
  ++ lines_text lines ++ js "}".

End InterfaceBlock.

(** ** Sample component sources *)

Module Sources.
Import JS InterfaceBlock.

(** A component file with a flat props interface. *)
Definition button_prelude : jsstring :=
  js "import React from 'react';

export ".

Definition button_fields : list field :=
  [ Field (js "  ") (js "label") false (js " ") (js "string") (js ";");
    Field (js "  ") (js "onClick") true (js " ") (js "() => void") (js ";");
    Field (js "  ") (js "size") true (js " ") (js "'sm' | 'lg'") (js "; // optional") ].

Definition button_rest : jsstring :=
  js "

export const Button = (props: ButtonProps) => null;
".

(** A props interface with a nested object-literal field, and the same
    text cut into the block that ends at the first closing brace and the
    rest. *)
Definition nested_card : jsstring :=
  js "interface CardProps {
  title: string;
  style?: {
    color: string;
  };
  footer?: string;
}
".

Definition card_fields : list field :=
  [ Field (js "  ") (js "title") false (js " ") (js "string") (js ";");
    Field (js "  ") (js "style") true (js " ") (js "{") [];
    Field (js "    ") (js "color") false (js " ") (js "string") (js ";") ].

Definition card_rest : jsstring :=
  js ";
  footer?: string;
}
".

(** A component file whose props interface comes after a comment that
    speaks of it and after another interface, with comments and a blank
    line between its fields. *)
Definition panel_prelude : jsstring :=
  js "// The props interface of the panel
interface PanelState { open: boolean }

export ".

Definition panel_lines : list line :=
  [ Other (js " // what the panel shows");
    Declares (Field (js "  ") (js "title") false (js " ") (js "string") (js ";"));
    Other [];
    Other (js "  /** shown below the title */");
    Declares (Field (js "  ") (js "footer") true (js " ") (js "string") []);
    Other [] ].

Definition panel_rest : jsstring :=
  js "

export const Panel = (props: PanelProps) => null;
".

End Sources.
(** ** admin-header.js: the breadcrumb trail *)

Module Breadcrumb.
Import JS Regex.

(** [/[-_]/g] *)
Definition dashes : re :=
  Char (fun c => unit_eqb c (ch "-") || unit_eqb c (ch "_")).

(** [s.replace(pattern, rep)] for a string pattern: the first occurrence. *)
Definition replace_string (s pattern rep : jsstring) : jsstring :=
  match indexOf s pattern with
  | None => s
  | Some i =>
      let before := take i s in
      let after := drop (i + length pattern) s in
      before ++ get_substitution 0 pattern before after no_caps rep ++ after
  end.

Section Labels.

(** [String.prototype.toUpperCase] with the full Unicode mapping. *)
Variable toUpperCase : jsstring -> jsstring.

(** [s.charAt(0).toUpperCase() + s.slice(1)] *)
Definition capitalize (s : jsstring) : jsstring :=
  toUpperCase (take 1 s) ++ drop 1 s.

(** The label of a path part, as the loop of [createBreadcrumb] formats
    it. *)
Definition label_of (part : jsstring) : jsstring :=
  let label := replace_all dashes part (js " ") in
  let label := capitalize label in
  let label := if str_eqb label (js "Admin") then js "Admin Portal" else label in
  let label := if str_eqb label (js "Development") then js "Development" else label in
  let label := if str_eqb label (js "Contracts") then js "Contracts" else label in
  if includes label (js ".html") then
    let label := replace_string label (js ".html") [] in
    let label := capitalize label in
    let label :=
      if str_eqb label (js "Sirsi contract") then js "Sirsi Contract" else label in
    if str_eqb label (js "Payment structure") then js "Payment Structure" else label
  else label.

(** The items the loop pushes for the parts from index [i] on;
    [currentPath] is the path of the parts before. *)
Fixpoint trail (currentPath : jsstring) (parts : list jsstring) : list jsstring :=
  match parts with
  | [] => []
  | part :: rest =>
      let currentPath := currentPath ++ js "/" ++ part in
      let label := label_of part in
      (match rest with
       | _ :: _ =>
           [jsq "<span class=~breadcrumb-separator~>/</span>";
            jsq "<a href=~" ++ currentPath ++ jsq "/~>" ++ label ++ js "</a>"]
       | [] =>
           [jsq "<span class=~breadcrumb-separator~>/</span>";
            jsq "<span class=~breadcrumb-current~>" ++ label ++ js "</span>"]
       end) ++ trail currentPath rest
  end.

(** The back button of a nested page. *)
Definition backButton (pathParts : list jsstring) : jsstring :=
  let parentPath := js "/" ++ Value.join (js "/") (removelast pathParts) ++ js "/" in
  jsq "<a href=~" ++ parentPath ++ jsq "~ class=~breadcrumb-back~>"
  ++ jsq "<svg width=~14~ height=~14~ viewBox=~0 0 24 24~ fill=~none~ stroke=~currentColor~ stroke-width=~2~><polyline points=~15 18 9 12 15 6~></polyline></svg>"
  ++ js "Back</a>".

(** The array [breadcrumbItems] when the loop is over. *)
Definition breadcrumbItems (pathParts : list jsstring) : list jsstring :=
  (if 2 <? length pathParts then [backButton pathParts] else [])
  ++ [jsq "<a href=~/~>Home</a>"]
  ++ trail [] pathParts.

(** [createBreadcrumb(pathParts)]; [None] is [null]. *)
Definition createBreadcrumb (pathParts : list jsstring) : option jsstring :=
  if length pathParts <=? 1 then None
  else Some (Value.join [] (breadcrumbItems pathParts)).

End Labels.

(** [path.split('/').filter(function(p) { return p; })] *)
Definition pathParts (path : jsstring) : list jsstring :=
  filter (fun p => truthy p = true) (split (ch "/") path).

End Breadcrumb.

(** ** scripts/generate-docs.js: scanning for component files *)

Module DocScan.
Import JS.

(** A directory tree, as [fs.readdirSync] and [fs.statSync] show it: the
    entries of a directory by name, in the order they are read. *)
Inductive node : Type :=
| File
| Dir (entries : list (jsstring * node)).

(** [s.endsWith(t)] *)
Definition endsWith (s t : jsstring) : bool :=
  (length t <=? length s) && str_eqb (drop (length s - length t) s) t.

(** The files [scanComponents] keeps, by their name. *)
Definition is_component (file : jsstring) : bool :=
  (endsWith file (js ".tsx") || endsWith file (js ".jsx"))
  && (negb (includes file (js ".test.")) && negb (includes file (js ".stories."))).

Section Scan.

(** [path.join] *)
Variable path_join : jsstring -> jsstring -> jsstring.

(** The callback of [files.forEach] in [scanComponents(dir, components)],
    for the entry [file] of [dir]; [components] is the shared array. *)
Fixpoint visit (dir file : jsstring) (n : node) (components : list jsstring)
  : list jsstring :=
  let filePath := path_join dir file in
  match n with
  | Dir entries =>
      (fix forEach (es : list (jsstring * node)) (components : list jsstring)
         : list jsstring :=
         match es with
         | [] => components
         | (f, n') :: es' => forEach es' (visit filePath f n' components)
         end) entries components
  | File =>
      if is_component file then components ++ [filePath] else components
  end.

(** [scanComponents(dir, components)], [entries] being what [dir] holds. *)
Fixpoint scanComponents (dir : jsstring) (entries : list (jsstring * node))
    (components : list jsstring) : list jsstring :=
  match entries with
  | [] => components
  | (f, n) :: rest => scanComponents dir rest (visit dir f n components)
  end.

End Scan.

End DocScan.

(** ** scripts/generate-docs.js: the page of a component *)

Module DocPage.
Import JS DocGen.

Section Page.

(** [String.prototype.toLowerCase] with the full Unicode mapping. *)
Variable toLowerCase : jsstring -> jsstring.

(** The table row of a prop. *)
Definition row (p : prop) : jsstring :=
  js "| " ++ prop_name p ++ js " | `" ++ prop_type p ++ js "` | "
  ++ (if prop_required p then js "Yes" else js "No") ++ js " | - |" ++ [10%N].

(** [generateComponentDoc(componentInfo)] *)
Definition generateComponentDoc (componentInfo : componentInfo) : jsstring :=
  let name := DocGen.name componentInfo in
  let doc := js "# " ++ name ++ [10%N; 10%N] in
  let doc :=
    if truthy (description componentInfo)
    then doc ++ description componentInfo ++ [10%N; 10%N]
    else doc in
  let doc := doc ++ js "## Usage" ++ [10%N; 10%N] in
  let doc := doc ++ js "```jsx" ++ [10%N] in
  let doc := doc ++ js "import { " ++ name
                 ++ js " } from '@sirsimaster/component-library';" ++ [10%N; 10%N] in
  let doc := doc ++ js "function Example() {" ++ [10%N] in
  let doc := doc ++ js "  return <" ++ name ++ js " />;" ++ [10%N] in
  let doc := doc ++ js "}" ++ [10%N] in
  let doc := doc ++ js "```" ++ [10%N; 10%N] in
  let doc :=
    if 0 <? length (props componentInfo) then
      let doc := doc ++ js "## Props" ++ [10%N; 10%N] in
      let doc := doc ++ js "| Prop | Type | Required | Description |" ++ [10%N] in
      let doc := doc ++ js "|------|------|----------|-------------|" ++ [10%N] in
      let doc := fold_left (fun doc p => doc ++ row p) (props componentInfo) doc in
      doc ++ [10%N]
    else doc in
  let doc := doc ++ js "## Examples" ++ [10%N; 10%N] in
  let doc := doc ++ js "### Basic Usage" ++ [10%N; 10%N] in
  let doc := doc ++ js "```jsx" ++ [10%N] in
  let doc := doc ++ js "<" ++ name ++ js " />" ++ [10%N] in
  let doc := doc ++ js "```" ++ [10%N; 10%N] in
  let doc := doc ++ js "## Storybook" ++ [10%N; 10%N] in
  let doc := doc ++ js "View this component in [Storybook](https://sirsimaster.github.io/sirsimaster-component-library/?path=/story/"
                 ++ toLowerCase name ++ js ")" ++ [10%N; 10%N] in
  let doc := doc ++ js "## Source Code" ++ [10%N; 10%N] in
  let doc := doc ++ js "- [Component](../src/components/" ++ name ++ js "/" ++ name
                 ++ js ".tsx)" ++ [10%N] in
  let doc := doc ++ js "- [Styles](../src/components/" ++ name ++ js "/" ++ name
                 ++ js ".css)" ++ [10%N] in
  let doc := doc ++ js "- [Tests](../src/components/" ++ name ++ js "/" ++ name
                 ++ js ".test.tsx)" ++ [10%N] in
  doc ++ js "- [Stories](../stories/" ++ name ++ js ".stories.tsx)" ++ [10%N].

End Page.

End DocPage.


(** ** Predicates and reference functions of the statements *)

Module Runs.
Import JS Value Wizard.

(** A step that only talks to the prompt leaves the file system alone. *)
Definition prompt_only {A : Type} (w : W A) : Prop :=
  forall st a st', w st = Done a st' -> files st' = files st /\ dirs st' = dirs st.

(** [w] does not throw, and what it returns satisfies [P]. *)
Definition yields {A : Type} (w : W A) (P : A -> Prop) : Prop :=
  forall st,
    match w st with
    | Done a _ => P a
    | Threw _ => False
    | Waiting => True
    end.

(** [w] reads at most [n] answers: it is left waiting only when fewer
    than [n] are typed, and leaves all but [n] of them when it returns. *)
Definition consumes {A : Type} (n : nat) (w : W A) : Prop :=
  forall st,
    match w st with
    | Done _ st' => length (answers st) <= length (answers st') + n
    | Threw _ => True
    | Waiting => length (answers st) < n
    end.

(** The example files are written next to, never over, the configuration
    and the workflow. *)
Definition is_env_example (path : jsstring) : Prop :=
  exists e : jsstring, path = js ".cicd/" ++ e ++ js ".env.example".

(** The names [getRequiredSecrets] can add for a provider. *)
Definition provider_secret_names : list jsstring :=
  [js "FIREBASE_TOKEN"; js "AWS_ACCESS_KEY_ID"; js "AWS_SECRET_ACCESS_KEY";
   js "AZURE_CREDENTIALS"; js "VERCEL_TOKEN"; js "NETLIFY_AUTH_TOKEN";
   js "NETLIFY_SITE_ID"].

(** Some environment of [config] is deployed with the provider [t]. *)
Definition has_provider (config : value) (t : jsstring) : Prop :=
  exists providers environments env,
    get config (js "providers") = Some providers
    /\ Object_values providers = Some environments
    /\ env ∈ environments
    /\ get env (js "type") = Some (VStr t).

Definition is_string (v : value) : Prop := exists s, v = VStr s.

Definition is_object (v : value) : Prop := exists fs, v = VObj fs.

(** [fs] has no property named [k]. *)
Definition lacks (k : jsstring) (fs : list (jsstring * value)) : Prop :=
  Forall (fun kv => str_eqb kv.1 k = false) fs.

(** An environment object: an object with a string [name]. *)
Definition named (v : value) : Prop :=
  exists fs n, v = VObj fs /\ obj_get fs (js "name") = VStr n.

End Runs.

Module Texts.
Import JS.

(** [w] is made of code units foreign to [t]. *)
Definition foreign (t w : jsstring) : Prop := Forall (fun c => c ∉ t) w.


End Texts.

Module Matching.
Import JS Regex.

(** [step] only looks at what its continuation does on the rest of the
    input. *)
Definition local_step (step : jsstring -> caps -> cont -> option state)
    (n : nat) : Prop :=
  forall s c k1 k2,
    length s <= n ->
    (forall s' c', length s' <= length s -> k1 s' c' = k2 s' c') ->
    step s c k1 = step s c k2.

(** What [[...]*] does for a class [p]: take code units of the class as
    long as there are some, then try the continuation, giving units back
    one by one. *)
Fixpoint star_class (p : N -> bool) (k : cont) (s : jsstring) (c : caps)
  : option state :=
  match s with
  | x :: s' =>
      if p x then
        match star_class p k s' c with
        | Some res => Some res
        | None => k s c
        end
      else k s c
  | [] => k [] c
  end.

(** The class stops at [rest]: it is empty or starts outside the class. *)
Definition stops (p : N -> bool) (rest : jsstring) : bool :=
  match rest with
  | [] => true
  | x :: _ => negb (p x)
  end.

(** [k] fails after every tail of [w], [w] itself included. *)
Fixpoint fails_on_tails (k : cont) (w rest : jsstring) (c : caps) : Prop :=
  match w with
  | [] => k rest c = None
  | _ :: w' => k (w ++ rest) c = None /\ fails_on_tails k w' rest c
  end.

(** Whether [r] matches [s] at the position [i]. *)
Definition matches_at (r : re) (s : jsstring) (i : nat) : bool :=
  match m (length s) r (drop i s) no_caps (fun s' c' => Some (s', c')) with
  | Some _ => true
  | None => false
  end.

(** No match of [r] in [s] starts before the position [n]: a match of
    [r] that starts at [n] is the one [str.match(r)] returns. *)
Definition no_match_before (r : re) (s : jsstring) (n : nat) : bool :=
  forallb (fun i => negb (matches_at r s i)) (seq 0 n).

End Matching.
(** ** What the wizard writes *)

Module Environments.
Import JS Value Wizard Runs.

(** An environment object whose [name] is one of [names]. *)
Definition named_in (names : list jsstring) (v : value) : Prop :=
  exists fs n, v = VObj fs /\ obj_get fs (js "name") = VStr n /\ n ∈ names.

(** The path of the example file of an environment. *)
Definition example_path (name : jsstring) : jsstring :=
  js ".cicd/" ++ name ++ js ".env.example".

(** Every property of [fs] holds a string. *)
Definition string_values (fs : list (jsstring * value)) : Prop :=
  Forall (fun kv => is_string kv.2) fs.

(** The names [main] gives its environments. *)
Definition environment_names : list jsstring :=
  [js "production"; js "staging"; js "development"].

(** The files [main] writes, and the directories they are written in
    with the directories on the way. *)
Definition written_paths : list jsstring :=
  [js ".cicd/config.json"; js ".github/workflows/deploy.yml";
   js ".cicd/production.env.example"; js ".cicd/staging.env.example";
   js ".cicd/development.env.example"].

Definition needed_dirs : list jsstring :=
  [js ".cicd"; js ".github"; js ".github/workflows"].

(** The working directory lets the wizard write: none of the directories
    it needs is a regular file, and none of the files it writes is a
    directory. *)
Definition usable (ds : gset jsstring) (fs : gmap jsstring content) : Prop :=
  (forall dir, dir ∈ needed_dirs -> fs !! dir = None)
  /\ (forall path, path ∈ written_paths -> path ∉ ds).

(** The same once the directories [made] are there. *)
Definition usable_with (made : list jsstring)
    (ds : gset jsstring) (fs : gmap jsstring content) : Prop :=
  usable ds fs /\ (forall dir, dir ∈ made -> dir ∈ ds).

(** From a state whose directories and files satisfy [pre], the step [w]
    does not throw; when it returns, its value and the directories and
    files it leaves satisfy [post]. *)
Definition safe {A : Type} (pre : gset jsstring -> gmap jsstring content -> Prop)
    (w : W A) (post : A -> gset jsstring -> gmap jsstring content -> Prop) : Prop :=
  forall st,
    pre (dirs st) (files st) ->
    match w st with
    | Done a st' => post a (dirs st') (files st')
    | Threw _ => False
    | Waiting => True
    end.

End Environments.

(** ** The files of a directory tree *)

Module Trees.
Import JS DocScan.

Section Listing.

Variable path_join : jsstring -> jsstring -> jsstring.

(** Every regular file below the entry [file] of [dir], with its path
    and its name, in the order of a depth-first walk. *)
Fixpoint files_below (dir file : jsstring) (n : node) : list (jsstring * jsstring) :=
  match n with
  | File => [(path_join dir file, file)]
  | Dir entries =>
      (fix each (es : list (jsstring * node)) : list (jsstring * jsstring) :=
         match es with
         | [] => []
         | (f, n') :: es' => files_below (path_join dir file) f n' ++ each es'
         end) entries
  end.

Fixpoint files_in (dir : jsstring) (entries : list (jsstring * node))
  : list (jsstring * jsstring) :=
  match entries with
  | [] => []
  | (f, n) :: rest => files_below dir f n ++ files_in dir rest
  end.

End Listing.

(** The paths of the files of a listing that [scanComponents] keeps. *)
Definition kept (listing : list (jsstring * jsstring)) : list jsstring :=
  map fst (filter (fun pf : jsstring * jsstring => is_component pf.2 = true) listing).

End Trees.


(** * Properties *)

Import JS Regex Value Dom Runs Texts Matching.

(** ** Strings *)

Lemma unit_eqb_eq (x y : N) : unit_eqb x y = true <-> x = y.
Proof. apply N.eqb_eq. Qed.

Lemma str_eqb_eq (a b : jsstring) : str_eqb a b = true <-> a = b.
Proof.
  revert b. induction a as [|x a IH]; intros [|y b]; simpl; try easy.
  rewrite andb_true_iff, unit_eqb_eq, IH. split.
  - intros [-> ->]. reflexivity.
  - intros [= -> ->]. auto.
Qed.

Lemma str_eqb_refl (a : jsstring) : str_eqb a a = true.
Proof. apply str_eqb_eq. reflexivity. Qed.

(** ** The setup wizard: [selectOption] *)

Section SelectOption.
Import Wizard.

Lemma select_cases (options : list jsstring) (answer : jsstring) :
  (exists k : Z, parseInt answer = Some k
                 /\ (1 <= k <= Z.of_nat (length options))%Z
                 /\ select options answer = options !! Z.to_nat (k - 1))
  \/ ((forall k : Z, parseInt answer = Some k ->
                     ~ (1 <= k <= Z.of_nat (length options))%Z)
      /\ select options answer = options !! 0).
Proof.
  unfold select. destruct (parseInt answer) as [n|] eqn:Hp.
  - destruct ((0 <=? n - 1)%Z && (n - 1 <? Z.of_nat (length options))%Z) eqn:Hr.
    + left. exists n. apply andb_true_iff in Hr as [H1 H2].
      apply Z.leb_le in H1. apply Z.ltb_lt in H2.
      repeat split; try lia.
    + right. split; [|reflexivity].
      intros k [= <-] [H1 H2].
      apply andb_false_iff in Hr as [Hr|Hr].
      * apply Z.leb_gt in Hr. lia.
      * apply Z.ltb_ge in Hr. lia.
  - right. split; [|reflexivity]. intros k [=].
Qed.

Lemma select_defined (options : list jsstring) (answer : jsstring) :
  options <> [] -> exists opt, select options answer = Some opt.
Proof.
  intros Hne.
  destruct (select_cases options answer) as [(k & _ & Hk & ->)|[_ ->]].
  - apply lookup_lt_is_Some_2. lia.
  - destruct options; [congruence|]. eexists. reflexivity.
Qed.

(** C9. Given a non-empty list of options, [selectOption] returns one of
    them whatever is typed: the k-th option when the answer parses to an
    integer k between 1 and the number of options, the first option for
    every other answer; the result is never [undefined]. *)
Theorem C9_selectOption_returns_an_option
    (options : list jsstring) (answer : jsstring) :
  options <> [] ->
  exists opt : jsstring,
    select options answer = Some opt
    /\ opt ∈ options
    /\ (forall k : Z, parseInt answer = Some k ->
          (1 <= k <= Z.of_nat (length options))%Z ->
          options !! Z.to_nat (k - 1) = Some opt)
    /\ ((forall k : Z, parseInt answer = Some k ->
           ~ (1 <= k <= Z.of_nat (length options))%Z) ->
        options !! 0 = Some opt)
    /\ (forall rest ds fs,
          selectOption options (WState (answer :: rest) ds fs)
          = Done (VStr opt) (WState rest ds fs)).
Proof.
  intros Hne.
  destruct (select_defined options answer Hne) as [opt Hopt]. exists opt. split; [exact Hopt|].
  destruct (select_cases options answer) as [(k & Hp & Hk & Hs)|[Hout Hs]];
    rewrite Hs in Hopt.
  - repeat split.
    + eapply list_elem_of_lookup_2. exact Hopt.
    + intros k' Hp' _. rewrite Hp in Hp'. injection Hp' as <-. exact Hopt.
    + intros Hno. exfalso. exact (Hno k Hp Hk).
    + intros rest ds fs. unfold selectOption, question. simpl.
      unfold mbind, W_bind, mret, W_ret. simpl. rewrite Hs, Hopt. reflexivity.
  - repeat split.
    + eapply list_elem_of_lookup_2. exact Hopt.
    + intros k' Hp' Hk'. exfalso. exact (Hout k' Hp' Hk').
    + intros _. exact Hopt.
    + intros rest ds fs. unfold selectOption, question. simpl.
      unfold mbind, W_bind, mret, W_ret. simpl. rewrite Hs, Hopt. reflexivity.
Qed.

Lemma C9_selectOption_witness :
  exists opt : jsstring,
    select [js "slack - Slack"; js "discord - Discord"] (js " 2nd") = Some opt
    /\ opt = js "discord - Discord".
Proof.
  destruct (C9_selectOption_returns_an_option
              [js "slack - Slack"; js "discord - Discord"] (js " 2nd"))
    as (opt & Hsel & _ & Hk & _).
  - discriminate.
  - exists opt. split; [exact Hsel|].
    specialize (Hk 2%Z eq_refl). simpl in Hk.
    assert (H : (1 <= 2 <= 2)%Z) by lia.
    specialize (Hk H). injection Hk as <-. reflexivity.
Defined.

End SelectOption.

(** ** The setup wizard: [getRequiredSecrets] *)

Section Secrets.
Import Wizard.

Lemma set_add_NoDup (x : jsstring) (s : list jsstring) :
  NoDup s -> NoDup (set_add x s).
Proof.
  intros Hs. unfold set_add. destruct (decide (x ∈ s)) as [Hin|Hout].
  - exact Hs.
  - apply NoDup_app. repeat split.
    + exact Hs.
    + intros y Hy Hy'. apply list_elem_of_singleton in Hy'. subst. auto.
    + apply NoDup_singleton.
Qed.

Lemma set_add_elem (x y : jsstring) (s : list jsstring) :
  y ∈ set_add x s <-> y = x \/ y ∈ s.
Proof.
  unfold set_add. destruct (decide (x ∈ s)) as [Hin|Hout].
  - split; [auto|]. intros [->|H]; assumption.
  - rewrite elem_of_app, list_elem_of_singleton. tauto.
Qed.

Create HintDb secrets.
#[local] Hint Resolve set_add_NoDup : secrets.

Lemma provider_secrets_NoDup (s s' : list jsstring) (p : value) :
  NoDup s -> provider_secrets s p = Some s' -> NoDup s'.
Proof.
  intros Hs. unfold provider_secrets.
  destruct (get p (js "type")) as [t|]; simpl; [|discriminate].
  intros [= <-].
  repeat (match goal with |- context [if ?b then _ else _] => destruct b end);
    auto with secrets.
Qed.

Lemma forEach_secrets_NoDup (ps : list value) (s s' : list jsstring) :
  NoDup s -> forEach_secrets s ps = Some s' -> NoDup s'.
Proof.
  revert s. induction ps as [|p ps IH]; simpl; intros s Hs.
  - intros [= <-]. exact Hs.
  - destruct (provider_secrets s p) as [s1|] eqn:Hp; simpl; [|discriminate].
    apply IH. eapply provider_secrets_NoDup; eauto.
Qed.

Lemma provider_secrets_mono (s s' : list jsstring) (p : value) (x : jsstring) :
  provider_secrets s p = Some s' -> x ∈ s -> x ∈ s'.
Proof.
  unfold provider_secrets.
  destruct (get p (js "type")) as [t|]; simpl; [|discriminate].
  intros [= <-] Hx.
  repeat (match goal with |- context [if ?b then _ else _] => destruct b end);
    rewrite ?set_add_elem; auto.
Qed.

Lemma forEach_secrets_mono (ps : list value) (s s' : list jsstring) (x : jsstring) :
  forEach_secrets s ps = Some s' -> x ∈ s -> x ∈ s'.
Proof.
  revert s. induction ps as [|p ps IH]; simpl; intros s.
  - intros [= <-]. auto.
  - destruct (provider_secrets s p) as [s1|] eqn:Hp; simpl; [|discriminate].
    intros H Hx. apply (IH _ H). apply (provider_secrets_mono _ _ _ _ Hp Hx).
Qed.

(** Every provider of the list is visited, and what its visit adds stays. *)
Lemma forEach_secrets_visits (ps : list value) (s s' : list jsstring) (p : value) :
  forEach_secrets s ps = Some s' -> p ∈ ps ->
  exists s0 s1, provider_secrets s0 p = Some s1 /\ forall x, x ∈ s1 -> x ∈ s'.
Proof.
  revert s. induction ps as [|q ps IH]; simpl; intros s H Hin.
  - inversion Hin.
  - destruct (provider_secrets s q) as [s1|] eqn:Hq; simpl in H; [|discriminate].
    apply elem_of_cons in Hin as [->|Hin].
    + exists s, s1. split; [exact Hq|]. intros x. apply (forEach_secrets_mono _ _ _ _ H).
    + apply (IH _ H Hin).
Qed.

Lemma required_of_provider (config : value) (secrets : list jsstring)
    (t x : jsstring) :
  getRequiredSecrets config = Some secrets ->
  has_provider config t ->
  (forall env s0 s1, get env (js "type") = Some (VStr t) ->
                     provider_secrets s0 env = Some s1 -> x ∈ s1) ->
  x ∈ secrets.
Proof.
  intros H (providers & environments & env & Hp & Hv & Hin & Ht) Hadd.
  unfold getRequiredSecrets in H. rewrite Hp in H. simpl in H.
  rewrite Hv in H. simpl in H.
  destruct (forEach_secrets [] environments) as [found|] eqn:Hf; simpl in H;
    [|discriminate].
  destruct (get config (js "notifications")) as [n|]; simpl in H; [|discriminate].
  destruct (get n (js "type")) as [ty|]; simpl in H; [|discriminate].
  injection H as <-.
  destruct (forEach_secrets_visits _ _ _ _ Hf Hin) as (s0 & s1 & Hs & Hsub).
  assert (Hx : x ∈ found) by (apply Hsub, (Hadd env s0 s1 Ht Hs)).
  repeat (match goal with |- context [if ?b then _ else _] => destruct b end);
    rewrite ?set_add_elem; auto.
Qed.

(** What one visit adds, provider by provider. *)
Ltac visit :=
  let Ht := fresh "Ht" in
  intros ? ? ? Ht; unfold provider_secrets; rewrite Ht; cbn [mbind option_bind];
  repeat match goal with
         | |- context [is_str (VStr ?a) ?b] =>
             let v := eval vm_compute in (is_str (VStr a) b) in
             change (is_str (VStr a) b) with v
         end;
  cbn match; intros [= <-]; rewrite ?set_add_elem; auto.

(** C10. The list [getRequiredSecrets] returns has no duplicates, and it
    has the secrets of every provider some environment is deployed with:
    when several environments use the same provider, each of that
    provider's secrets is listed exactly once. *)
Theorem C10_required_secrets_have_no_duplicates
    (config : value) (secrets : list jsstring) :
  getRequiredSecrets config = Some secrets ->
  NoDup secrets
  /\ (has_provider config (js "firebase") -> js "FIREBASE_TOKEN" ∈ secrets)
  /\ (has_provider config (js "aws") ->
      js "AWS_ACCESS_KEY_ID" ∈ secrets /\ js "AWS_SECRET_ACCESS_KEY" ∈ secrets)
  /\ (has_provider config (js "azure") -> js "AZURE_CREDENTIALS" ∈ secrets)
  /\ (has_provider config (js "vercel") -> js "VERCEL_TOKEN" ∈ secrets)
  /\ (has_provider config (js "netlify") ->
      js "NETLIFY_AUTH_TOKEN" ∈ secrets /\ js "NETLIFY_SITE_ID" ∈ secrets).
Proof.
  intros H. split.
  { revert H. unfold getRequiredSecrets.
    destruct (get config (js "providers")) as [providers|]; simpl; [|discriminate].
    destruct (Object_values providers) as [values|]; simpl; [|discriminate].
    destruct (forEach_secrets [] values) as [s|] eqn:Hs; simpl; [|discriminate].
    destruct (get config (js "notifications")) as [n|]; simpl; [|discriminate].
    destruct (get n (js "type")) as [t|]; simpl; [|discriminate].
    intros [= <-].
    assert (NoDup s) by (eapply forEach_secrets_NoDup; [apply NoDup_nil_2|exact Hs]).
    repeat (match goal with |- context [if ?b then _ else _] => destruct b end);
      auto with secrets. }
  split; [|split; [|split; [|split]]]; intros Hp; try split;
    apply (required_of_provider _ _ _ _ H Hp); visit.
Qed.

Lemma C10_required_secrets_witness :
  getRequiredSecrets Examples.three_aws_environments
  = Some [js "AWS_ACCESS_KEY_ID"; js "AWS_SECRET_ACCESS_KEY"; js "SLACK_WEBHOOK"]
  /\ NoDup [js "AWS_ACCESS_KEY_ID"; js "AWS_SECRET_ACCESS_KEY"; js "SLACK_WEBHOOK"].
Proof.
  assert (H : getRequiredSecrets Examples.three_aws_environments
              = Some [js "AWS_ACCESS_KEY_ID"; js "AWS_SECRET_ACCESS_KEY"; js "SLACK_WEBHOOK"])
    by (vm_compute; reflexivity).
  split; [exact H|].
  exact (proj1 (C10_required_secrets_have_no_duplicates _ _ H)).
Defined.

(** [getRequiredSecrets] returns for every configuration whose
    [providers] maps names to objects and whose [notifications] is an
    object, the shape [main] builds. *)
Lemma getRequiredSecrets_returns
    (fields : list (jsstring * value))
    (envs : list (jsstring * list (jsstring * value)))
    (notifications : list (jsstring * value)) :
  obj_get fields (js "providers") = VObj (map (fun e => (e.1, VObj e.2)) envs) ->
  obj_get fields (js "notifications") = VObj notifications ->
  is_Some (getRequiredSecrets (VObj fields)).
Proof.
  intros Hp Hn.
  assert (Hf : forall s, is_Some (forEach_secrets s
                 (map snd (map (fun e : jsstring * list (jsstring * value) =>
                                  (e.1, VObj e.2)) envs)))).
  { clear Hp Hn. induction envs as [|[k fs] envs IH]; intros s; simpl; [eauto|].
    unfold provider_secrets. simpl.
    match goal with |- is_Some (forEach_secrets ?s' _) => apply (IH s') end. }
  unfold getRequiredSecrets. simpl. rewrite Hp, Hn. simpl.
  destruct (Hf []) as [s Hs]. rewrite Hs. simpl. eauto.
Qed.

End Secrets.

(** ** The matcher on literals *)

Lemma m_lit (total : nat) (t s : jsstring) (c : caps) (k : cont) :
  m total (lit t) s c k
  = if startsWith s t then k (drop (length t) s) c else None.
Proof.
  revert s. induction t as [|x t IH]; intros s; simpl.
  - reflexivity.
  - destruct s as [|y s]; simpl; [reflexivity|].
    destruct (unit_eqb x y); simpl; [apply IH|reflexivity].
Qed.

Lemma includes_false_cons (x : N) (s t : jsstring) :
  includes (x :: s) t = false -> startsWith (x :: s) t = false /\ includes s t = false.
Proof. cbn [includes]. intros H. apply orb_false_iff in H. exact H. Qed.

Lemma includes_false_startsWith (s t : jsstring) :
  includes s t = false -> startsWith s t = false.
Proof.
  destruct s; cbn [includes]; intros H; apply orb_false_iff in H; tauto.
Qed.

(** A regex that starts with a literal finds nothing in a text that does
    not contain the literal. *)
Lemma exec_from_literal_absent (total : nat) (t : jsstring) (r : re)
    (s : jsstring) (idx : nat) :
  includes s t = false -> exec_from total (Seq (lit t) r) s idx = None.
Proof.
  revert idx. induction s as [|x s IH]; intros idx H.
  - cbn [exec_from m]. rewrite m_lit.
    rewrite (includes_false_startsWith _ _ H). reflexivity.
  - apply includes_false_cons in H as [H1 H2].
    cbn [exec_from m]. rewrite m_lit, H1. apply IH, H2.
Qed.

(** ** The documentation generator: regexes that find nothing *)

Section DocGenBlank.
Import DocGen.

Lemma no_interface_no_match (code : jsstring) :
  includes code (js "interface") = false -> str_match propsRe code = None.
Proof. intros H. unfold str_match, propsRe. apply exec_from_literal_absent, H. Qed.

Lemma no_jsdoc_no_match (code : jsstring) :
  includes code (js "/**") = false -> str_match docRe code = None.
Proof. intros H. unfold str_match, docRe. apply exec_from_literal_absent, H. Qed.

(** C7. [parseComponent] returns a complete record for every source
    text.  When the props regex finds no [<Name>Props] interface block the
    props list is empty; when the JSDoc regex finds no comment, or the
    comment has no description line, the description is the empty string.
    In particular this is so for a text without the word [interface],
    respectively without the opening of a JSDoc comment. *)
Theorem C7_parseComponent_blank_fields (name code : jsstring) :
  (str_match propsRe code = None -> props (parseComponent name code) = [])
  /\ (str_match docRe code = None -> description (parseComponent name code) = [])
  /\ (forall doc, str_match docRe code = Some doc ->
        str_match descRe (m_text doc) = None ->
        description (parseComponent name code) = [])
  /\ (includes code (js "interface") = false -> props (parseComponent name code) = [])
  /\ (includes code (js "/**") = false -> description (parseComponent name code) = [])
  /\ DocGen.name (parseComponent name code) = name
  /\ methods (parseComponent name code) = []
  /\ examples (parseComponent name code) = [].
Proof.
  unfold parseComponent. cbn [props description DocGen.name methods examples].
  repeat split.
  - intros ->. reflexivity.
  - intros ->. reflexivity.
  - intros doc -> ->. reflexivity.
  - intros H. rewrite (no_interface_no_match _ H). reflexivity.
  - intros H. rewrite (no_jsdoc_no_match _ H). reflexivity.
Qed.

Lemma C7_parseComponent_witness :
  props (parseComponent (js "Icon") Examples.plain_module) = []
  /\ description (parseComponent (js "Icon") Examples.plain_module) = [].
Proof.
  destruct (C7_parseComponent_blank_fields (js "Icon") Examples.plain_module)
    as (Hp & Hd & _ & _).
  split.
  - apply Hp. vm_compute. reflexivity.
  - apply Hd. vm_compute. reflexivity.
Defined.

End DocGenBlank.

(** ** The header loaders: failures *)

Section HeaderLoaders.

Variable JSON_parse : jsstring -> option value.
Variable toUpperCase : jsstring -> jsstring.
Variable firstElementChild : jsstring -> bool.
Variable headerActions : jsstring -> bool.

Abbreviation universal :=
  (UniversalHeader.injectHeader JSON_parse toUpperCase firstElementChild headerActions).



Lemma getAttribute_delete_eq (root : element) (k : jsstring) :
  getAttribute (delete k root) k = None.
Proof. unfold getAttribute. apply lookup_delete_eq. Qed.




End HeaderLoaders.



(** ** The setup wizard: steps that only ask, and the files written *)

Import Wizard.

Lemma bind_Done {A B : Type} (w : W A) (f : A -> W B) (st : wstate)
    (b : B) (st' : wstate) :
  (w ≫= f) st = Done b st' ->
  exists a st1, w st = Done a st1 /\ f a st1 = Done b st'.
Proof.
  unfold mbind, W_bind. destruct (w st) as [a st1| |]; try discriminate.
  intros H. exists a, st1. split; [reflexivity|exact H].
Qed.

Lemma prompt_only_ret {A : Type} (a : A) : prompt_only (mret a).
Proof. intros st a' st' [= <- <-]. split; reflexivity. Qed.

Lemma prompt_only_bind {A B : Type} (w : W A) (f : A -> W B) :
  prompt_only w -> (forall a, prompt_only (f a)) -> prompt_only (w ≫= f).
Proof.
  intros Hw Hf st b st' H. apply bind_Done in H as (a & st1 & H1 & H2).
  destruct (Hw _ _ _ H1) as [E1 E2]. destruct (Hf a _ _ _ H2) as [E3 E4].
  split; congruence.
Qed.

Lemma prompt_only_question : prompt_only question.
Proof.
  intros st a st'. unfold question. destruct (answers st); [discriminate|].
  intros [= <- <-]. split; reflexivity.
Qed.

Lemma prompt_only_try {A : Type} (o : option A) : prompt_only (try_ o).
Proof.
  intros st a st'. unfold try_. destruct o; [|discriminate].
  intros [= <- <-]. split; reflexivity.
Qed.

Create HintDb prompt.
#[local] Hint Resolve prompt_only_ret prompt_only_question prompt_only_try : prompt.

Ltac prompt_only :=
  repeat first
    [ solve [auto with prompt]
    | apply prompt_only_bind; [|intros ?]
    | match goal with
      | |- prompt_only (if ?b then _ else _) => destruct b
      | |- prompt_only (let '(_, _) := ?p in _) => destruct p
      end ].

Lemma prompt_only_confirm (d : bool) : prompt_only (confirm d).
Proof. unfold confirm. prompt_only. Qed.

Lemma prompt_only_selectOption (options : list jsstring) :
  prompt_only (selectOption options).
Proof. unfold selectOption. prompt_only. Qed.

Lemma prompt_only_getProviderConfig (provider : value) :
  prompt_only (getProviderConfig provider).
Proof. unfold getProviderConfig. prompt_only. Qed.

#[local] Hint Resolve prompt_only_confirm prompt_only_selectOption
  prompt_only_getProviderConfig : prompt.

(** What the file-system steps leave when they do not throw. *)
Lemma writeFileSync_Done (path : jsstring) (c : content) (st : wstate) (u : unit)
    (st' : wstate) :
  writeFileSync path c st = Done u st' ->
  st' = WState (answers st) (dirs st) (<[path := c]> (files st)).
Proof.
  unfold writeFileSync. destruct (_ && _); [|discriminate].
  intros [= _ <-]. reflexivity.
Qed.

Lemma mkdir_Done (dir : jsstring) (st : wstate) (u : unit) (st' : wstate) :
  mkdir dir st = Done u st' ->
  exists ds, st' = WState (answers st) ds (files st) /\ dirs st ⊆ ds.
Proof.
  unfold mkdir, mkdirSync. destruct (existsSync st dir).
  - intros [= _ <-]. exists (dirs st). destruct st. split; [reflexivity|set_solver].
  - destruct (existsb _ _); [discriminate|]. intros [= _ <-].
    eexists. split; [reflexivity|]. cbn [dirs]. set_solver.
Qed.

Ltac fs_step :=
  match goal with
  | Hw : mkdir _ _ = Done _ _ |- _ =>
      let ds := fresh "ds" in
      apply mkdir_Done in Hw as (ds & -> & _)
  | Hw : writeFileSync _ _ _ = Done _ _ |- _ =>
      apply writeFileSync_Done in Hw as ->
  end.

Lemma write_env_examples_others (envs : list value) (st : wstate) (u : unit)
    (st' : wstate) (path : jsstring) :
  write_env_examples envs st = Done u st' ->
  ~ is_env_example path ->
  files st' !! path = files st !! path.
Proof.
  revert st. induction envs as [|env envs IH]; intros st H Hp.
  - cbn in H. injection H as _ <-. reflexivity.
  - cbn [write_env_examples] in H.
    apply bind_Done in H as (ex & st1 & H1 & H).
    apply bind_Done in H as ([] & st2 & H2 & H).
    unfold try_ in H1. destruct (generateEnvExample env); [|discriminate].
    injection H1 as _ <-.
    apply writeFileSync_Done in H2 as ->.
    rewrite (IH _ H Hp). cbn [files].
    apply lookup_insert_ne. intros E. apply Hp. eexists. symmetry. exact E.
Qed.

Lemma config_json_is_no_example : ~ is_env_example (js ".cicd/config.json").
Proof.
  intros [e He]. apply (f_equal length) in He.
  rewrite !length_app in He.
  change (length (js ".cicd/config.json")) with 17 in He.
  change (length (js ".cicd/")) with 6 in He.
  change (length (js ".env.example")) with 12 in He. lia.
Qed.

Lemma deploy_yml_is_no_example :
  ~ is_env_example (js ".github/workflows/deploy.yml").
Proof. intros [e He]. vm_compute in He. discriminate He. Qed.

Ltac bind_step H :=
  let a := fresh "a" in let st := fresh "st" in let Hs := fresh "Hs" in
  apply bind_Done in H as (a & st & Hs & H).


(** ** The setup wizard: the secrets it lists *)


(** C2 (the code falls short). In a session that picks Firebase for
    production and Slack as notification channel, the wizard records the
    provider picked and lists the Firebase secret, but not
    [SLACK_WEBHOOK]: [main] stores the whole menu entry ['slack - Slack']
    as [notifications.type], which [getRequiredSecrets] compares with
    ['slack']. *)
Theorem C2_slack_session_misses_webhook_secret :
  let outcome := run (js "shop") Examples.slack_session ∅ ∅ in
  exists config,
    written outcome (js ".cicd/config.json") = Some (FJson config)
    /\ get_opt (get_opt (get_opt config (js "providers")) (js "production"))
         (js "provider")
       = VStr (js "firebase - Firebase Hosting")
    /\ get_opt (get_opt config (js "notifications")) (js "type")
       = VStr (js "slack - Slack")
    /\ getRequiredSecrets config = Some [js "FIREBASE_TOKEN"]
    /\ listed_secrets outcome = Some [js "FIREBASE_TOKEN"].
Proof.
  cbv zeta.
  destruct (run (js "shop") Examples.slack_session ∅ ∅) as [secrets st|st|] eqn:H;
    [|exfalso; vm_compute in H; discriminate H ..].
  destruct (files st !! js ".cicd/config.json") as [[config|text]|] eqn:Hc.
  - exists config. split; [exact Hc|].
    assert (Hv : written (run (js "shop") Examples.slack_session ∅ ∅)
                   (js ".cicd/config.json") = Some (FJson config))
      by (rewrite H; exact Hc).
    vm_compute in Hv. injection Hv as <-.
    assert (Hl : listed_secrets (run (js "shop") Examples.slack_session ∅ ∅)
                 = Some secrets) by (rewrite H; reflexivity).
    vm_compute in Hl. injection Hl as <-.
    repeat split; vm_compute; reflexivity.
  - exfalso.
    assert (Hv : written (run (js "shop") Examples.slack_session ∅ ∅)
                   (js ".cicd/config.json") = Some (FText text))
      by (rewrite H; exact Hc).
    vm_compute in Hv. discriminate Hv.
  - exfalso.
    assert (Hv : written (run (js "shop") Examples.slack_session ∅ ∅)
                   (js ".cicd/config.json") = None)
      by (rewrite H; exact Hc).
    vm_compute in Hv. discriminate Hv.
Qed.

(** The same holds in every session: a visit only adds provider secrets. *)
Lemma provider_secrets_elem (s s' : list jsstring) (p : value) (x : jsstring) :
  provider_secrets s p = Some s' -> x ∈ s' -> x ∈ s \/ x ∈ provider_secret_names.
Proof.
  unfold provider_secrets.
  destruct (get p (js "type")) as [t|]; simpl; [|discriminate].
  intros [= <-].
  repeat (match goal with |- context [if ?b then _ else _] => destruct b end);
    rewrite ?set_add_elem; unfold provider_secret_names;
    intros Hx; repeat destruct Hx as [->|Hx]; auto;
    right; repeat first [apply list_elem_of_here | apply list_elem_of_further].
Qed.

Lemma forEach_secrets_elem (ps : list value) (s s' : list jsstring) (x : jsstring) :
  forEach_secrets s ps = Some s' -> x ∈ s' -> x ∈ s \/ x ∈ provider_secret_names.
Proof.
  revert s. induction ps as [|p ps IH]; simpl; intros s.
  - intros [= <-]. auto.
  - destruct (provider_secrets s p) as [s1|] eqn:Hp; simpl; [|discriminate].
    intros H Hx. destruct (IH _ H Hx) as [H1|H1]; [|auto].
    eapply provider_secrets_elem; eauto.
Qed.

Lemma select_elem (options : list jsstring) (answer opt : jsstring) :
  select options answer = Some opt -> opt ∈ options.
Proof.
  destruct (select_cases options answer) as [(k & _ & _ & ->)|[_ ->]];
    apply list_elem_of_lookup_2.
Qed.

(** No entry of the channel menu is the word that [getRequiredSecrets]
    looks for. *)
Lemma channel_is_never_a_keyword (answer : jsstring) :
  let channel :=
    opt_value (select [js "slack - Slack"; js "discord - Discord";
                       js "email - Email"; js "teams - Microsoft Teams"] answer) in
  is_str channel (js "slack") = false /\ is_str channel (js "discord") = false.
Proof.
  cbv zeta.
  destruct (select _ answer) as [opt|] eqn:Hs; [|(split; reflexivity)].
  apply select_elem in Hs.
  (repeat (apply elem_of_cons in Hs as [->|Hs])); [(split; vm_compute; reflexivity) ..|].
  inversion Hs.
Qed.

(** Whatever is typed, a completed run lists neither webhook secret. *)
Lemma wizard_never_lists_a_webhook
    (cwd_name : jsstring) (typed : list jsstring)
    (ds : gset jsstring) (fs : gmap jsstring content)
    (secrets : list jsstring) (st' : wstate) :
  run cwd_name typed ds fs = Done secrets st' ->
  (js "SLACK_WEBHOOK" ∉ secrets) /\ (js "DISCORD_WEBHOOK" ∉ secrets).
Proof.
  intros H. unfold run, main in H.
  do 7 bind_step H.
  bind_step H. destruct a6 as [testCommand coverageThreshold].
  do 19 bind_step H.
  unfold try_ in H.
  match type of H with context [getRequiredSecrets ?c] =>
    destruct (getRequiredSecrets c) as [l|] eqn:Hsec; [|discriminate H] end.
  injection H as <- _.
  unfold getRequiredSecrets in Hsec. cbn [get] in Hsec.
  match type of Hsec with context [obj_get ?fields (js "providers")] =>
    change (obj_get fields (js "providers")) with (VObj (add_environments [] a11)) in Hsec;
    change (obj_get fields (js "notifications")) with (VObj a16) in Hsec
  end.
  cbn [mbind option_bind Object_values get] in Hsec.
  destruct (forEach_secrets [] _) as [found|] eqn:Hfound; [|discriminate Hsec].
  cbn [mbind option_bind] in Hsec.
  assert (Htype : is_str (obj_get a16 (js "type")) (js "slack") = false
                  /\ is_str (obj_get a16 (js "type")) (js "discord") = false).
  { match goal with Hn : context [js "slack - Slack"] |- _ => rename Hn into Hnotif end.
    destruct a15.
    - apply bind_Done in Hnotif as (channel & stn & Hsel & Hnotif).
      injection Hnotif as <- _.
      unfold selectOption in Hsel.
      apply bind_Done in Hsel as (answer & stq & _ & Hsel).
      injection Hsel as <- _.
      change (obj_get _ (js "type")) with
        (opt_value (select [js "slack - Slack"; js "discord - Discord";
                            js "email - Email"; js "teams - Microsoft Teams"] answer)).
      apply channel_is_never_a_keyword.
    - injection Hnotif as <- _. split; reflexivity. }
  destruct Htype as [E1 E2]. rewrite E1, E2 in Hsec. injection Hsec as <-.
  assert (Hnames : forall x, x ∈ found -> x ∈ provider_secret_names).
  { intros x Hx. destruct (forEach_secrets_elem _ _ _ x Hfound Hx) as [H0|H0];
      [inversion H0|exact H0]. }
  split; intros Hin; apply Hnames in Hin; unfold provider_secret_names in Hin;
    repeat (apply elem_of_cons in Hin as [E|Hin];
            [vm_compute in E; discriminate E|]);
    inversion Hin.
Qed.

(** ** The setup wizard ends in its catch block only when it cannot write *)

Import Environments.

Lemma yields_bind {A B : Type} (w : W A) (f : A -> W B)
    (P : A -> Prop) (Q : B -> Prop) :
  yields w P -> (forall a, P a -> yields (f a) Q) -> yields (w ≫= f) Q.
Proof.
  intros Hw Hf st. unfold mbind, W_bind. specialize (Hw st).
  destruct (w st) as [a st1|st1|]; [|contradiction|exact I].
  apply (Hf a Hw st1).
Qed.

Lemma yields_ret {A : Type} (a : A) (P : A -> Prop) : P a -> yields (mret a) P.
Proof. intros H st. exact H. Qed.

Lemma yields_weaken {A : Type} (w : W A) (P Q : A -> Prop) :
  (forall a, P a -> Q a) -> yields w P -> yields w Q.
Proof.
  intros HPQ Hw st. specialize (Hw st). destruct (w st); auto.
Qed.

Lemma yields_question : yields question (fun _ => True).
Proof. intros st. unfold question. destruct (answers st); exact I. Qed.

Lemma yields_try {A : Type} (o : option A) (P : A -> Prop) :
  (exists a, o = Some a /\ P a) -> yields (try_ o) P.
Proof. intros (a & -> & H) st. exact H. Qed.

Lemma yields_confirm (d : bool) : yields (confirm d) (fun _ => True).
Proof.
  unfold confirm. eapply yields_bind; [apply yields_question|].
  intros a _. apply yields_ret. exact I.
Qed.

Lemma yields_selectOption (options : list jsstring) :
  options <> [] -> yields (selectOption options) is_string.
Proof.
  intros Hne. unfold selectOption. eapply yields_bind; [apply yields_question|].
  intros answer _. apply yields_ret.
  destruct (select_defined options answer Hne) as [opt ->].
  exists opt. reflexivity.
Qed.

(** Property lists: reading after writing. *)
Lemma obj_get_obj_set (fs : list (jsstring * value)) (k k' : jsstring) (v : value) :
  obj_get (obj_set fs k v) k' = if str_eqb k k' then v else obj_get fs k'.
Proof.
  induction fs as [|[k0 w] fs IH]; cbn [obj_set obj_get].
  - destruct (str_eqb k k'); reflexivity.
  - destruct (str_eqb k0 k) eqn:E0; cbn [obj_get].
    + apply str_eqb_eq in E0. subst k0. destruct (str_eqb k k'); reflexivity.
    + rewrite IH. destruct (str_eqb k0 k') eqn:E1; [|reflexivity].
      apply str_eqb_eq in E1. subst k0.
      destruct (str_eqb k k') eqn:E2; [|reflexivity].
      apply str_eqb_eq in E2. subst k'. rewrite str_eqb_refl in E0. discriminate E0.
Qed.

Lemma obj_get_spread (base extra : list (jsstring * value)) (k : jsstring) :
  lacks k extra -> obj_get (spread base extra) k = obj_get base k.
Proof.
  unfold spread. intros H. revert base.
  induction H as [|[k0 v] extra Hk _ IH]; intros base; cbn [fold_left]; [reflexivity|].
  rewrite IH, obj_get_obj_set. cbn [fst snd] in *. rewrite Hk. reflexivity.
Qed.

Lemma lacks_obj_set (k k' : jsstring) (v : value) (fs : list (jsstring * value)) :
  str_eqb k' k = false -> lacks k fs -> lacks k (obj_set fs k' v).
Proof.
  intros Hk H. induction H as [|[k0 w] fs H0 Hfs IH]; cbn [obj_set].
  - constructor; [exact Hk|constructor].
  - destruct (str_eqb k0 k'); constructor; assumption.
Qed.

Lemma lacks_spread (k : jsstring) (base extra : list (jsstring * value)) :
  lacks k base -> lacks k extra -> lacks k (spread base extra).
Proof.
  unfold spread. intros Hb He. revert base Hb.
  induction He as [|[k0 v] extra Hk _ IH]; intros base Hb; cbn [fold_left]; [exact Hb|].
  apply IH. apply lacks_obj_set; assumption.
Qed.

Ltac lacks_name :=
  repeat first
    [ apply lacks_obj_set; [vm_compute; reflexivity|]
    | apply Forall_cons; split; [vm_compute; reflexivity|]
    | apply Forall_nil_2 ].

Lemma yields_getProviderConfig (provider : value) :
  is_string provider ->
  yields (getProviderConfig provider) (lacks (js "name")).
Proof.
  intros [p ->]. unfold getProviderConfig.
  apply (yields_bind _ _ (fun _ => True));
    [apply yields_try; eexists; split; [reflexivity|exact I]|].
  intros type _.
  repeat match goal with
         | |- yields (if ?b then _ else _) _ => destruct b
         | |- yields (_ ≫= _) _ =>
             eapply yields_bind; [apply yields_question|intros ? _]
         | |- yields (mret _) _ => apply yields_ret; lacks_name
         end.
Qed.

Lemma named_environment (n : jsstring) (p : value) (cfg : list (jsstring * value)) :
  lacks (js "name") cfg ->
  named (VObj (spread [(js "name", VStr n); (js "provider", p)] cfg)).
Proof.
  intros H. eexists _, n. split; [reflexivity|].
  rewrite (obj_get_spread _ _ _ H). reflexivity.
Qed.

Lemma named_in_weaken (names names' : list jsstring) (v : value) :
  (forall n, n ∈ names -> n ∈ names') -> named_in names v -> named_in names' v.
Proof. intros Hsub (fs & n & -> & Hn & Hin). exists fs, n. auto. Qed.

Lemma named_in_environment (names : list jsstring) (n : jsstring) (p : value)
    (cfg : list (jsstring * value)) :
  n ∈ names -> lacks (js "name") cfg ->
  named_in names (VObj (spread [(js "name", VStr n); (js "provider", p)] cfg)).
Proof.
  intros Hin H. eexists _, n. split; [reflexivity|]. split; [|exact Hin].
  rewrite (obj_get_spread _ _ _ H). reflexivity.
Qed.

Lemma named_in_named (names : list jsstring) (v : value) : named_in names v -> named v.
Proof. intros (fs & n & -> & Hn & _). exists fs, n. auto. Qed.


Lemma generateEnvExample_returns (env : value) :
  named env -> is_Some (generateEnvExample env).
Proof.
  intros (fs & n & -> & Hn). unfold generateEnvExample.
  cbn [get mbind option_bind]. rewrite Hn. cbn [mbind option_bind]. eauto.
Qed.

Lemma forEach_secrets_returns (ps : list value) (s : list jsstring) :
  Forall is_object ps -> is_Some (forEach_secrets s ps).
Proof.
  intros H. revert s. induction H as [|p ps [fs ->] _ IH]; intros s; cbn [forEach_secrets].
  - eauto.
  - unfold provider_secrets. cbn [get mbind option_bind]. apply IH.
Qed.

Lemma obj_set_values (fs : list (jsstring * value)) (k : jsstring) (v : value) :
  Forall is_object (map snd fs) -> is_object v ->
  Forall is_object (map snd (obj_set fs k v)).
Proof.
  intros H Hv. induction fs as [|[k0 w] fs IH]; cbn [obj_set map snd].
  - constructor; [exact Hv|constructor].
  - cbn [map snd] in H. apply Forall_cons in H as [Hw Hfs].
    destruct (str_eqb k0 k); cbn [map snd]; constructor; auto.
Qed.

Lemma add_environments_values (acc : list (jsstring * value)) (envs : list value) :
  Forall is_object (map snd acc) -> Forall named envs ->
  Forall is_object (map snd (add_environments acc envs)).
Proof.
  intros Hacc Henvs. revert acc Hacc.
  induction Henvs as [|env envs Henv _ IH]; intros acc Hacc; cbn [add_environments].
  - exact Hacc.
  - apply IH. apply obj_set_values; [exact Hacc|].
    destruct Henv as (fs & n & -> & _). exists fs. reflexivity.
Qed.

(** *** Steps in a working directory *)

Lemma safe_ask {A B : Type} (pre : gset jsstring -> gmap jsstring content -> Prop)
    (w : W A) (f : A -> W B) (P : A -> Prop)
    (post : B -> gset jsstring -> gmap jsstring content -> Prop) :
  yields w P -> prompt_only w ->
  (forall a, P a -> safe pre (f a) post) ->
  safe pre (w ≫= f) post.
Proof.
  intros Hy Hp Hf st Hpre. unfold mbind, W_bind. specialize (Hy st).
  destruct (w st) as [a st1|st1|] eqn:E; [|contradiction|exact I].
  destruct (Hp _ _ _ E) as [Ef Ed]. apply (Hf a Hy st1). rewrite Ef, Ed. exact Hpre.
Qed.

Lemma safe_bind {A B : Type} (pre : gset jsstring -> gmap jsstring content -> Prop)
    (w : W A) (f : A -> W B)
    (mid : A -> gset jsstring -> gmap jsstring content -> Prop)
    (post : B -> gset jsstring -> gmap jsstring content -> Prop) :
  safe pre w mid -> (forall a, safe (mid a) (f a) post) -> safe pre (w ≫= f) post.
Proof.
  intros Hw Hf st Hpre. unfold mbind, W_bind. specialize (Hw st Hpre).
  destruct (w st) as [a st1|st1|]; [|contradiction|exact I].
  apply (Hf a st1 Hw).
Qed.

Lemma safe_try {A B : Type} (pre : gset jsstring -> gmap jsstring content -> Prop)
    (o : option A) (f : A -> W B) (a : A)
    (post : B -> gset jsstring -> gmap jsstring content -> Prop) :
  o = Some a -> safe pre (f a) post -> safe pre (try_ o ≫= f) post.
Proof. intros -> Hf st Hpre. exact (Hf st Hpre). Qed.

(** *** What the paths name *)

Lemma isFile_absent (st : wstate) (path : jsstring) :
  files st !! path = None -> isFile st path = false.
Proof.
  intros H. unfold isFile, stat. rewrite H. case_bool_decide; reflexivity.
Qed.

Lemma isDirectory_made (st : wstate) (dir : jsstring) :
  files st !! dir = None -> dir ∈ dirs st -> isDirectory st dir = true.
Proof.
  intros H Hin. unfold isDirectory, stat. rewrite H.
  rewrite bool_decide_eq_true_2 by exact Hin. reflexivity.
Qed.

Lemma isDirectory_absent (st : wstate) (path : jsstring) :
  path ∉ dirs st -> isDirectory st path = false.
Proof.
  intros H. unfold isDirectory, stat. destruct (files st !! path); [reflexivity|].
  rewrite bool_decide_eq_false_2 by exact H. reflexivity.
Qed.


Ltac listed :=
  vm_compute; repeat first [apply list_elem_of_here | apply list_elem_of_further].

Lemma written_is_no_dir (path dir : jsstring) :
  path ∈ written_paths -> dir ∈ needed_dirs -> path <> dir.
Proof.
  unfold written_paths, needed_dirs. intros Hp Hd.
  repeat (apply elem_of_cons in Hp as [->|Hp]);
    [repeat (apply elem_of_cons in Hd as [->|Hd]);
       [intros E; vm_compute in E; discriminate E ..|inversion Hd] ..|inversion Hp].
Qed.

Lemma usable_insert (ds : gset jsstring) (fs : gmap jsstring content)
    (path : jsstring) (c : content) :
  path ∈ written_paths -> usable ds fs -> usable ds (<[path := c]> fs).
Proof.
  intros Hp [Hd Hw]. split; [|exact Hw].
  intros dir Hdir. rewrite lookup_insert_ne; [apply Hd, Hdir|].
  apply written_is_no_dir; assumption.
Qed.

(** *** The steps that make directories and write files *)

Lemma safe_mkdir (made : list jsstring) (dir : jsstring) :
  dir ∈ ancestors dir ->
  Forall (fun d => d ∈ needed_dirs) (ancestors dir) ->
  safe (usable_with made) (mkdir dir) (fun _ => usable_with (dir :: made)).
Proof.
  intros Hlast Hanc st [[Hd Hw] Hmade]. rewrite Forall_forall in Hanc.
  unfold mkdir. destruct (existsSync st dir) eqn:E.
  - split; [split; assumption|].
    intros d Hin. apply elem_of_cons in Hin as [->|Hin]; [|apply Hmade, Hin].
    unfold existsSync, stat in E. rewrite (Hd dir (Hanc dir Hlast)) in E.
    case_bool_decide; [assumption|discriminate E].
  - unfold mkdirSync.
    destruct (existsb (isFile st) (ancestors dir)) eqn:Ex.
    + apply existsb_exists in Ex as (d & Hin & Hf).
      apply list_elem_of_In in Hin.
      rewrite (isFile_absent st d (Hd d (Hanc d Hin))) in Hf. discriminate Hf.
    + cbn [dirs files]. split; [split; [exact Hd|]|].
      * intros path Hp Hin. apply elem_of_union in Hin as [Hin|Hin].
        -- apply elem_of_list_to_set in Hin.
           exact (written_is_no_dir path path Hp (Hanc path Hin) eq_refl).
        -- exact (Hw path Hp Hin).
      * intros d Hin. apply elem_of_union.
        apply elem_of_cons in Hin as [->|Hin].
        -- left. apply elem_of_list_to_set, Hlast.
        -- right. apply Hmade, Hin.
Qed.

Lemma safe_writeFileSync (made : list jsstring) (path dir : jsstring) (c : content) :
  dirname path = Some dir -> dir ∈ made -> dir ∈ needed_dirs ->
  path ∈ written_paths ->
  safe (usable_with made) (writeFileSync path c) (fun _ => usable_with made).
Proof.
  intros Hdir Hin Hneeded Hp st [[Hd Hw] Hmade]. unfold writeFileSync.
  rewrite Hdir, (isDirectory_made st dir (Hd dir Hneeded) (Hmade dir Hin)).
  rewrite (isDirectory_absent st path (Hw path Hp)). cbn [andb negb dirs files].
  split; [|exact Hmade]. apply usable_insert; [exact Hp|]. split; assumption.
Qed.

Lemma safe_write_env_examples (made : list jsstring) (envs : list value) :
  js ".cicd" ∈ made ->
  Forall (named_in environment_names) envs ->
  safe (usable_with made) (write_env_examples envs) (fun _ => usable_with made).
Proof.
  intros Hmade. induction 1 as [|env envs Henv _ IH]; cbn [write_env_examples].
  - intros st Hpre. exact Hpre.
  - destruct (generateEnvExample_returns env (named_in_named _ _ Henv)) as [text Ht].
    apply (safe_try _ _ _ text _ Ht).
    apply (safe_bind _ _ _ (fun _ => usable_with made)); [|intros _; exact IH].
    destruct Henv as (fs & n & -> & Hn & Hin).
    cbn [get_opt get default]. unfold id. rewrite Hn. cbn [to_string].
    unfold environment_names in Hin.
    repeat (apply elem_of_cons in Hin as [->|Hin]);
      [apply (safe_writeFileSync made _ (js ".cicd"));
         [vm_compute; reflexivity|exact Hmade|listed|listed] ..|inversion Hin].
Qed.

Ltac quiet :=
  apply (safe_ask _ _ _ (fun _ => True));
  [ first [ apply yields_question | apply yields_confirm ]
  | prompt_only
  | ].

Ltac picked :=
  apply (safe_ask _ _ _ is_string);
  [ apply yields_selectOption; discriminate
  | prompt_only
  | ].

(** In a working directory that lets it write, the wizard never throws: a
    run is completed or is left waiting for an answer. *)
Lemma main_never_throws (cwd_name : jsstring) :
  safe (usable_with []) (main cwd_name) (fun _ _ _ => True).
Proof.
  unfold main.
  quiet; intros projectName _.
  picked; intros projectType [pt ->].
  picked; intros framework [fw ->].
  quiet; intros buildCommand _. quiet; intros outputDir _.
  quiet; intros nodeVersion _. quiet; intros enableTesting _.
  apply (safe_ask _ _ _ (fun _ => True)); [|prompt_only|].
  { destruct enableTesting; [|apply yields_ret; exact I].
    apply (yields_bind _ _ (fun _ => True)); [apply yields_question|].
    intros answer _.
    apply (yields_bind _ _ (fun _ => True)); [apply yields_confirm|].
    intros enableCoverage _.
    destruct enableCoverage; [|apply yields_ret; exact I].
    apply (yields_bind _ _ (fun _ => True)); [apply yields_question|].
    intros threshold _. apply yields_ret. exact I. }
  intros [testCommand coverageThreshold] _.
  picked; intros prodProvider HprodProvider.
  apply (safe_ask _ _ _ (lacks (js "name")));
    [apply yields_getProviderConfig, HprodProvider|prompt_only|].
  intros prodConfig HprodConfig.
  quiet; intros staging _.
  apply (safe_ask _ _ _ (Forall (named_in environment_names))); [|prompt_only|].
  { destruct staging.
    - apply (yields_bind _ _ is_string); [apply yields_selectOption; discriminate|].
      intros stagingProvider HstagingProvider.
      apply (yields_bind _ _ (lacks (js "name"))).
      + destruct (is_str stagingProvider (js "same")).
        * apply yields_ret. apply lacks_spread; [apply lacks_spread; [constructor|]|].
          -- exact HprodConfig.
          -- lacks_name.
        * apply yields_getProviderConfig, HstagingProvider.
      + intros stagingConfig HstagingConfig. apply yields_ret.
        apply Forall_app. split; repeat constructor;
          (apply named_in_environment; [listed|assumption]).
    - apply yields_ret. repeat constructor.
      apply named_in_environment; [listed|exact HprodConfig]. }
  intros environments Henvs.
  quiet; intros development _.
  apply (safe_ask _ _ _ (Forall (named_in environment_names))); [|prompt_only|].
  { destruct development; [|apply yields_ret; exact Henvs].
    apply (yields_bind _ _ is_string); [apply yields_selectOption; discriminate|].
    intros devProvider HdevProvider.
    destruct (negb (is_str devProvider (js "local"))); [|apply yields_ret; exact Henvs].
    apply (yields_bind _ _ (lacks (js "name")));
      [apply yields_getProviderConfig, HdevProvider|].
    intros devConfig HdevConfig. apply yields_ret.
    apply Forall_app. split; [exact Henvs|].
    repeat constructor. apply named_in_environment; [listed|exact HdevConfig]. }
  clear environments Henvs. intros environments Henvs.
  quiet; intros enableCaching _. quiet; intros enableSecurityScan _.
  quiet; intros enableMetrics _. quiet; intros enableNotifications _.
  apply (safe_ask _ _ _ (fun _ => True)); [|prompt_only|].
  { destruct enableNotifications; [|apply yields_ret; exact I].
    apply (yields_bind _ _ (fun _ => True));
      [eapply yields_weaken; [|apply yields_selectOption; discriminate]; auto|].
    intros notificationType _. apply yields_ret. exact I. }
  intros notificationConfig _.
  eapply safe_try; [reflexivity|].
  eapply safe_try; [reflexivity|].
  apply (safe_bind _ _ _ (fun _ => usable_with [js ".cicd"]));
    [apply safe_mkdir; [listed|vm_compute; repeat constructor]|intros _].
  apply (safe_bind _ _ _
           (fun _ => usable_with [js ".github/workflows"; js ".cicd"]));
    [apply safe_mkdir; [listed|vm_compute; repeat constructor]|intros _].
  apply (safe_bind _ _ _
           (fun _ => usable_with [js ".github/workflows"; js ".cicd"]));
    [apply (safe_writeFileSync _ _ (js ".cicd"));
       [vm_compute; reflexivity|listed|listed|listed]|intros _].
  eapply safe_try; [unfold generateWorkflow; reflexivity|].
  apply (safe_bind _ _ _
           (fun _ => usable_with [js ".github/workflows"; js ".cicd"]));
    [apply (safe_writeFileSync _ _ (js ".github/workflows"));
       [vm_compute; reflexivity|listed|listed|listed]|intros _].
  apply (safe_bind _ _ _
           (fun _ => usable_with [js ".github/workflows"; js ".cicd"]));
    [apply safe_write_env_examples; [listed|exact Henvs]|intros _].
  intros st _. unfold try_.
  match goal with |- match match getRequiredSecrets ?c with _ => _ end with _ => _ end =>
    assert (Hs : is_Some (getRequiredSecrets c)) end.
  { unfold getRequiredSecrets. cbn [get].
    match goal with |- context [obj_get ?fields (js "providers")] =>
      change (obj_get fields (js "providers"))
        with (VObj (add_environments [] environments));
      change (obj_get fields (js "notifications")) with (VObj notificationConfig)
    end.
    cbn [mbind option_bind Object_values get].
    destruct (forEach_secrets_returns
                (map snd (add_environments [] environments)) [])
      as [found ->].
    { apply add_environments_values; [constructor|].
      eapply Forall_impl; [exact Henvs|]. intros v. apply named_in_named. }
    cbn [mbind option_bind]. eauto. }
  destruct Hs as [secrets ->]. exact I.
Qed.

Lemma run_never_throws (cwd_name : jsstring) (typed : list jsstring)
    (ds : gset jsstring) (fs : gmap jsstring content) (st : wstate) :
  usable ds fs -> run cwd_name typed ds fs <> Threw st.
Proof.
  intros Hu H.
  assert (Hpre : usable_with [] ds fs) by (split; [exact Hu|intros d Hd; inversion Hd]).
  pose proof (main_never_throws cwd_name (WState typed ds fs) Hpre) as Hy.
  unfold run in H. rewrite H in Hy. exact Hy.
Qed.

(** ** The setup wizard completes once enough answers are typed *)

Lemma consumes_mono {A : Type} (n n' : nat) (w : W A) :
  n <= n' -> consumes n w -> consumes n' w.
Proof.
  intros Hle Hw st. specialize (Hw st). destruct (w st); [lia|exact I|lia].
Qed.

Lemma consumes_ret {A : Type} (n : nat) (a : A) : consumes n (mret a).
Proof. intros st. cbn. lia. Qed.

Lemma consumes_try {A : Type} (n : nat) (o : option A) : consumes n (try_ o).
Proof. intros st. unfold try_. destruct o; [lia|exact I]. Qed.

Lemma consumes_question : consumes 1 question.
Proof.
  intros st. unfold question. destruct (answers st) as [|a rest]; cbn [length answers]; lia.
Qed.

Lemma consumes_bind {A B : Type} (n n' : nat) (w : W A) (f : A -> W B) :
  consumes n w -> (forall a, consumes n' (f a)) -> consumes (n + n') (w ≫= f).
Proof.
  intros Hw Hf st. unfold mbind, W_bind. specialize (Hw st).
  destruct (w st) as [a st1|st1|]; [|exact I|lia].
  specialize (Hf a st1). destruct (f a st1); [lia|exact I|lia].
Qed.

Lemma consumes_mkdir (dir : jsstring) : consumes 0 (mkdir dir).
Proof.
  intros st. unfold mkdir, mkdirSync. destruct (existsSync st dir); [lia|].
  destruct (existsb _ _); [exact I|cbn [answers]; lia].
Qed.

Lemma consumes_writeFileSync (path : jsstring) (c : content) :
  consumes 0 (writeFileSync path c).
Proof.
  intros st. unfold writeFileSync. destruct (_ && _); [cbn [answers]; lia|exact I].
Qed.

Create HintDb answers.
#[local] Hint Resolve consumes_question consumes_mkdir consumes_writeFileSync : answers.
#[local] Hint Extern 1 (consumes _ (mret _)) => apply consumes_ret : answers.
#[local] Hint Extern 1 (consumes _ (try_ _)) => apply consumes_try : answers.

(** One step of a sequence: the cost of the first command is looked up,
    the rest of the allowance goes to what follows. *)
Ltac spend :=
  repeat first
    [ solve [auto with answers]
    | match goal with
      | |- consumes _ (if ?b then _ else _) => destruct b
      | |- consumes _ (try_ _ ≫= _) =>
          apply (consumes_bind 0); [apply consumes_try|intros ?]
      | |- consumes _ (?w ≫= _) =>
          first [ apply (consumes_bind 0); [solve [auto with answers]|intros ?]
                | apply (consumes_bind 1); [solve [auto with answers]|intros ?]
                | apply (consumes_bind 3); [solve [auto with answers]|intros ?] ]
      end ].

Lemma consumes_confirm (d : bool) : consumes 1 (confirm d).
Proof. unfold confirm. spend. Qed.

Lemma consumes_selectOption (options : list jsstring) :
  consumes 1 (selectOption options).
Proof. unfold selectOption. spend. Qed.

Lemma consumes_getProviderConfig (provider : value) :
  consumes 3 (getProviderConfig provider).
Proof. unfold getProviderConfig. spend. Qed.

Lemma consumes_write_env_examples (envs : list value) :
  consumes 0 (write_env_examples envs).
Proof.
  induction envs as [|env envs IH]; cbn [write_env_examples].
  - apply consumes_ret.
  - apply (consumes_bind 0 0); [apply consumes_try|intros ?].
    apply (consumes_bind 0 0); [apply consumes_writeFileSync|intros ?]. exact IH.
Qed.

#[local] Hint Resolve consumes_confirm consumes_selectOption
  consumes_getProviderConfig consumes_write_env_examples : answers.

(** [main] asks at most 29 questions. *)
Lemma main_consumes (cwd_name : jsstring) : consumes 29 (main cwd_name).
Proof.
  unfold main.
  do 7 (apply (consumes_bind 1); [solve [auto with answers]|intros ?]).
  apply (consumes_bind 3); [spend|intros [testCommand coverageThreshold]].
  apply (consumes_bind 1); [solve [auto with answers]|intros prodProvider].
  apply (consumes_bind 3); [solve [auto with answers]|intros prodConfig].
  apply (consumes_bind 1); [solve [auto with answers]|intros staging].
  apply (consumes_bind 4).
  { destruct staging; [|apply consumes_ret].
    apply (consumes_bind 1); [solve [auto with answers]|intros stagingProvider].
    apply (consumes_bind 3 0); [|intros ?; apply consumes_ret].
    destruct (is_str stagingProvider (js "same")); auto with answers. }
  intros environments.
  apply (consumes_bind 1); [solve [auto with answers]|intros development].
  apply (consumes_bind 4).
  { destruct development; [|apply consumes_ret].
    apply (consumes_bind 1); [solve [auto with answers]|intros devProvider].
    destruct (negb (is_str devProvider (js "local"))); [|apply consumes_ret].
    apply (consumes_bind 3 0); [auto with answers|intros ?; apply consumes_ret]. }
  clear environments. intros environments.
  do 4 (apply (consumes_bind 1); [solve [auto with answers]|intros ?]).
  apply (consumes_bind 1).
  { match goal with |- consumes _ (if ?b then _ else _) => destruct b end;
      [|apply consumes_ret].
    apply (consumes_bind 1 0); [auto with answers|intros ?; apply consumes_ret]. }
  intros notificationConfig.
  spend.
Qed.

(** With 29 answers typed, the wizard runs to completion in a working
    directory that lets it write. *)
Lemma run_completes (cwd_name : jsstring) (typed : list jsstring)
    (ds : gset jsstring) (fs : gmap jsstring content) :
  usable ds fs -> 29 <= length typed ->
  exists secrets st', run cwd_name typed ds fs = Done secrets st'.
Proof.
  intros Hu Hlen. unfold run.
  assert (Hpre : usable_with [] ds fs) by (split; [exact Hu|intros d Hd; inversion Hd]).
  pose proof (main_never_throws cwd_name (WState typed ds fs) Hpre) as Hy.
  pose proof (main_consumes cwd_name (WState typed ds fs)) as Hc.
  destruct (main cwd_name (WState typed ds fs)) as [secrets st'|st'|].
  - exists secrets, st'. reflexivity.
  - contradiction.
  - cbn [answers] in Hc. lia.
Qed.

(** ** The setup wizard: what a completed run writes *)

Lemma completed_run_files
    (cwd_name : jsstring) (typed : list jsstring)
    (ds : gset jsstring) (fs : gmap jsstring content)
    (secrets : list jsstring) (st' : wstate) :
  run cwd_name typed ds fs = Done secrets st' ->
  exists fields workflow,
    files st' !! js ".cicd/config.json" = Some (FJson (jsonify (VObj fields)))
    /\ keys (jsonify (VObj fields))
       = [js "project"; js "build"; js "testing"; js "providers";
          js "notifications"; js "advanced"]
    /\ generateWorkflow (VObj fields) = Some workflow
    /\ files st' !! js ".github/workflows/deploy.yml" = Some (FText workflow).
Proof.
  intros H.
  unfold run, main in H.
  do 7 bind_step H.
  bind_step H. destruct a6 as [testCommand coverageThreshold].
  do 15 bind_step H.
  repeat match goal with
  | Hs : ?w ?s0 = Done ?a ?s1 |- _ =>
      let P := fresh "P" in
      assert (P : prompt_only w) by prompt_only;
      apply P in Hs; destruct Hs as [? _]
  end.
  do 4 bind_step H.
  repeat match goal with
  | Hw : mkdir _ _ = Done _ _ |- _ => fs_step
  | Hw : writeFileSync _ _ _ = Done _ _ |- _ => fs_step
  | Hw : try_ ?o _ = Done _ _ |- _ =>
      unfold try_ in Hw; destruct o eqn:?; [|discriminate Hw];
      injection Hw as <- <-
  end.
  match goal with Hw : write_env_examples _ _ = Done _ _ |- _ =>
    pose proof (write_env_examples_others _ _ _ _ _ Hw config_json_is_no_example) as Ec;
    pose proof (write_env_examples_others _ _ _ _ _ Hw deploy_yml_is_no_example) as Ed
  end.
  cbn [files] in Ec, Ed.
  rewrite lookup_insert_ne in Ec by (intros E; vm_compute in E; discriminate E).
  rewrite lookup_insert_eq in Ec, Ed.
  match goal with Hg : generateWorkflow (VObj ?fields) = Some ?text |- _ =>
    exists fields, text; split; [exact Ec|]; split; [reflexivity|];
    split; [exact Hg|exact Ed]
  end.
Qed.




(** ** Occurrences of a text in a string *)

Section Occurrences.

Lemma startsWith_spec (s t : jsstring) :
  startsWith s t = true <-> exists b, s = t ++ b.
Proof.
  revert s. induction t as [|x t IH]; intros s; simpl.
  - split; [intros _; exists s; reflexivity|reflexivity].
  - destruct s as [|y s].
    + split; [discriminate|intros [b Hb]; discriminate Hb].
    + rewrite andb_true_iff, unit_eqb_eq, IH. split.
      * intros [-> [b ->]]. exists b. reflexivity.
      * intros [b [= -> ->]]. split; [reflexivity|exists b; reflexivity].
Qed.

Lemma startsWith_app (t b : jsstring) : startsWith (t ++ b) t = true.
Proof. apply startsWith_spec. exists b. reflexivity. Qed.

Lemma startsWith_drop (s t : jsstring) :
  startsWith s t = true -> s = t ++ drop (length t) s.
Proof.
  intros H. apply startsWith_spec in H as [b ->].
  rewrite drop_app_length. reflexivity.
Qed.

Lemma includes_spec (s t : jsstring) :
  includes s t = true <-> exists a b, s = a ++ t ++ b.
Proof.
  induction s as [|x s IH]; cbn [includes].
  - rewrite orb_false_r, startsWith_spec. split.
    + intros [b Hb]. exists [], b. exact Hb.
    + intros (a & b & H). destruct a; [exists b; exact H|discriminate H].
  - rewrite orb_true_iff, startsWith_spec, IH. split.
    + intros [[b Hb]|(a & b & ->)].
      * exists [], b. exact Hb.
      * exists (x :: a), b. reflexivity.
    + intros (a & b & H). destruct a as [|y a].
      * left. exists b. exact H.
      * right. injection H as -> ->. exists a, b. reflexivity.
Qed.

Lemma includes_false_spec (s t : jsstring) :
  includes s t = false <-> forall a b, s <> a ++ t ++ b.
Proof.
  rewrite <- not_true_iff_false, includes_spec. split.
  - intros H a b E. apply H. exists a, b. exact E.
  - intros H (a & b & E). exact (H a b E).
Qed.




(** A code unit that is foreign to [t] cannot lie inside an occurrence. *)
Lemma occurrence_starts_before_foreign (t b u v : jsstring) (x : N) :
  x ∉ t -> t ++ b = u ++ x :: v -> exists b', u = t ++ b'.
Proof.
  revert u. induction t as [|y t IH]; intros u Hx E.
  - exists u. reflexivity.
  - destruct u as [|z u].
    + injection E as -> _. exfalso. apply Hx. apply list_elem_of_here.
    + injection E as -> E. destruct (IH u) as [b' ->]; [|exact E|].
      * intros Hin. apply Hx. apply list_elem_of_further, Hin.
      * exists b'. reflexivity.
Qed.

Lemma occurrence_avoids_foreign (t a b u v : jsstring) (x : N) :
  x ∉ t ->
  a ++ t ++ b = u ++ x :: v ->
  (exists b', u = a ++ t ++ b') \/ (exists a', v = a' ++ t ++ b).
Proof.
  intros Hx. revert u. induction a as [|y a IH]; intros u E.
  - left. destruct (occurrence_starts_before_foreign t b u v x Hx E) as [b' ->].
    exists b'. reflexivity.
  - destruct u as [|z u].
    + injection E as -> <-. right. exists a. reflexivity.
    + injection E as -> E. destruct (IH u E) as [[b' ->]|[a' ->]].
      * left. exists b'. reflexivity.
      * right. exists a'. reflexivity.
Qed.

Lemma includes_around_foreign (t u v : jsstring) (x : N) :
  x ∉ t ->
  includes u t = false -> includes v t = false ->
  includes (u ++ x :: v) t = false.
Proof.
  intros Hx Hu Hv. apply includes_false_spec. intros a b E.
  symmetry in E. destruct (occurrence_avoids_foreign t a b u v x Hx E)
    as [[b' ->]|[a' ->]].
  - rewrite includes_false_spec in Hu. exact (Hu a b' eq_refl).
  - rewrite includes_false_spec in Hv. exact (Hv a' b eq_refl).
Qed.

Lemma includes_foreign (t w : jsstring) :
  t <> [] -> foreign t w -> includes w t = false.
Proof.
  intros Ht Hw. induction Hw as [|x w Hx Hw IH].
  - cbn [includes]. destruct t; [congruence|reflexivity].
  - apply (includes_around_foreign t [] w x Hx); [|exact IH].
    cbn [includes]. destruct t; [congruence|reflexivity].
Qed.



(** A text that contains [p ++ q] contains [q]. *)
Lemma includes_tail (s p q : jsstring) :
  includes s (p ++ q) = true -> includes s q = true.
Proof.
  rewrite !includes_spec. intros (a & b & ->).
  exists (a ++ p), b. rewrite <- !app_assoc. reflexivity.
Qed.

End Occurrences.

(** ** The loaders: prefixes and template paths by page location *)

Lemma includes_prefixed_false (path p q : jsstring) :
  includes path q = false -> includes path (p ++ q) = false.
Proof.
  intros H. destruct (includes path (p ++ q)) eqn:E; [|reflexivity].
  apply includes_tail in E. congruence.
Qed.

(** A page that is not under a directory is not under that directory of
    the [/assiduousflip] site either. *)
Ltac on_site H :=
  match type of H with
  | includes ?path ?q = false =>
      let E := fresh "E" in
      pose proof (includes_prefixed_false path (js "/assiduousflip") q H) as E;
      let v := eval vm_compute in (js "/assiduousflip" ++ q) in
      change (js "/assiduousflip" ++ q) with v in E;
      repeat match goal with
             | |- context [includes path ?lit] =>
                 change (includes path lit) with (includes path v); rewrite E
             end
  end.

Lemma sidebarPath_table (path : jsstring) :
  let deep := includes path (js "/admin/development/")
              || includes path (js "/admin/contracts/") in
  let section := includes path (js "/admin/") || includes path (js "/client/")
                 || includes path (js "/docs/") in
  Sidebar.sidebarPath path
  = if deep then js "../../components/sidebar.html"
    else if section then js "../components/sidebar.html"
    else js "components/sidebar.html".
Proof.
  cbv zeta. unfold Sidebar.sidebarPath.
  destruct (includes path (js "/admin/development/")) eqn:Hdev;
    [destruct (_ || _); reflexivity|].
  destruct (includes path (js "/admin/contracts/")) eqn:Hcon;
    [destruct (_ || _); reflexivity|].
  on_site Hdev. on_site Hcon. cbn [orb].
  destruct (includes path (js "/admin/")) eqn:Hadm;
    [destruct (includes path (js "/assiduousflip/admin/")); reflexivity|].
  on_site Hadm. cbn [orb].
  destruct (includes path (js "/client/") || includes path (js "/docs/"));
    [reflexivity|].
  destruct (includes path (js "/assiduousflip/")); reflexivity.
Qed.

Lemma headerPath_table (path : jsstring) :
  let backups := includes path (js "/admin/development/backups/") in
  let deep := includes path (js "/admin/development/")
              || includes path (js "/admin/contracts/") in
  let section := includes path (js "/admin/") || includes path (js "/client/")
                 || includes path (js "/docs/") in
  AdminHeader.headerPath path
  = if backups then js "../../../components/admin-header.html"
    else if deep then js "../../components/admin-header.html"
    else if section then js "../components/admin-header.html"
    else js "components/admin-header.html".
Proof.
  cbv zeta. unfold AdminHeader.headerPath.
  destruct (includes path (js "/admin/development/backups/")) eqn:Hbak;
    [destruct (includes path (js "/assiduousflip/admin/development/backups/"));
     reflexivity|].
  on_site Hbak.
  destruct (includes path (js "/admin/development/")) eqn:Hdev;
    [destruct (_ || _); reflexivity|].
  destruct (includes path (js "/admin/contracts/")) eqn:Hcon;
    [destruct (_ || _); reflexivity|].
  on_site Hdev. on_site Hcon. cbn [orb].
  destruct (includes path (js "/admin/")) eqn:Hadm;
    [destruct (includes path (js "/assiduousflip/admin/")); reflexivity|].
  on_site Hadm. cbn [orb].
  destruct (includes path (js "/client/") || includes path (js "/docs/"));
    [reflexivity|].
  destruct (includes path (js "/assiduousflip/")); reflexivity.
Qed.

(** C3. With no [data-base] attribute, the sidebar's [resolveBase] maps
    the page path to the documented prefix: [../] under
    [/admin/development/], [../] under [/admin/contracts/], the empty
    prefix elsewhere under [/admin/], and [admin/] for every other path;
    the patterns are tried in that order.  The template paths of the
    sidebar and of the admin header follow the same patterns: three
    levels up under [/admin/development/backups/] (admin header only),
    two levels up under [/admin/development/] and [/admin/contracts/],
    one level up elsewhere under [/admin/], [/client/] or [/docs/], and
    the [components] directory of the page itself otherwise. *)
Theorem C3_sidebar_resolveBase_prefixes (el : element) (path : jsstring) :
  getAttribute el (js "data-base") = None ->
  let backups := includes path (js "/admin/development/backups/") in
  let development := includes path (js "/admin/development/") in
  let contracts := includes path (js "/admin/contracts/") in
  let admin := includes path (js "/admin/") in
  let section := admin || includes path (js "/client/")
                 || includes path (js "/docs/") in
  (development = true -> Sidebar.resolveBase el path = js "../")
  /\ (development = false -> contracts = true ->
      Sidebar.resolveBase el path = js "../")
  /\ (development = false -> contracts = false -> admin = true ->
      Sidebar.resolveBase el path = [])
  /\ (development = false -> contracts = false -> admin = false ->
      Sidebar.resolveBase el path = js "admin/")
  /\ Sidebar.sidebarPath path
     = (if development || contracts then js "../../components/sidebar.html"
        else if section then js "../components/sidebar.html"
        else js "components/sidebar.html")
  /\ AdminHeader.headerPath path
     = (if backups then js "../../../components/admin-header.html"
        else if development || contracts then js "../../components/admin-header.html"
        else if section then js "../components/admin-header.html"
        else js "components/admin-header.html").
Proof.
  intros Hattr. cbv zeta. unfold Sidebar.resolveBase. rewrite Hattr.
  split; [|split; [|split; [|split; [|split]]]].
  - intros ->. reflexivity.
  - intros -> ->. reflexivity.
  - intros -> -> ->. reflexivity.
  - intros -> -> ->. reflexivity.
  - apply sidebarPath_table.
  - apply headerPath_table.
Qed.

Lemma C3_sidebar_resolveBase_witness :
  Sidebar.resolveBase Examples.bare_root (js "/admin/development/dashboard.html")
  = js "../".
Proof.
  destruct (C3_sidebar_resolveBase_prefixes Examples.bare_root
              (js "/admin/development/dashboard.html")) as [Hdev _].
  - reflexivity.
  - apply Hdev. vm_compute. reflexivity.
Defined.

(** ** Replacing a literal token *)

Section LiteralReplace.

Variable t : jsstring.
Hypothesis t_nonempty : t <> [].






End LiteralReplace.

Import BaseToken.



(** ** The loaders: the base token *)









(** The universal header's token regexes all start with a backslash, so
    a template without backslashes goes through [processTokens]
    unchanged, whatever tokens it contains. *)
Lemma exec_from_escaped_absent (total : nat) (class s : jsstring) (idx : nat) :
  UniversalHeader.bs ∉ s ->
  exec_from total (UniversalHeader.escaped class) s idx = None.
Proof.
  revert idx. induction s as [|x s IH]; intros idx Hs.
  - reflexivity.
  - cbn [exec_from UniversalHeader.escaped m Lit].
    destruct (unit_eqb UniversalHeader.bs x) eqn:E.
    + apply unit_eqb_eq in E. subst x. exfalso. apply Hs, list_elem_of_here.
    + apply IH. intros Hin. apply Hs, list_elem_of_further, Hin.
Qed.

Lemma replace_escaped_absent (class s : jsstring) (f : match_result -> jsstring) :
  UniversalHeader.bs ∉ s ->
  replace_all_with (UniversalHeader.escaped class) f s = s.
Proof.
  intros Hs. unfold replace_all_with. cbn [replace_loop].
  rewrite (exec_from_escaped_absent _ _ _ _ Hs). reflexivity.
Qed.

Lemma processTokens_without_backslash (toUpperCase : jsstring -> jsstring)
    (html : jsstring) (config : UniversalHeader.config) :
  UniversalHeader.bs ∉ html ->
  UniversalHeader.processTokens toUpperCase html config = html.
Proof.
  intros Hs. unfold UniversalHeader.processTokens, replace_all.
  unfold UniversalHeader.baseTokenRegex, UniversalHeader.typeTokenRegex,
    UniversalHeader.titleTokenRegex, UniversalHeader.subtitleTokenRegex,
    UniversalHeader.searchPlaceholderTokenRegex, UniversalHeader.userNameTokenRegex.
  repeat rewrite (replace_escaped_absent _ html _ Hs). reflexivity.
Qed.

(** ** The matcher never runs out of fuel

    The iterations of a quantifier and the rounds of a global replace are
    counted down from the length of the input plus one.  Every iteration
    and every round shortens the input, so the count is never used up:
    any larger count gives the same result. *)

Section Fuel.

Variable total : nat.

Lemma repeat_match_ext (step : jsstring -> caps -> cont -> option state)
    (k1 k2 : cont) (fuel : nat) (s : jsstring) (c : caps) :
  local_step step (length s) ->
  (forall s' c', length s' <= length s -> k1 s' c' = k2 s' c') ->
  repeat_match step k1 fuel s c = repeat_match step k2 fuel s c.
Proof.
  revert s c. induction fuel as [|fuel IH]; intros s c Hstep Hk.
  - cbn [repeat_match]. apply Hk. lia.
  - cbn [repeat_match]. rewrite (Hk s c) by lia.
    match goal with
    | |- match step s c ?ka with _ => _ end = match step s c ?kb with _ => _ end =>
        assert (E : step s c ka = step s c kb)
    end.
    { apply Hstep; [lia|].
      intros s' c' Hle. destruct (length s' <? length s) eqn:Hlt; [|reflexivity].
      apply IH.
      - intros s0 c0 ka kb H0 Hab. apply Hstep; [lia|exact Hab].
      - intros s0 c0 H0. apply Hk. lia. }
    rewrite E. reflexivity.
Qed.

Lemma m_ext (r : re) (s : jsstring) (c : caps) (k1 k2 : cont) :
  (forall s' c', length s' <= length s -> k1 s' c' = k2 s' c') ->
  m total r s c k1 = m total r s c k2.
Proof.
  revert s c k1 k2.
  induction r as [|p|r1 IH1 r2 IH2|r1 IH1 r2 IH2|r1 IH1|r1 IH1|i r1 IH1| | |r1 IH1];
    intros s c k1 k2 Hk; cbn [m].
  - apply Hk. lia.
  - destruct s as [|x s]; [reflexivity|]. destruct (p x); [|reflexivity].
    apply Hk. cbn [length]. lia.
  - apply IH1. intros s' c' Hle. apply IH2. intros s'' c'' Hle'. apply Hk. lia.
  - rewrite (IH1 s c k1 k2 Hk), (IH2 s c k1 k2 Hk). reflexivity.
  - apply repeat_match_ext; [|exact Hk].
    intros s0 c0 ka kb _ Hab. apply IH1, Hab.
  - rewrite (Hk s c) by lia.
    match goal with
    | |- match m total r1 s ?c0 ?ka with _ => _ end
         = match m total r1 s ?c0 ?kb with _ => _ end =>
        assert (E : m total r1 s c0 ka = m total r1 s c0 kb)
    end.
    { apply IH1. intros s' c' Hle.
      destruct (length s' <? length s); [apply Hk, Hle|reflexivity]. }
    rewrite E. reflexivity.
  - apply IH1. intros s' c' Hle. apply Hk, Hle.
  - destruct (length s =? total); [apply Hk; lia|reflexivity].
  - destruct s; [apply Hk; lia|reflexivity].
  - rewrite (Hk s c) by lia. reflexivity.
Qed.

Lemma repeat_match_fuel (r : re) (k : cont) (fuel fuel' : nat) (s : jsstring) (c : caps) :
  length s < fuel -> length s < fuel' ->
  repeat_match (fun s' c' k' => m total r s' (clear_caps (groups r) c') k') k fuel s c
  = repeat_match (fun s' c' k' => m total r s' (clear_caps (groups r) c') k') k fuel' s c.
Proof.
  revert fuel' s c. induction fuel as [|fuel IH]; intros fuel' s c Hf Hf'; [lia|].
  destruct fuel' as [|fuel']; [lia|]. cbn [repeat_match].
  match goal with
  | |- match m total r s ?c0 ?ka with _ => _ end
       = match m total r s ?c0 ?kb with _ => _ end =>
      assert (E : m total r s c0 ka = m total r s c0 kb)
  end.
  { apply m_ext. intros s' c' Hle.
    destruct (length s' <? length s) eqn:Hlt; [|reflexivity].
    apply Nat.ltb_lt in Hlt. apply IH; lia. }
  rewrite E. reflexivity.
Qed.

(** A match only moves forward in the input. *)
Lemma repeat_match_consumes (step : jsstring -> caps -> cont -> option state)
    (k : cont) (fuel : nat) (s : jsstring) (c : caps) (res : state) :
  (forall s0 c0 k0 res0, step s0 c0 k0 = Some res0 ->
     exists s' c', length s' <= length s0 /\ k0 s' c' = Some res0) ->
  repeat_match step k fuel s c = Some res ->
  exists s' c', length s' <= length s /\ k s' c' = Some res.
Proof.
  intros Hstep. revert s c. induction fuel as [|fuel IH]; intros s c; cbn [repeat_match].
  - intros H. exists s, c. split; [lia|exact H].
  - destruct (step s c _) as [res0|] eqn:Hs.
    + intros [= <-]. apply Hstep in Hs as (s' & c' & Hle & Hk).
      destruct (length s' <? length s); [|discriminate Hk].
      apply IH in Hk as (s'' & c'' & Hle' & Hk).
      exists s'', c''. split; [lia|exact Hk].
    + intros H. exists s, c. split; [lia|exact H].
Qed.

Lemma m_consumes (r : re) (s : jsstring) (c : caps) (k : cont) (res : state) :
  m total r s c k = Some res ->
  exists s' c', length s' <= length s /\ k s' c' = Some res.
Proof.
  revert s c k res.
  induction r as [|p|r1 IH1 r2 IH2|r1 IH1 r2 IH2|r1 IH1|r1 IH1|i r1 IH1| | |r1 IH1];
    intros s c k res; cbn [m].
  - intros H. exists s, c. split; [lia|exact H].
  - destruct s as [|x s]; [discriminate|]. destruct (p x); [|discriminate].
    intros H. exists s, c. split; [cbn [length]; lia|exact H].
  - intros H. apply IH1 in H as (s1 & c1 & Hle1 & H).
    apply IH2 in H as (s2 & c2 & Hle2 & H).
    exists s2, c2. split; [lia|exact H].
  - destruct (m total r1 s c k) as [res0|] eqn:H1.
    + intros [= <-]. apply IH1 in H1. exact H1.
    + apply IH2.
  - apply repeat_match_consumes. intros s0 c0 k0 res0. apply IH1.
  - destruct (m total r1 s _ _) as [res0|] eqn:H1.
    + intros [= <-]. apply IH1 in H1 as (s' & c' & Hle & H).
      destruct (length s' <? length s); [|discriminate H].
      exists s', c'. split; [exact Hle|exact H].
    + intros H. exists s, c. split; [lia|exact H].
  - intros H. apply IH1 in H as (s' & c' & Hle & H).
    exists s'. eexists. split; [exact Hle|exact H].
  - destruct (length s =? total); [|discriminate].
    intros H. exists s, c. split; [lia|exact H].
  - destruct s; [|discriminate]. intros H. exists [], c. split; [lia|exact H].
  - destruct (m total r1 s c _); [discriminate|].
    intros H. exists s, c. split; [lia|exact H].
Qed.

(** A match found in [s] ends inside [s], and a non-empty match leaves
    less than [s]. *)
Lemma exec_from_rest (r : re) (s : jsstring) (idx : nat) (res : match_result) :
  exec_from total r s idx = Some res ->
  length (m_rest res) <= length s
  /\ (m_text res <> [] -> length (m_rest res) < length s).
Proof.
  revert idx. induction s as [|x s IH]; intros idx; cbn [exec_from].
  - destruct (m total r [] no_caps _) as [[s' c']|] eqn:Hm; [|discriminate].
    intros [= <-]. cbn [m_rest m_text].
    apply m_consumes in Hm as (s1 & c1 & Hle & [= <- <-]).
    destruct s1; [|cbn [length] in Hle; lia]. split; [lia|]. cbn. congruence.
  - destruct (m total r (x :: s) no_caps _) as [[s' c']|] eqn:Hm.
    + intros [= <-]. cbn [m_rest m_text].
      apply m_consumes in Hm as (s1 & c1 & Hle & [= <- <-]).
      split; [exact Hle|]. intros Hne.
      destruct (decide (length s1 = length (x :: s))) as [E|E]; [|lia].
      exfalso. apply Hne. rewrite E, Nat.sub_diag. reflexivity.
    + intros H. apply IH in H as [H1 H2]. cbn [length]. split; [lia|].
      intros Hne. specialize (H2 Hne). lia.
Qed.

Lemma replace_loop_fuel (r : re) (f : match_result -> jsstring)
    (fuel fuel' : nat) (done s : jsstring) :
  length s < fuel -> length s < fuel' ->
  replace_loop fuel total r f done s = replace_loop fuel' total r f done s.
Proof.
  revert fuel' done s. induction fuel as [|fuel IH]; intros fuel' done s Hf Hf'; [lia|].
  destruct fuel' as [|fuel']; [lia|]. cbn [replace_loop].
  destruct (exec_from total r s (length done)) as [res|] eqn:He; [|reflexivity].
  apply exec_from_rest in He as [Hle Hlt].
  destruct (m_text res) as [|y text] eqn:Et.
  - destruct (m_rest res) as [|x rest'] eqn:Er; [reflexivity|].
    cbn [length] in Hle. do 3 f_equal. apply IH; lia.
  - assert (length (m_rest res) < length s) by (apply Hlt; discriminate).
    do 2 f_equal. apply IH; lia.
Qed.

End Fuel.

(** ** The matcher on a starred class *)

Section StarClass.

Variable total : nat.
Variable p : N -> bool.

Lemma repeat_match_class (k : cont) (fuel : nat) (s : jsstring) (c : caps) :
  length s < fuel ->
  repeat_match (fun s' c' k' => m total (Char p) s' (clear_caps (groups (Char p)) c') k')
    k fuel s c
  = star_class p k s c.
Proof.
  revert s. induction fuel as [|fuel IH]; intros s Hl; [lia|].
  destruct s as [|x s].
  - reflexivity.
  - cbn [repeat_match m star_class]. destruct (p x); [|reflexivity].
    assert (Hlt : (length s <? length (x :: s)) = true)
      by (apply Nat.ltb_lt; cbn [length]; lia).
    rewrite Hlt.
    change (clear_caps (groups (Char p)) c) with c.
    rewrite IH by (cbn [length] in Hl; lia). reflexivity.
Qed.

Lemma m_star_class (s : jsstring) (c : caps) (k : cont) :
  m total (Star (Char p)) s c k = star_class p k s c.
Proof. cbn [m]. apply repeat_match_class. lia. Qed.

Lemma star_class_stops (k : cont) (rest : jsstring) (c : caps) :
  stops p rest = true -> star_class p k rest c = k rest c.
Proof.
  destruct rest as [|x rest]; [reflexivity|]. cbn [stops star_class].
  intros H. apply negb_true_iff in H. rewrite H. reflexivity.
Qed.

(** The greedy extent is kept when the continuation accepts it. *)
Lemma star_class_greedy (k : cont) (w rest : jsstring) (c : caps) (res : state) :
  forallb p w = true -> stops p rest = true ->
  k rest c = Some res ->
  star_class p k (w ++ rest) c = Some res.
Proof.
  intros Hw Hs Hk. induction w as [|x w IH].
  - cbn [app]. rewrite star_class_stops; assumption.
  - cbn [forallb] in Hw. apply andb_true_iff in Hw as [Hx Hw].
    cbn [app star_class]. rewrite Hx, (IH Hw). reflexivity.
Qed.

Lemma star_class_fails (k : cont) (w rest : jsstring) (c : caps) :
  forallb p w = true -> stops p rest = true ->
  fails_on_tails k w rest c ->
  star_class p k (w ++ rest) c = None.
Proof.
  intros Hw Hs. induction w as [|x w IH]; cbn [fails_on_tails].
  - intros Hk. cbn [app]. rewrite star_class_stops; assumption.
  - cbn [forallb] in Hw. apply andb_true_iff in Hw as [Hx Hw].
    intros [Hk Ht]. cbn [app star_class]. rewrite Hx, (IH Hw Ht). exact Hk.
Qed.

(** Backtracking: the class first swallows [w1 ++ x :: w2]; when the
    continuation only accepts with [x :: w2] given back, that is the
    match. *)
Lemma star_class_backtrack (k : cont) (w1 : jsstring) (x : N) (w2 rest : jsstring)
    (c : caps) (res : state) :
  forallb p w1 = true -> forallb p (x :: w2) = true -> stops p rest = true ->
  fails_on_tails k w2 rest c ->
  k (x :: w2 ++ rest) c = Some res ->
  star_class p k (w1 ++ x :: w2 ++ rest) c = Some res.
Proof.
  intros Hw1 Hw2 Hs Hfail Hk. induction w1 as [|y w1 IH].
  - cbn [forallb] in Hw2. apply andb_true_iff in Hw2 as [Hx Hw2].
    cbn [app star_class]. rewrite Hx, (star_class_fails k w2 rest c Hw2 Hs Hfail).
    exact Hk.
  - cbn [forallb] in Hw1. apply andb_true_iff in Hw1 as [Hy Hw1].
    cbn [app star_class]. rewrite Hy, (IH Hw1). reflexivity.
Qed.

End StarClass.

(** ** The matcher on the pieces of the documentation regexes *)

Section Pieces.

Variable total : nat.

Lemma m_seq (r1 r2 : re) (s : jsstring) (c : caps) (k : cont) :
  m total (Seq r1 r2) s c k = m total r1 s c (fun s' c' => m total r2 s' c' k).
Proof. reflexivity. Qed.

Lemma m_char (p : N -> bool) (x : N) (s : jsstring) (c : caps) (k : cont) :
  p x = true -> m total (Char p) (x :: s) c k = k s c.
Proof. intros H. cbn [m]. rewrite H. reflexivity. Qed.

Lemma m_char_no (p : N -> bool) (x : N) (s : jsstring) (c : caps) (k : cont) :
  p x = false -> m total (Char p) (x :: s) c k = None.
Proof. intros H. cbn [m]. rewrite H. reflexivity. Qed.

Lemma m_star (p : N -> bool) (w rest : jsstring) (c : caps) (k : cont) (res : state) :
  forallb p w = true -> stops p rest = true ->
  k rest c = Some res ->
  m total (Star (Char p)) (w ++ rest) c k = Some res.
Proof. intros. rewrite m_star_class. apply star_class_greedy; assumption. Qed.

Lemma m_plus (p : N -> bool) (x : N) (w rest : jsstring) (c : caps) (k : cont)
    (res : state) :
  p x = true -> forallb p w = true -> stops p rest = true ->
  k rest c = Some res ->
  m total (Plus (Char p)) (x :: w ++ rest) c k = Some res.
Proof.
  intros Hx Hw Hs Hk. unfold Plus. rewrite m_seq, (m_char p x _ c _ Hx).
  apply m_star; assumption.
Qed.

Lemma take_consumed (w rest : jsstring) :
  take (length (w ++ rest) - length rest) (w ++ rest) = w.
Proof.
  rewrite length_app. replace (length w + length rest - length rest) with (length w) by lia.
  apply take_app_length.
Qed.

Lemma m_group_plus (i : nat) (p : N -> bool) (x : N) (w rest : jsstring) (c : caps)
    (k : cont) (res : state) :
  p x = true -> forallb p w = true -> stops p rest = true ->
  k rest (set_cap i (x :: w) c) = Some res ->
  m total (Group i (Plus (Char p))) (x :: w ++ rest) c k = Some res.
Proof.
  intros Hx Hw Hs Hk. cbn [m].
  apply (m_plus p x w rest c _ res Hx Hw Hs). cbv beta.
  change (x :: w ++ rest) with ((x :: w) ++ rest).
  rewrite (take_consumed (x :: w) rest). exact Hk.
Qed.

End Pieces.

(** ** The documentation generator on a flat interface *)

Import DocGen InterfaceBlock.

Lemma word_not_space (c : N) : is_word c = true -> is_space c = false.
Proof.
  unfold is_word, is_space, is_digit. intros H.
  repeat (apply orb_true_iff in H as [H|H]);
    repeat (apply andb_true_iff in H as [? H]);
    repeat match goal with
           | H : (_ <=? _)%N = true |- _ => apply N.leb_le in H
           | H : (_ =? _)%N = true |- _ => apply N.eqb_eq in H
           end;
    repeat (apply orb_false_iff; split);
    try (apply andb_false_iff);
    repeat match goal with
           | |- (_ =? _)%N = false => apply N.eqb_neq; lia
           | |- _ \/ _ => first [left; apply N.leb_gt; lia | right; apply N.leb_gt; lia]
           end.
Qed.

Lemma blank_is_space (w : jsstring) :
  forallb is_blank w = true -> forallb is_space w = true.
Proof.
  induction w as [|x w IH]; cbn [forallb]; [reflexivity|].
  unfold is_blank at 1. intros H. apply andb_true_iff in H as [H1 H2].
  apply andb_true_iff in H1 as [H1 _]. rewrite H1, (IH H2). reflexivity.
Qed.

Lemma m_bol (total : nat) (s : jsstring) (c : caps) (k : cont) :
  length s = total -> m total Bol s c k = k s c.
Proof. intros H. cbn [m]. rewrite H, Nat.eqb_refl. reflexivity. Qed.

Lemma m_opt_group_lit (total : nat) (i : nat) (x : N) (s : jsstring) (c : caps) (k : cont)
    (res : state) :
  k s (set_cap i [x] (clear_caps [i] c)) = Some res ->
  m total (Opt (Group i (Lit x))) (x :: s) c k = Some res.
Proof.
  intros Hk. cbn [m Lit groups app].
  assert (Hx : unit_eqb x x = true) by (apply unit_eqb_eq; reflexivity).
  rewrite Hx.
  assert (Hlt : (length s <? length (x :: s)) = true)
    by (apply Nat.ltb_lt; cbn [length]; lia).
  rewrite Hlt.
  replace (length (x :: s) - length s) with 1 by (cbn [length]; lia).
  cbn [take]. rewrite take_0, Hk. reflexivity.
Qed.

Lemma m_opt_group_lit_no (total : nat) (i : nat) (x y : N) (s : jsstring) (c : caps) (k : cont) :
  unit_eqb x y = false ->
  m total (Opt (Group i (Lit x))) (y :: s) c k = k (y :: s) c.
Proof. intros H. cbn [m Lit]. rewrite H. reflexivity. Qed.

Lemma length_trimStart (s : jsstring) : length (trimStart s) <= length s.
Proof.
  induction s as [|x s IH]; cbn [trimStart]; [lia|].
  destruct (is_space x); cbn [length]; lia.
Qed.

Lemma length_trim (s : jsstring) : length (trim s) <= length (trimStart s).
Proof.
  unfold trim, trimEnd. rewrite length_rev.
  etransitivity; [apply length_trimStart|]. rewrite length_rev. lia.
Qed.

Lemma trimmed_head (x : N) (s : jsstring) :
  str_eqb (trim (x :: s)) (x :: s) = true -> is_space x = false.
Proof.
  intros H. apply str_eqb_eq in H. destruct (is_space x) eqn:E; [|reflexivity].
  exfalso. apply (f_equal length) in H.
  pose proof (length_trim (x :: s)) as H1. cbn [trimStart] in H1. rewrite E in H1.
  pose proof (length_trimStart s). cbn [length] in *. lia.
Qed.

Lemma unit_eqb_sym (x y : N) : unit_eqb x y = unit_eqb y x.
Proof. apply N.eqb_sym. Qed.

Lemma type_unit_not_semicolon (w : jsstring) :
  forallb type_unit w = true ->
  forallb (fun x => negb (unit_eqb (ch ";") x)) w = true.
Proof.
  induction w as [|x w IH]; cbn [forallb]; [reflexivity|].
  intros H. apply andb_true_iff in H as [H1 H2]. rewrite (IH H2), andb_true_r.
  unfold type_unit in H1. apply andb_true_iff in H1 as [H1 _].
  rewrite unit_eqb_sym. exact H1.
Qed.

Lemma trimStart_spaces (w s : jsstring) :
  forallb is_space w = true -> trimStart (w ++ s) = trimStart s.
Proof.
  induction w as [|x w IH]; cbn [forallb app trimStart]; [reflexivity|].
  intros H. apply andb_true_iff in H as [Hx Hw]. rewrite Hx. apply IH, Hw.
Qed.

Lemma trimStart_head (x : N) (s : jsstring) :
  is_space x = false -> trimStart (x :: s) = x :: s.
Proof. intros H. cbn [trimStart]. rewrite H. reflexivity. Qed.

(** Blanks after a trimmed text are trimmed away. *)
Lemma trim_blank_tail (x : N) (s b : jsstring) :
  str_eqb (trim (x :: s)) (x :: s) = true -> forallb is_blank b = true ->
  trim ((x :: s) ++ b) = x :: s.
Proof.
  intros Ht Hb. pose proof (trimmed_head _ _ Ht) as Hx. apply str_eqb_eq in Ht.
  unfold trim in *. cbn [app]. rewrite (trimStart_head x _ Hx).
  rewrite (trimStart_head x _ Hx) in Ht.
  unfold trimEnd in *.
  change (x :: s ++ b) with ((x :: s) ++ b). rewrite rev_app_distr.
  rewrite trimStart_spaces; [exact Ht|].
  apply blank_is_space. rewrite forallb_forall in *. intros y Hy.
  apply Hb, in_rev, Hy.
Qed.

Lemma blank_not_semicolon (w : jsstring) :
  forallb is_blank w = true ->
  forallb (fun x => negb (unit_eqb (ch ";") x)) w = true.
Proof.
  induction w as [|x w IH]; cbn [forallb]; [reflexivity|].
  intros H. apply andb_true_iff in H as [H1 H2]. rewrite (IH H2), andb_true_r.
  apply negb_true_iff. destruct (unit_eqb (ch ";") x) eqn:E; [|reflexivity].
  apply unit_eqb_eq in E. subst x. vm_compute in H1. discriminate H1.
Qed.

(** A well-formed declaration line yields the entry of its field. *)
Lemma parseLine_declaration (f : field) :
  well_formed f = true -> parseLine (declaration f) = [declared f].
Proof.
  destruct f as [indent name optional gap ty tail].
  unfold well_formed, declaration, declared.
  cbn [f_indent f_name f_optional f_gap f_type f_tail].
  intros H. repeat (apply andb_true_iff in H as [H ?]).
  destruct name as [|n0 name]; [discriminate|].
  destruct ty as [|t0 ty]; [discriminate|].
  match goal with Hw : forallb is_word _ = true |- _ =>
    cbn [forallb] in Hw; apply andb_true_iff in Hw as [Hn0 Hname] end.
  match goal with Ht : forallb type_unit _ = true |- _ =>
    apply type_unit_not_semicolon in Ht; cbn [forallb] in Ht;
    apply andb_true_iff in Ht as [Ht0 Hty] end.
  match goal with Ht : str_eqb (trim _) _ = true |- _ =>
    pose proof (trimmed_head _ _ Ht) as Hhead; rename Ht into Htrim end.
  (* what [[^;]+] takes: the type, and blanks after it when no [;] follows *)
  assert (Hsplit : exists w rest,
            ty ++ tail = w ++ rest
            /\ forallb (fun x => negb (unit_eqb (ch ";") x)) w = true
            /\ stops (fun x => negb (unit_eqb (ch ";") x)) rest = true
            /\ trim (t0 :: w) = t0 :: ty).
  { destruct (forallb is_blank tail) eqn:Hb.
    - exists (ty ++ tail), []. rewrite app_nil_r. split; [reflexivity|].
      split; [rewrite forallb_app, Hty; apply blank_not_semicolon, Hb|].
      split; [reflexivity|].
      apply (trim_blank_tail t0 ty tail Htrim Hb).
    - exists ty, tail. split; [reflexivity|]. split; [exact Hty|].
      split; [|apply str_eqb_eq, Htrim].
      match goal with Hc : orb _ (startsWith tail _) = true |- _ =>
        cbn [orb] in Hc; destruct tail as [|c tail]; [reflexivity|];
        change (js ";") with [ch ";"] in Hc; cbn [startsWith] in Hc;
        apply andb_true_iff in Hc as [Hc _];
        cbn [stops]; rewrite Hc; reflexivity
      end. }
  destruct Hsplit as (w & rest & Hsplit & Hw & Hrest & Hkept).
  unfold parseLine, str_match.
  set (line := indent ++ _).
  set (c1 := set_cap 1 (n0 :: name) no_caps).
  set (c2 := if optional then set_cap 2 (js "?") (clear_caps [2] c1) else c1).
  assert (Hm : m (length line) propRe line no_caps (fun s' c' => Some (s', c'))
               = Some (rest, set_cap 3 (t0 :: w) c2)).
  { unfold propRe. rewrite m_seq, m_bol by reflexivity.
    generalize (length line). intros total.
    rewrite m_seq. unfold line.
    apply m_star; [apply blank_is_space; assumption| |].
    { cbn [app stops]. apply negb_true_iff, word_not_space, Hn0. }
    rewrite m_seq. cbn [app].
    apply m_group_plus; [exact Hn0|exact Hname| |].
    { destruct optional; vm_compute; reflexivity. }
    fold c1. rewrite m_seq.
    assert (Hrest' : m total
              (Seq (Lit (ch ":"))
                 (Seq (Star (Char is_space)) (Group 3 (Plus (NotLit (ch ";"))))))
              (ch ":" :: gap ++ t0 :: ty ++ tail) c2
              (fun s' c' => Some (s', c'))
            = Some (rest, set_cap 3 (t0 :: w) c2)).
    { rewrite m_seq. unfold Lit. rewrite m_char by (vm_compute; reflexivity).
      rewrite m_seq.
      apply m_star; [apply blank_is_space; assumption| |].
      { cbn [app stops]. rewrite Hhead. reflexivity. }
      cbn [app]. unfold NotLit. rewrite Hsplit.
      apply m_group_plus; [exact Ht0|exact Hw|exact Hrest|].
      reflexivity. }
    destruct optional.
    - change (js "?") with [ch "?"]. change (js ":") with [ch ":"]. cbn [app].
      apply m_opt_group_lit. exact Hrest'.
    - change (js ":") with [ch ":"]. cbn [app].
      rewrite m_opt_group_lit_no by (vm_compute; reflexivity).
      exact Hrest'. }
  destruct line as [|l0 line'] eqn:El.
  - exfalso. destruct indent; discriminate El.
  - cbn [exec_from]. rewrite Hm. cbn [m_caps].
    unfold c2, c1, set_cap, clear_caps, no_caps.
    destruct optional; cbn [Nat.eqb existsb orb default negb];
      unfold id; rewrite Hkept; reflexivity.
Qed.

Lemma forallb_not_elem (q : N -> bool) (w : jsstring) (x : N) :
  forallb q w = true -> q x = false -> x ∉ w.
Proof.
  intros Hw Hx Hin. rewrite forallb_forall in Hw.
  apply list_elem_of_In in Hin. rewrite (Hw x Hin) in Hx. discriminate Hx.
Qed.

Lemma forallb_app_intro (q : N -> bool) (a b : jsstring) :
  forallb q a = true -> forallb q b = true -> forallb q (a ++ b) = true.
Proof. intros Ha Hb. rewrite forallb_app, Ha, Hb. reflexivity. Qed.

Lemma forallb_weaken (q q' : N -> bool) (w : jsstring) :
  (forall x, q x = true -> q' x = true) -> forallb q w = true -> forallb q' w = true.
Proof.
  intros Hq. induction w as [|x w IH]; cbn [forallb]; [reflexivity|].
  intros H. apply andb_true_iff in H as [H1 H2]. rewrite (Hq x H1), (IH H2). reflexivity.
Qed.

Lemma blank_line_unit (c : N) : is_blank c = true -> line_unit c = true.
Proof.
  unfold is_blank, line_unit. intros H. apply andb_true_iff in H as [H1 H2].
  rewrite H2. cbn [andb]. apply negb_true_iff.
  destruct (unit_eqb c (ch "}")) eqn:E; [|reflexivity].
  apply unit_eqb_eq in E. subst c. vm_compute in H1. discriminate H1.
Qed.

Lemma word_line_unit (c : N) : is_word c = true -> line_unit c = true.
Proof.
  unfold line_unit. intros H. apply andb_true_iff. split; apply negb_true_iff.
  - destruct (unit_eqb c 10) eqn:E; [|reflexivity].
    apply unit_eqb_eq in E. subst c. vm_compute in H. discriminate H.
  - destruct (unit_eqb c (ch "}")) eqn:E; [|reflexivity].
    apply unit_eqb_eq in E. subst c. vm_compute in H. discriminate H.
Qed.

Lemma type_line_unit (c : N) : type_unit c = true -> line_unit c = true.
Proof. unfold type_unit. intros H. apply andb_true_iff in H as [_ H]. exact H. Qed.

Lemma declaration_units (f : field) :
  well_formed f = true -> forallb line_unit (declaration f) = true.
Proof.
  destruct f as [indent name optional gap ty tail].
  unfold well_formed, declaration.
  cbn [f_indent f_name f_optional f_gap f_type f_tail].
  intros H. repeat (apply andb_true_iff in H as [H ?]).
  repeat apply forallb_app_intro.
  - eapply forallb_weaken; [apply blank_line_unit|assumption].
  - eapply forallb_weaken; [apply word_line_unit|assumption].
  - destruct optional; reflexivity.
  - reflexivity.
  - eapply forallb_weaken; [apply blank_line_unit|assumption].
  - eapply forallb_weaken; [apply type_line_unit|assumption].
  - assumption.
Qed.

Lemma split_segment (l s : jsstring) :
  forallb line_unit l = true -> split 10 (l ++ 10%N :: s) = l :: split 10 s.
Proof.
  induction l as [|x l IH]; cbn [forallb app]; intros H.
  - cbn [split]. reflexivity.
  - apply andb_true_iff in H as [Hx Hl]. cbn [split].
    unfold line_unit in Hx. apply andb_true_iff in Hx as [Hx _].
    apply negb_true_iff in Hx. rewrite Hx, (IH Hl). reflexivity.
Qed.

Lemma split_one_line (l : jsstring) :
  forallb line_unit l = true -> split 10 l = [l].
Proof.
  induction l as [|x l IH]; cbn [forallb split]; intros H; [reflexivity|].
  apply andb_true_iff in H as [Hx Hl].
  unfold line_unit in Hx. apply andb_true_iff in Hx as [Hx _].
  apply negb_true_iff in Hx. rewrite Hx, (IH Hl). reflexivity.
Qed.

Lemma split_body (fields : list field) (closing : jsstring) :
  forallb well_formed fields = true ->
  forallb is_blank closing = true ->
  split 10 (body fields ++ closing) = map declaration fields ++ [closing].
Proof.
  intros Hwf Hc. unfold body.
  induction fields as [|f fields IH]; cbn [forallb map concat app] in *.
  - apply split_one_line. eapply forallb_weaken; [apply blank_line_unit|exact Hc].
  - apply andb_true_iff in Hwf as [Hf Hfs].
    rewrite <- !app_assoc. cbn [app].
    rewrite (split_segment _ _ (declaration_units f Hf)), (IH Hfs). reflexivity.
Qed.

Lemma line_unit_not_brace (w : jsstring) :
  forallb line_unit w = true ->
  forallb (fun x => negb (unit_eqb (ch "}") x)) w = true.
Proof.
  apply forallb_weaken. intros x Hx. unfold line_unit in Hx.
  apply andb_true_iff in Hx as [_ Hx]. rewrite unit_eqb_sym. exact Hx.
Qed.

Lemma body_units (fields : list field) :
  forallb well_formed fields = true ->
  forallb (fun x => negb (unit_eqb (ch "}") x)) (body fields) = true.
Proof.
  unfold body. induction fields as [|f fields IH]; cbn [forallb map concat].
  - reflexivity.
  - intros H. apply andb_true_iff in H as [Hf Hfs].
    apply forallb_app_intro; [apply forallb_app_intro; [|reflexivity]|apply IH, Hfs].
    apply line_unit_not_brace, declaration_units, Hf.
Qed.

Lemma trimStart_blank (w : jsstring) :
  forallb is_blank w = true -> trimStart w = [].
Proof.
  induction w as [|x w IH]; cbn [forallb trimStart]; [reflexivity|].
  intros H. apply andb_true_iff in H as [Hx Hw].
  unfold is_blank in Hx. apply andb_true_iff in Hx as [Hx _].
  rewrite Hx. apply IH, Hw.
Qed.

Lemma trim_blank (w : jsstring) :
  forallb is_blank w = true -> truthy (trim w) = false.
Proof. intros H. unfold trim. rewrite (trimStart_blank w H). reflexivity. Qed.

Lemma trimStart_keeps (s : jsstring) (x : N) :
  x ∈ s -> is_space x = false -> x ∈ trimStart s.
Proof.
  induction s as [|y s IH]; intros Hin Hx; [inversion Hin|].
  cbn [trimStart]. destruct (is_space y) eqn:Hy; [|exact Hin].
  apply elem_of_cons in Hin as [->|Hin]; [congruence|]. apply IH; assumption.
Qed.

Lemma trim_keeps (s : jsstring) (x : N) :
  x ∈ s -> is_space x = false -> truthy (trim s) = true.
Proof.
  intros Hin Hx.
  assert (H : x ∈ trim s).
  { unfold trim, trimEnd. apply list_elem_of_In, in_rev. rewrite rev_involutive.
    apply list_elem_of_In, trimStart_keeps; [|exact Hx].
    apply list_elem_of_In, in_rev. rewrite rev_involutive.
    apply list_elem_of_In, trimStart_keeps; assumption. }
  destruct (trim s); [inversion H|reflexivity].
Qed.

Lemma declaration_not_blank (f : field) :
  well_formed f = true -> truthy (trim (declaration f)) = true.
Proof.
  destruct f as [indent name optional gap ty tail].
  unfold well_formed, declaration.
  cbn [f_indent f_name f_optional f_gap f_type f_tail].
  intros H. repeat (apply andb_true_iff in H as [H ?]).
  destruct name as [|n0 name]; [discriminate|].
  apply (trim_keeps _ n0).
  - apply elem_of_app. right. apply list_elem_of_here.
  - apply word_not_space.
    match goal with Hw : forallb is_word _ = true |- _ =>
      cbn [forallb] in Hw; apply andb_true_iff in Hw as [Hw _]; exact Hw end.
Qed.

Lemma filter_declarations (fields : list field) (closing : jsstring) :
  forallb well_formed fields = true ->
  forallb is_blank closing = true ->
  filter (fun line => truthy (trim line) = true) (map declaration fields ++ [closing])
  = map declaration fields.
Proof.
  intros Hwf Hc. induction fields as [|f fields IH]; cbn [forallb map app] in *.
  - rewrite filter_cons_False; [reflexivity|].
    rewrite (trim_blank closing Hc). discriminate.
  - apply andb_true_iff in Hwf as [Hf Hfs].
    rewrite filter_cons_True by (apply declaration_not_blank, Hf).
    rewrite (IH Hfs). reflexivity.
Qed.

Lemma parse_declarations (fields : list field) :
  forallb well_formed fields = true ->
  concat (map parseLine (map declaration fields)) = map declared fields.
Proof.
  induction fields as [|f fields IH]; cbn [forallb map concat].
  - intros _. reflexivity.
  - intros H. apply andb_true_iff in H as [Hf Hfs].
    rewrite (parseLine_declaration f Hf), (IH Hfs). reflexivity.
Qed.

Lemma exec_from_skip (total : nat) (t : jsstring) (r : re) (s : jsstring) (i idx : nat) :
  indexOf s t = Some i ->
  exec_from total (Seq (lit t) r) s idx
  = exec_from total (Seq (lit t) r) (drop i s) (idx + i).
Proof.
  revert i idx. induction s as [|x s IH]; intros i idx; cbn [indexOf].
  - destruct (startsWith [] t); [|discriminate]. intros [= <-].
    rewrite Nat.add_0_r. reflexivity.
  - destruct (startsWith (x :: s) t) eqn:Hs.
    + intros [= <-]. rewrite Nat.add_0_r. reflexivity.
    + destruct (indexOf s t) as [j|] eqn:Hj; [|discriminate].
      cbn [fmap option_fmap option_map]. intros [= <-].
      cbn [exec_from]. rewrite m_seq, m_lit, Hs.
      rewrite (IH j (S idx) eq_refl). cbn [drop]. f_equal. lia.
Qed.

(** What follows the name of the interface starts outside the words. *)
Lemma after_name_not_word (opening tail : jsstring) :
  forallb is_space opening = true ->
  exists h t, opening ++ js "{" ++ tail = h :: t /\ is_word h = false.
Proof.
  intros Ho. destruct opening as [|o0 opening].
  - eexists _, _. split; [reflexivity|]. vm_compute. reflexivity.
  - cbn [forallb] in Ho. apply andb_true_iff in Ho as [Ho0 _].
    exists o0, (opening ++ js "{" ++ tail). split; [reflexivity|].
    destruct (is_word o0) eqn:E; [|reflexivity].
    apply word_not_space in E. congruence.
Qed.

Lemma not_word_not_P (h : N) : is_word h = false -> unit_eqb (ch "P") h = false.
Proof.
  intros H. destruct (unit_eqb (ch "P") h) eqn:E; [|reflexivity].
  apply unit_eqb_eq in E. subst h. vm_compute in H. discriminate H.
Qed.

(** The props regex on a flat block. *)
Lemma propsRe_on_block (total : nat) (sep component opening rest : jsstring)
    (fields : list field) (closing : jsstring) :
  truthy sep = true -> forallb is_space sep = true ->
  truthy component = true -> forallb is_word component = true ->
  forallb is_space opening = true ->
  forallb well_formed fields = true ->
  forallb is_blank closing = true ->
  m total propsRe (block sep component opening fields closing ++ rest) no_caps
    (fun s' c' => Some (s', c'))
  = Some (rest, set_cap 1 (10%N :: body fields ++ closing) no_caps).
Proof.
  intros Hsne Hsep Hne Hword Hopening Hwf Hclosing.
  destruct sep as [|s0 sep]; [discriminate|].
  cbn [forallb] in Hsep. apply andb_true_iff in Hsep as [Hs0 Hsep].
  destruct component as [|n0 name]; [discriminate|].
  cbn [forallb] in Hword. apply andb_true_iff in Hword as [Hn0 Hname].
  unfold block, propsRe. rewrite <- !app_assoc.
  rewrite m_seq, m_lit, startsWith_app, drop_app_length.
  rewrite m_seq. cbn [app].
  apply (m_plus total is_space s0 sep _ no_caps); [exact Hs0|exact Hsep| |].
  { cbn [stops]. apply negb_true_iff, word_not_space, Hn0. }
  rewrite m_seq. unfold Plus at 1. rewrite m_seq, (m_char total is_word n0) by exact Hn0.
  rewrite m_star_class.
  match goal with |- star_class _ ?k _ _ = _ => set (K := k) end.
  change (js "Props") with (ch "P" :: js "rops").
  cbn [app].
  match goal with |- context [opening ++ js "{" ++ ?tail] =>
    destruct (after_name_not_word opening tail Hopening) as (h & t & Hrest & Hh);
    set (R := opening ++ js "{" ++ tail) in *
  end.
  apply star_class_backtrack;
    [exact Hname|vm_compute; reflexivity| | |].
  { rewrite Hrest. cbn [stops]. rewrite Hh. reflexivity. }
  { cbn [fails_on_tails]. unfold K.
    repeat split; try (rewrite m_seq, m_lit; reflexivity).
    cbv beta iota delta [fails_on_tails map String.list_ascii_of_string].
    rewrite m_seq, m_lit, Hrest.
    change (js "Props") with (ch "P" :: js "rops"). cbn [startsWith].
    rewrite (not_word_not_P h Hh). reflexivity. }
  unfold K.
  change (ch "P" :: js "rops" ++ ?tail) with (js "Props" ++ tail).
  rewrite m_seq, m_lit, startsWith_app, drop_app_length.
  rewrite m_seq. unfold R.
  apply (m_star total is_space opening); [exact Hopening|reflexivity|].
  rewrite m_seq. change (js "{") with [ch "{"]. cbn [app].
  unfold Lit at 1. rewrite m_char by (vm_compute; reflexivity).
  rewrite m_seq. unfold NotLit.
  rewrite (app_assoc (body fields) closing).
  apply m_group_plus; [vm_compute; reflexivity| |reflexivity|].
  { apply forallb_app_intro; [apply body_units, Hwf|].
    apply line_unit_not_brace.
    eapply forallb_weaken; [apply blank_line_unit|exact Hclosing]. }
  change (js "}") with [ch "}"]. cbn [app].
  unfold Lit. rewrite m_char by (vm_compute; reflexivity). reflexivity.
Qed.


(** * Further properties *)

Import JS Regex Value Dom Runs Texts Matching Wizard BaseToken DocGen InterfaceBlock
  Environments.

(** ** A literal at the end of the input *)

Lemma exec_from_unfold (total : nat) (r : re) (s : jsstring) (idx : nat) :
  exec_from total r s idx
  = match m total r s no_caps (fun s' c' => Some (s', c')) with
    | Some (s', c') => Some (MatchResult idx (take (length s - length s') s) c' s')
    | None => match s with
              | [] => None
              | _ :: s' => exec_from total r s' (S idx)
              end
    end.
Proof. destruct s; reflexivity. Qed.

Lemma startsWith_refl (t : jsstring) : startsWith t t = true.
Proof. rewrite <- (app_nil_r t) at 1. apply startsWith_app. Qed.

(** [/t$/] finds [t] at the end of [p ++ t], and nowhere before. *)
Lemma exec_from_suffix (total : nat) (t p : jsstring) (idx : nat) :
  t <> [] ->
  exec_from total (Seq (lit t) Eol) (p ++ t) idx
  = Some (MatchResult (idx + length p) t no_caps []).
Proof.
  intros Ht. revert idx. induction p as [|x p IH]; intros idx.
  - cbn [app]. rewrite exec_from_unfold, m_seq, m_lit, startsWith_refl.
    rewrite drop_all. cbn [m length]. rewrite Nat.sub_0_r, firstn_all, Nat.add_0_r.
    reflexivity.
  - rewrite exec_from_unfold, m_seq, m_lit.
    assert (Hno : (if startsWith ((x :: p) ++ t) t
                   then m total Eol (drop (length t) ((x :: p) ++ t)) no_caps
                          (fun s' c' => Some (s', c'))
                   else None) = None).
    { destruct (startsWith ((x :: p) ++ t) t); [|reflexivity].
      destruct (drop (length t) ((x :: p) ++ t)) as [|y rest] eqn:Ed; [|reflexivity].
      apply (f_equal length) in Ed. rewrite length_drop, length_app in Ed.
      cbn [length] in Ed. lia. }
    rewrite Hno. cbn [app]. rewrite IH. cbn [length]. do 2 f_equal. lia.
Qed.

(** [/t$/] finds nothing in a text that does not end with [t]. *)
Lemma exec_from_no_suffix (total : nat) (t s : jsstring) (idx : nat) :
  (forall p, s <> p ++ t) ->
  exec_from total (Seq (lit t) Eol) s idx = None.
Proof.
  revert idx. induction s as [|x s IH]; intros idx Hs.
  - rewrite exec_from_unfold, m_seq, m_lit.
    destruct (startsWith [] t) eqn:E; [|reflexivity].
    apply startsWith_spec in E as [b Hb]. destruct t; [|discriminate Hb].
    exfalso. apply (Hs []). reflexivity.
  - rewrite exec_from_unfold, m_seq, m_lit.
    destruct (startsWith (x :: s) t) eqn:E.
    + apply startsWith_drop in E.
      destruct (drop (length t) (x :: s)) as [|y rest] eqn:Ed.
      * exfalso. apply (Hs []). rewrite app_nil_r in E. exact E.
      * cbn [m]. apply IH. intros p Hp. apply (Hs (x :: p)). rewrite Hp. reflexivity.
    + apply IH. intros p Hp. apply (Hs (x :: p)). rewrite Hp. reflexivity.
Qed.

(** Removing a literal at the end: [s.replace(/t$/, '')]. *)
Lemma replace_first_suffix (t p : jsstring) :
  t <> [] -> replace_first (Seq (lit t) Eol) (p ++ t) [] = p.
Proof.
  intros Ht. unfold replace_first, str_match.
  rewrite (exec_from_suffix _ t p 0 Ht). cbn [m_index m_rest m_text m_caps Nat.add].
  rewrite take_app_length. unfold get_substitution. cbn [substitution].
  rewrite !app_nil_r. reflexivity.
Qed.

Lemma replace_first_no_suffix (t s rep : jsstring) :
  (forall p, s <> p ++ t) -> replace_first (Seq (lit t) Eol) s rep = s.
Proof.
  intros Hs. unfold replace_first, str_match.
  rewrite (exec_from_no_suffix _ t s 0 Hs). reflexivity.
Qed.

(** [/\/$/] is the literal regex of a slash at the end. *)
Lemma trailingSlash_is_suffix (total : nat) (s : jsstring) (idx : nat) :
  exec_from total AdminHeader.trailingSlash s idx
  = exec_from total (Seq (lit (js "/")) Eol) s idx.
Proof.
  unfold AdminHeader.trailingSlash.
  change (lit (js "/")) with (Seq (Lit (ch "/")) Empty).
  revert idx. induction s as [|x s IH]; intros idx; [reflexivity|].
  rewrite (exec_from_unfold total (Seq (Lit _) Eol) (x :: s)),
    (exec_from_unfold total (Seq (Seq _ _) Eol) (x :: s)).
  cbn [m Lit]. rewrite IH. reflexivity.
Qed.

Lemma strip_slash (b : jsstring) :
  replace_first AdminHeader.trailingSlash (b ++ js "/") [] = b.
Proof.
  rewrite <- (replace_first_suffix (js "/") b) at 2 by discriminate.
  unfold replace_first, str_match. rewrite trailingSlash_is_suffix. reflexivity.
Qed.

Lemma strip_no_slash (s : jsstring) :
  (forall b, s <> b ++ js "/") ->
  replace_first AdminHeader.trailingSlash s [] = s.
Proof.
  intros Hs. rewrite <- (replace_first_no_suffix (js "/") s [] Hs) at 2.
  unfold replace_first, str_match. rewrite trailingSlash_is_suffix. reflexivity.
Qed.

Lemma trim_truthy (s : jsstring) : truthy (trim s) = true -> truthy s = true.
Proof. destruct s; [discriminate|reflexivity]. Qed.

(** X1. In the admin header and the sidebar an explicit [data-base]
    attribute with a non-blank value overrides every path heuristic: the
    base is the value of the attribute without its last slash, or the
    value itself when it does not end with a slash.  A blank value is
    ignored: the loaders go on as if the attribute were absent. *)
Theorem data_base_overrides_the_heuristics
    (el : element) (path base : jsstring) :
  getAttribute el (js "data-base") = Some base ->
  (truthy (trim base) = true ->
     Sidebar.resolveBase el path = AdminHeader.resolveBase el
     /\ (forall b, base = b ++ js "/" -> AdminHeader.resolveBase el = b)
     /\ ((forall b, base <> b ++ js "/") -> AdminHeader.resolveBase el = base))
  /\ (truthy (trim base) = false ->
      AdminHeader.resolveBase el = AdminHeader.resolveBase (delete (js "data-base") el)
      /\ Sidebar.resolveBase el path
         = Sidebar.resolveBase (delete (js "data-base") el) path).
Proof.
  intros Hattr. unfold AdminHeader.resolveBase, Sidebar.resolveBase.
  rewrite Hattr, !getAttribute_delete_eq. split; intros Ht.
  - rewrite Ht, (trim_truthy _ Ht). cbn [andb]. split; [reflexivity|]. split.
    + intros b ->. apply strip_slash.
    + intros Hb. apply strip_no_slash, Hb.
  - rewrite Ht, andb_false_r. split; reflexivity.
Qed.

Lemma data_base_overrides_witness :
  Sidebar.resolveBase {[ js "data-base" := js "/portal/" ]}
    (js "/admin/development/costs.html")
  = js "/portal".
Proof.
  destruct (data_base_overrides_the_heuristics {[ js "data-base" := js "/portal/" ]}
              (js "/admin/development/costs.html") (js "/portal/")) as [Hset _].
  - vm_compute. reflexivity.
  - destruct Hset as (-> & Hslash & _); [vm_compute; reflexivity|].
    apply (Hslash (js "/portal")). vm_compute. reflexivity.
Defined.

(** ** The universal header: the base and the template address *)

Section UniversalBase.

Variable JSON_parse : jsstring -> option value.
Variable toUpperCase : jsstring -> jsstring.
Variable firstElementChild : jsstring -> bool.
Variable headerActions : jsstring -> bool.

(** X2. The universal header takes its base from the [src] of its
    script tag.  A [src] that ends with
    [/components/universal-header.js] gives what stands before that
    suffix, so that the template is fetched from the same [components]
    directory; any other [src] is taken whole.  A relative [src] that
    starts with [components/], like a missing script tag, gives the
    [/assiduousflip] site of the page origin (the origin itself when the
    path of the page has no slash). *)
Theorem universal_base_from_script
    (script : element) (loc : UniversalHeader.location) (src : jsstring) :
  getAttribute script (js "src") = Some src ->
  let suffix := js "/components/universal-header.js" in
  let by_location :=
    if includes (UniversalHeader.pathname loc) (js "/")
    then UniversalHeader.origin loc ++ js "/assiduousflip"
    else UniversalHeader.origin loc in
  (startsWith src (js "components/") = true ->
     UniversalHeader.resolveBase (Some script) loc = by_location)
  /\ UniversalHeader.resolveBase None loc = by_location
  /\ (startsWith src (js "components/") = false ->
      (forall prefix, src = prefix ++ suffix ->
         UniversalHeader.resolveBase (Some script) loc = prefix
         /\ forall root response,
              UniversalHeader.fetchUrl
                (UniversalHeader.injectHeader JSON_parse toUpperCase firstElementChild
                   headerActions (Some root) (Some script) loc response)
              = Some (prefix ++ js "/components/universal-header.html"))
      /\ ((forall prefix, src <> prefix ++ suffix) ->
          UniversalHeader.resolveBase (Some script) loc = src)).
Proof.
  intros Hsrc. cbv zeta.
  assert (Hbase : forall prefix,
            startsWith src (js "components/") = false ->
            src = prefix ++ js "/components/universal-header.js" ->
            UniversalHeader.resolveBase (Some script) loc = prefix).
  { intros prefix Hrel Hp. unfold UniversalHeader.resolveBase. rewrite Hsrc, Hrel.
    rewrite Hp.
    assert (Ht : truthy (prefix ++ js "/components/universal-header.js") = true)
      by (destruct prefix; reflexivity).
    rewrite Ht. apply replace_first_suffix. discriminate. }
  split; [|split; [reflexivity|]].
  - intros Hrel. unfold UniversalHeader.resolveBase. rewrite Hsrc, Hrel.
    destruct src; [discriminate Hrel|]. reflexivity.
  - intros Hrel. split.
    + intros prefix Hp. split; [exact (Hbase prefix Hrel Hp)|].
      intros root response. unfold UniversalHeader.injectHeader.
      rewrite (Hbase prefix Hrel Hp).
      destruct (match getAttribute root (js "data-actions") with
                | Some actionsAttr =>
                    if truthy actionsAttr
                    then match JSON_parse actionsAttr with
                         | Some parsed => (parsed, [])
                         | None => (VArr [], [Warn (js "Failed to parse data-actions:")])
                         end
                    else (VArr [], [])
                | None => (VArr [], [])
                end) as [acts warns].
      destruct response as [|status body]; [reflexivity|].
      destruct (negb ((200 <=? status) && (status <=? 299))); [reflexivity|].
      destruct body as [html|]; [|reflexivity].
      match goal with |- context [firstElementChild ?h] =>
        destruct (firstElementChild h) end; reflexivity.
    + intros Hno. unfold UniversalHeader.resolveBase. rewrite Hsrc, Hrel.
      destruct (truthy src) eqn:Ht.
      * apply replace_first_no_suffix, Hno.
      * destruct src; [reflexivity|discriminate Ht].
Qed.

End UniversalBase.

Lemma universal_base_witness :
  UniversalHeader.resolveBase
    (Some {[ js "src" := js "https://cdn.example.org/ui/components/universal-header.js" ]})
    Examples.site_root
  = js "https://cdn.example.org/ui".
Proof.
  destruct (universal_base_from_script (fun _ => None) (fun s => s) (fun _ => true)
              (fun _ => true)
              {[ js "src" := js "https://cdn.example.org/ui/components/universal-header.js" ]}
              Examples.site_root
              (js "https://cdn.example.org/ui/components/universal-header.js"))
    as (_ & _ & Habs).
  - vm_compute. reflexivity.
  - destruct Habs as [Hsuffix _]; [vm_compute; reflexivity|].
    apply (Hsuffix (js "https://cdn.example.org/ui")). vm_compute. reflexivity.
Defined.

(** ** The setup wizard: the files of a completed run *)

Lemma yields_Done {A : Type} (w : W A) (P : A -> Prop) (st : wstate) (a : A)
    (st' : wstate) :
  yields w P -> w st = Done a st' -> P a.
Proof. intros Hy H. specialize (Hy st). rewrite H in Hy. exact Hy. Qed.

(** What [write_env_examples] writes: one file per environment, at the
    path made from its name. *)
Lemma write_env_examples_elsewhere (names : list jsstring) (envs : list value)
    (st : wstate) (u : unit) (st' : wstate) (path : jsstring) :
  Forall (named_in names) envs ->
  write_env_examples envs st = Done u st' ->
  (forall n, n ∈ names -> path <> example_path n) ->
  files st' !! path = files st !! path.
Proof.
  intros Henvs. revert st. induction Henvs as [|env envs Henv _ IH]; intros st H Hp.
  - cbn in H. injection H as _ <-. reflexivity.
  - cbn [write_env_examples] in H.
    apply bind_Done in H as (ex & st1 & H1 & H).
    apply bind_Done in H as ([] & st2 & H2 & H).
    unfold try_ in H1. destruct (generateEnvExample env); [|discriminate].
    injection H1 as _ <-.
    apply writeFileSync_Done in H2 as ->.
    rewrite (IH _ H Hp). cbn [files].
    destruct Henv as (fs & n & -> & Hn & Hin).
    apply lookup_insert_ne. cbn [get_opt get default]. unfold id.
    rewrite Hn. cbn [to_string]. intros E. apply (Hp n Hin). symmetry. exact E.
Qed.

Lemma example_path_inj (n n' : jsstring) : example_path n = example_path n' -> n = n'.
Proof.
  unfold example_path. intros E. apply app_inv_head in E. apply app_inv_tail in E.
  exact E.
Qed.

(** The first environment is written first: its example file is kept
    unless a later environment has the same name. *)
Lemma write_env_examples_first (names : list jsstring) (env : value)
    (fs : list (jsstring * value)) (n : jsstring) (envs : list value)
    (st : wstate) (u : unit) (st' : wstate) :
  env = VObj fs -> obj_get fs (js "name") = VStr n -> n ∉ names ->
  Forall (named_in names) envs ->
  write_env_examples (env :: envs) st = Done u st' ->
  exists text, generateEnvExample env = Some text
               /\ files st' !! example_path n = Some (FText text).
Proof.
  intros -> Hn Hout Henvs H. cbn [write_env_examples] in H.
  apply bind_Done in H as (ex & st1 & H1 & H).
  apply bind_Done in H as ([] & st2 & H2 & H).
  unfold try_ in H1. destruct (generateEnvExample (VObj fs)) as [text|]; [|discriminate].
  injection H1 as <- <-.
  apply writeFileSync_Done in H2 as ->.
  exists text. split; [reflexivity|].
  rewrite (write_env_examples_elsewhere names envs _ _ _ _ Henvs H).
  - cbn [files get_opt get default]. unfold id. rewrite Hn. cbn [to_string].
    apply lookup_insert_eq.
  - intros n' Hin E. apply example_path_inj in E. subst n'. exact (Hout Hin).
Qed.

(** The header line of an example file. *)
Lemma generateEnvExample_header (fs : list (jsstring * value)) (n text : jsstring) :
  obj_get fs (js "name") = VStr n ->
  generateEnvExample (VObj fs) = Some text ->
  startsWith text (js "# " ++ toUpperCase n ++ js " Environment Variables" ++ nl) = true.
Proof.
  intros Hn. unfold generateEnvExample. cbn [get mbind option_bind]. rewrite Hn.
  cbn [mbind option_bind]. intros [= <-].
  set (header := js "# " ++ toUpperCase n ++ js " Environment Variables" ++ nl).
  assert (Hjoin : forall more, startsWith (join nl (header :: more)) header = true).
  { intros [|l more]; cbn [join].
    - apply startsWith_refl.
    - apply startsWith_app. }
  repeat match goal with
         | |- context [if ?b then _ else _] => destruct b
         end; cbn [app]; apply Hjoin.
Qed.

(** ** The setup wizard: what is typed is what is written *)

Lemma question_cons (a : jsstring) (rest : list jsstring) (ds : gset jsstring)
    (fs : gmap jsstring content) :
  question (WState (a :: rest) ds fs) = Done a (WState rest ds fs).
Proof. reflexivity. Qed.

Lemma selectOption_cons (options : list jsstring) (a : jsstring)
    (rest : list jsstring) (ds : gset jsstring) (fs : gmap jsstring content) :
  selectOption options (WState (a :: rest) ds fs)
  = Done (opt_value (select options a)) (WState rest ds fs).
Proof. reflexivity. Qed.

Lemma includes_app_r (a s t : jsstring) :
  includes s t = true -> includes (a ++ s) t = true.
Proof.
  rewrite !includes_spec. intros (u & v & ->). exists (a ++ u), v.
  rewrite <- app_assoc. reflexivity.
Qed.

(** A value framed by the end of one literal and the start of the next. *)
Lemma includes_framed (lead pre v post rest : jsstring) :
  includes ((lead ++ pre) ++ v ++ post ++ rest) (pre ++ v ++ post) = true.
Proof.
  apply includes_spec. exists lead, rest. rewrite <- !app_assoc. reflexivity.
Qed.

(** The settings the workflow quotes. *)
Lemma generateWorkflow_quotes (config build : value) (text : jsstring) :
  generateWorkflow config = Some text ->
  get config (js "build") = Some build ->
  includes text (js "node-version: '" ++ to_string (get_opt build (js "nodeVersion"))
                 ++ js "'") = true
  /\ includes text (js "build-command: '" ++ to_string (get_opt build (js "command"))
                    ++ js "'") = true
  /\ includes text (js "output-directory: '"
                    ++ to_string (get_opt build (js "outputDir")) ++ js "'") = true.
Proof.
  unfold generateWorkflow. intros H Hbuild.
  destruct (get config (js "providers")) as [providers|]; [|discriminate].
  cbn [mbind option_bind] in H.
  destruct (get providers (js "production")) as [production|]; [|discriminate].
  cbn [mbind option_bind] in H. rewrite Hbuild in H. cbn [mbind option_bind] in H.
  unfold get_opt.
  destruct (get build (js "nodeVersion")) as [nodeVersion|]; [|discriminate].
  cbn [mbind option_bind] in H.
  destruct (get build (js "command")) as [command|]; [|discriminate].
  cbn [mbind option_bind] in H.
  destruct (get config (js "testing")) as [testing|]; [|discriminate].
  cbn [mbind option_bind] in H.
  destruct (get testing (js "command")) as [testCommand|]; [|discriminate].
  cbn [mbind option_bind] in H.
  destruct (get build (js "outputDir")) as [outputDir|]; [|discriminate].
  cbn [mbind option_bind] in H.
  destruct (get testing (js "enabled")) as [enabled|]; [|discriminate].
  cbn [mbind option_bind] in H.
  destruct (get config (js "advanced")) as [advanced|]; [|discriminate].
  cbn [mbind option_bind] in H.
  destruct (get advanced (js "caching")) as [caching|]; [|discriminate].
  cbn [mbind option_bind] in H.
  destruct (get advanced (js "securityScan")) as [securityScan|]; [|discriminate].
  cbn [mbind option_bind] in H.
  destruct (get advanced (js "metrics")) as [metrics|]; [|discriminate].
  cbn [mbind option_bind] in H. apply (inj Some) in H. subst text.
  cbn [default]. unfold id.
  repeat split.
  - do 2 apply includes_app_r.
    match goal with |- includes (?lit ++ _) _ = true =>
      change lit with ((js "'
      environment: ${{ github.event.inputs.environment || (github.ref == 'refs/heads/main' && 'production') || (github.ref == 'refs/heads/staging' && 'staging') || 'development' }}
      " ++ js "node-version: '"))
    end.
    change (js "'
      build-command: '") with (js "'" ++ js "
      build-command: '").
    rewrite <- (app_assoc (js "'") _ _).
    apply includes_framed.
  - do 4 apply includes_app_r.
    match goal with |- includes (?lit ++ _) _ = true =>
      change lit with ((js "'
      " ++ js "build-command: '"))
    end.
    change (js "'
      test-command: '") with (js "'" ++ js "
      test-command: '").
    rewrite <- (app_assoc (js "'") _ _).
    apply includes_framed.
  - do 8 apply includes_app_r.
    match goal with |- includes (?lit ++ _) _ = true =>
      change lit with ((js "'
      " ++ js "output-directory: '"))
    end.
    change (js "'
      enable-testing: ") with (js "'" ++ js "
      enable-testing: ").
    rewrite <- (app_assoc (js "'") _ _).
    apply includes_framed.
Qed.

(** X6. The project and build settings typed at the first six prompts
    are what a completed run writes: [.cicd/config.json] records the
    project name (the name of the working directory when the answer is
    empty), the first word of the project type and framework picked, the
    build command, the output directory and the Node.js version (with
    the defaults [npm run build], [dist] and [18] for empty answers), and
    the workflow quotes the same three build settings. *)
Theorem wizard_records_the_settings_typed
    (cwd_name name type framework command output version : jsstring)
    (rest : list jsstring) (ds : gset jsstring) (fs : gmap jsstring content)
    (secrets : list jsstring) (st' : wstate) :
  run cwd_name (name :: type :: framework :: command :: output :: version :: rest) ds fs
  = Done secrets st' ->
  let buildCommand := or_else command (js "npm run build") in
  let outputDir := or_else output (js "dist") in
  let nodeVersion := or_else version (js "18") in
  exists config workflow project build projectType frameworkPicked,
    files st' !! js ".cicd/config.json" = Some (FJson config)
    /\ files st' !! js ".github/workflows/deploy.yml" = Some (FText workflow)
    /\ get_opt config (js "project") = VObj project
    /\ get_opt config (js "build") = VObj build
    /\ projectType ∈ [js "web - Static website or SPA"; js "api - Backend API service";
                      js "fullstack - Full-stack application";
                      js "mobile - Mobile application";
                      js "desktop - Desktop application"]
    /\ select [js "web - Static website or SPA"; js "api - Backend API service";
               js "fullstack - Full-stack application";
               js "mobile - Mobile application";
               js "desktop - Desktop application"] type = Some projectType
    /\ select [js "react - React"; js "nextjs - Next.js"; js "vue - Vue.js";
               js "angular - Angular"; js "svelte - Svelte/SvelteKit";
               js "vanilla - Vanilla HTML/CSS/JS"; js "node - Node.js";
               js "python - Python"; js "dotnet - .NET"; js "other - Other/Custom"]
         framework = Some frameworkPicked
    /\ project = [(js "name", VStr (or_else name cwd_name));
                  (js "type", VStr (split_first (ch " ") projectType));
                  (js "framework", VStr (split_first (ch " ") frameworkPicked))]
    /\ build = [(js "command", VStr buildCommand);
                (js "outputDir", VStr outputDir);
                (js "nodeVersion", VStr nodeVersion)]
    /\ includes workflow (js "build-command: '" ++ buildCommand ++ js "'") = true
    /\ includes workflow (js "output-directory: '" ++ outputDir ++ js "'") = true
    /\ includes workflow (js "node-version: '" ++ nodeVersion ++ js "'") = true.
Proof.
  intros H. cbv zeta. unfold run, main in H.
  destruct (select_defined
              [js "web - Static website or SPA"; js "api - Backend API service";
               js "fullstack - Full-stack application";
               js "mobile - Mobile application";
               js "desktop - Desktop application"] type) as [projectType HprojectType];
    [discriminate|].
  destruct (select_defined
              [js "react - React"; js "nextjs - Next.js"; js "vue - Vue.js";
               js "angular - Angular"; js "svelte - Svelte/SvelteKit";
               js "vanilla - Vanilla HTML/CSS/JS"; js "node - Node.js";
               js "python - Python"; js "dotnet - .NET"; js "other - Other/Custom"]
              framework) as [frameworkPicked HframeworkPicked];
    [discriminate|].
  do 5 bind_step H.
  rewrite question_cons in Hs. injection Hs as <- <-.
  rewrite selectOption_cons, HprojectType in Hs0. injection Hs0 as <- <-.
  rewrite selectOption_cons, HframeworkPicked in Hs1. injection Hs1 as <- <-.
  cbn [opt_value first_word] in H.
  rewrite question_cons in Hs2. injection Hs2 as <- <-.
  rewrite question_cons in Hs3. injection Hs3 as <- <-.
  bind_step H. rewrite question_cons in Hs. injection Hs as <- <-.
  bind_step H.
  bind_step H. destruct a0 as [testCommand coverageThreshold].
  do 19 bind_step H.
  repeat match goal with
  | Hw : mkdir _ _ = Done _ _ |- _ => fs_step
  | Hw : writeFileSync _ _ _ = Done _ _ |- _ => fs_step
  | Hw : try_ (Some _) _ = Done _ _ |- _ => unfold try_ in Hw; injection Hw as <- <-
  | Hw : try_ ?o _ = Done _ _ |- _ =>
      unfold try_ in Hw; destruct o eqn:?; [|discriminate Hw];
      injection Hw as <- <-
  end.
  match goal with Hw : write_env_examples _ _ = Done _ _ |- _ =>
    pose proof (write_env_examples_others _ _ _ _ _ Hw config_json_is_no_example) as Ec;
    pose proof (write_env_examples_others _ _ _ _ _ Hw deploy_yml_is_no_example) as Ed
  end.
  cbn [files] in Ec, Ed.
  rewrite lookup_insert_ne in Ec by (intros E; vm_compute in E; discriminate E).
  rewrite lookup_insert_eq in Ec, Ed.
  match type of Heqo0 with generateWorkflow ?c = _ =>
    assert (Hbuild : get c (js "build")
                     = Some (VObj [(js "command", VStr (or_else command (js "npm run build")));
                                   (js "outputDir", VStr (or_else output (js "dist")));
                                   (js "nodeVersion", VStr (or_else version (js "18")))]))
      by (vm_compute; reflexivity);
    assert (Hproject : get_opt (jsonify c) (js "project")
                       = VObj [(js "name", VStr (or_else name cwd_name));
                               (js "type", VStr (split_first (ch " ") projectType));
                               (js "framework",
                                VStr (split_first (ch " ") frameworkPicked))])
      by (vm_compute; reflexivity);
    assert (Hjbuild : get_opt (jsonify c) (js "build")
                     = VObj [(js "command", VStr (or_else command (js "npm run build")));
                             (js "outputDir", VStr (or_else output (js "dist")));
                             (js "nodeVersion", VStr (or_else version (js "18")))])
      by (vm_compute; reflexivity)
  end.
  destruct (generateWorkflow_quotes _ _ _ Heqo0 Hbuild) as (Hnode & Hcommand & Houtput).
  eexists _, _, _, _, projectType, frameworkPicked.
  split; [exact Ec|]. split; [exact Ed|].
  split; [exact Hproject|]. split; [exact Hjbuild|].
  split; [eapply select_elem; exact HprojectType|].
  split; [exact HprojectType|]. split; [exact HframeworkPicked|].
  split; [reflexivity|]. split; [reflexivity|].
  split; [exact Hcommand|]. split; [exact Houtput|exact Hnode].
Qed.

Lemma wizard_records_the_settings_witness :
  exists secrets st config,
    run (js "shop") Examples.slack_session ∅ ∅ = Done secrets st
    /\ files st !! js ".cicd/config.json" = Some (FJson config)
    /\ get_opt (get_opt config (js "build")) (js "nodeVersion") = VStr (js "20").
Proof.
  destruct (run (js "shop") Examples.slack_session ∅ ∅) as [secrets st|st|] eqn:H.
  - destruct (wizard_records_the_settings_typed
                (js "shop") (js "shop") (js "1") (js "1") (js "npm run build")
                (js "dist") (js "20")
                (map js [ "n"; "1"; "shop-prod"; "shop"; "n"; "n";
                          "y"; "y"; "y"; "y"; "1" ]) ∅ ∅ secrets st H)
      as (config & workflow & project & build & pt & fw & Hc & _ & _ & Hb & _ & _ & _
          & _ & -> & _).
    exists secrets, st, config. split; [reflexivity|]. split; [exact Hc|].
    rewrite Hb. reflexivity.
  - exfalso. vm_compute in H. discriminate H.
  - exfalso. vm_compute in H. discriminate H.
Defined.

(** ** The setup wizard: no secret is listed without need *)

Lemma is_str_eq (v : value) (t : jsstring) : is_str v t = true -> v = VStr t.
Proof.
  destruct v; try discriminate. cbn [is_str]. intros H.
  apply str_eqb_eq in H. subst. reflexivity.
Qed.

(** What one visit adds comes from the row of its provider. *)
Lemma provider_secrets_adds (s s' : list jsstring) (p : value) (x : jsstring) :
  provider_secrets s p = Some s' -> x ∈ s' -> x ∉ s ->
  exists t,
    get p (js "type") = Some (VStr t)
    /\ ((t = js "firebase" /\ x = js "FIREBASE_TOKEN")
        \/ (t = js "aws" /\ (x = js "AWS_ACCESS_KEY_ID" \/ x = js "AWS_SECRET_ACCESS_KEY"))
        \/ (t = js "azure" /\ x = js "AZURE_CREDENTIALS")
        \/ (t = js "vercel" /\ x = js "VERCEL_TOKEN")
        \/ (t = js "netlify"
            /\ (x = js "NETLIFY_AUTH_TOKEN" \/ x = js "NETLIFY_SITE_ID"))).
Proof.
  unfold provider_secrets.
  destruct (get p (js "type")) as [ty|]; cbn [mbind option_bind]; [|discriminate].
  intros H Hx Hout. apply (inj Some) in H. subst s'.
  destruct (is_str ty (js "firebase")) eqn:E1.
  { apply is_str_eq in E1. subst ty. exists (js "firebase"). split; [reflexivity|].
    apply set_add_elem in Hx as [->|Hx]; [|contradiction]. left. auto. }
  destruct (is_str ty (js "aws")) eqn:E2.
  { apply is_str_eq in E2. subst ty. exists (js "aws"). split; [reflexivity|].
    apply set_add_elem in Hx as [->|Hx]; [right; left; auto|].
    apply set_add_elem in Hx as [->|Hx]; [|contradiction]. right. left. auto. }
  destruct (is_str ty (js "azure")) eqn:E3.
  { apply is_str_eq in E3. subst ty. exists (js "azure"). split; [reflexivity|].
    apply set_add_elem in Hx as [->|Hx]; [|contradiction]. right. right. left. auto. }
  destruct (is_str ty (js "vercel")) eqn:E4.
  { apply is_str_eq in E4. subst ty. exists (js "vercel"). split; [reflexivity|].
    apply set_add_elem in Hx as [->|Hx]; [|contradiction].
    right. right. right. left. auto. }
  destruct (is_str ty (js "netlify")) eqn:E5.
  { apply is_str_eq in E5. subst ty. exists (js "netlify"). split; [reflexivity|].
    apply set_add_elem in Hx as [->|Hx]; [do 4 right; auto|].
    apply set_add_elem in Hx as [->|Hx]; [|contradiction]. do 4 right. auto. }
  contradiction.
Qed.

Lemma forEach_secrets_origin (ps : list value) (s s' : list jsstring) (x : jsstring) :
  forEach_secrets s ps = Some s' -> x ∈ s' ->
  x ∈ s \/ exists p s0 s1, p ∈ ps /\ provider_secrets s0 p = Some s1
                           /\ x ∈ s1 /\ x ∉ s0.
Proof.
  revert s. induction ps as [|p ps IH]; cbn [forEach_secrets]; intros s H Hx.
  - apply (inj Some) in H. subst. left. exact Hx.
  - destruct (provider_secrets s p) as [s1|] eqn:Hp; cbn [mbind option_bind] in H;
      [|discriminate].
    destruct (IH _ H Hx) as [Hin|(q & s0 & s2 & Hq & Hs & Hx2 & Hout)].
    + destruct (decide (x ∈ s)) as [Hs|Hs]; [left; exact Hs|].
      right. exists p, s, s1. split; [apply list_elem_of_here|auto].
    + right. exists q, s0, s2. split; [apply list_elem_of_further, Hq|auto].
Qed.

(** The rows of the table of provider secrets name one provider each. *)
Ltac other_row :=
  intros t Hr;
  repeat match goal with
         | H : _ \/ _ |- _ => destruct H
         | H : _ /\ _ |- _ => destruct H
         end;
  first [assumption
        | match goal with H : js _ = js _ |- _ =>
            vm_compute in H; discriminate H end].

(** X7. [getRequiredSecrets] lists nothing without need: a provider
    secret is listed only when some environment is deployed with its
    provider, [SLACK_WEBHOOK] exactly when [notifications.type] is
    ['slack'] and [DISCORD_WEBHOOK] exactly when it is ['discord']. *)
Theorem required_secrets_are_needed (config : value) (secrets : list jsstring) :
  getRequiredSecrets config = Some secrets ->
  (js "FIREBASE_TOKEN" ∈ secrets -> has_provider config (js "firebase"))
  /\ (js "AWS_ACCESS_KEY_ID" ∈ secrets \/ js "AWS_SECRET_ACCESS_KEY" ∈ secrets ->
      has_provider config (js "aws"))
  /\ (js "AZURE_CREDENTIALS" ∈ secrets -> has_provider config (js "azure"))
  /\ (js "VERCEL_TOKEN" ∈ secrets -> has_provider config (js "vercel"))
  /\ (js "NETLIFY_AUTH_TOKEN" ∈ secrets \/ js "NETLIFY_SITE_ID" ∈ secrets ->
      has_provider config (js "netlify"))
  /\ (js "SLACK_WEBHOOK" ∈ secrets
      <-> get_opt (get_opt config (js "notifications")) (js "type") = VStr (js "slack"))
  /\ (js "DISCORD_WEBHOOK" ∈ secrets
      <-> get_opt (get_opt config (js "notifications")) (js "type")
          = VStr (js "discord")).
Proof.
  intros H. unfold getRequiredSecrets in H.
  destruct (get config (js "providers")) as [providers|] eqn:Hp;
    cbn [mbind option_bind] in H; [|discriminate].
  destruct (Object_values providers) as [values|] eqn:Hv;
    cbn [mbind option_bind] in H; [|discriminate].
  destruct (forEach_secrets [] values) as [found|] eqn:Hf;
    cbn [mbind option_bind] in H; [|discriminate].
  destruct (get config (js "notifications")) as [n|] eqn:Hn;
    cbn [mbind option_bind] in H; [|discriminate].
  destruct (get n (js "type")) as [ty|] eqn:Hty;
    cbn [mbind option_bind] in H; [|discriminate].
  apply (inj Some) in H.
  unfold get_opt. rewrite Hn. cbn [default]. unfold id. rewrite Hty. cbn [default].
  unfold id.
  (* what was found comes from a provider *)
  assert (Hfound : forall x, x ∈ found ->
            exists t, has_provider config t
              /\ ((t = js "firebase" /\ x = js "FIREBASE_TOKEN")
                  \/ (t = js "aws" /\ (x = js "AWS_ACCESS_KEY_ID"
                                       \/ x = js "AWS_SECRET_ACCESS_KEY"))
                  \/ (t = js "azure" /\ x = js "AZURE_CREDENTIALS")
                  \/ (t = js "vercel" /\ x = js "VERCEL_TOKEN")
                  \/ (t = js "netlify"
                      /\ (x = js "NETLIFY_AUTH_TOKEN" \/ x = js "NETLIFY_SITE_ID")))).
  { intros x Hx.
    destruct (forEach_secrets_origin _ _ _ x Hf Hx)
      as [Hnil|(p & s0 & s1 & Hin & Hs & Hx1 & Hout)]; [inversion Hnil|].
    destruct (provider_secrets_adds _ _ _ _ Hs Hx1 Hout) as (t & Ht & Hrow).
    exists t. split; [|exact Hrow].
    exists providers, values, p. auto. }
  (* a claim about one name is settled by comparing the names *)
  assert (Hprov : forall x t0,
            x ∈ secrets -> x <> js "SLACK_WEBHOOK" -> x <> js "DISCORD_WEBHOOK" ->
            (forall t, (t = js "firebase" /\ x = js "FIREBASE_TOKEN")
                  \/ (t = js "aws" /\ (x = js "AWS_ACCESS_KEY_ID"
                                       \/ x = js "AWS_SECRET_ACCESS_KEY"))
                  \/ (t = js "azure" /\ x = js "AZURE_CREDENTIALS")
                  \/ (t = js "vercel" /\ x = js "VERCEL_TOKEN")
                  \/ (t = js "netlify"
                      /\ (x = js "NETLIFY_AUTH_TOKEN" \/ x = js "NETLIFY_SITE_ID"))
                  -> t = t0) ->
            has_provider config t0).
  { intros x t0 Hx Hs Hd Hrow.
    assert (Hxf : x ∈ found).
    { subst secrets.
      destruct (is_str ty (js "slack")); [apply set_add_elem in Hx as [->|Hx]; congruence|].
      destruct (is_str ty (js "discord"));
        [apply set_add_elem in Hx as [->|Hx]; congruence|exact Hx]. }
    destruct (Hfound x Hxf) as (t & Hhas & Hr). rewrite <- (Hrow t Hr). exact Hhas. }
  assert (Hnot : forall x, x ∈ found -> x <> js "SLACK_WEBHOOK" /\ x <> js "DISCORD_WEBHOOK").
  { intros x Hx. destruct (Hfound x Hx) as (t & _ & Hr).
    split; intros ->;
      repeat match goal with
             | H : _ \/ _ |- _ => destruct H
             | H : _ /\ _ |- _ => destruct H
             | H : js _ = js _ |- _ => vm_compute in H; discriminate H
             end. }
  split; [|split; [|split; [|split; [|split; [|split]]]]].
  - intros Hx. apply (Hprov _ _ Hx); [discriminate|discriminate|other_row].
  - intros [Hx|Hx]; apply (Hprov _ _ Hx); try discriminate; other_row.
  - intros Hx. apply (Hprov _ _ Hx); [discriminate|discriminate|other_row].
  - intros Hx. apply (Hprov _ _ Hx); [discriminate|discriminate|other_row].
  - intros [Hx|Hx]; apply (Hprov _ _ Hx); try discriminate; other_row.
  - subst secrets. destruct (is_str ty (js "slack")) eqn:E.
    + apply is_str_eq in E. subst ty. split; [reflexivity|].
      intros _. apply set_add_elem. left. reflexivity.
    + split.
      * intros Hx.
        assert (Hxf : js "SLACK_WEBHOOK" ∈ found).
        { destruct (is_str ty (js "discord")); [|exact Hx].
          apply set_add_elem in Hx as [Hx|Hx]; [vm_compute in Hx; discriminate Hx|exact Hx]. }
        destruct (Hnot _ Hxf) as [Hc _]. congruence.
      * intros ->. cbn [is_str] in E. rewrite str_eqb_refl in E. discriminate E.
  - subst secrets. destruct (is_str ty (js "slack")) eqn:E.
    + apply is_str_eq in E. subst ty. split.
      * intros Hx. apply set_add_elem in Hx as [Hx|Hx];
          [vm_compute in Hx; discriminate Hx|].
        destruct (Hnot _ Hx) as [_ Hc]. congruence.
      * intros Hc. vm_compute in Hc. discriminate Hc.
    + destruct (is_str ty (js "discord")) eqn:E'.
      * apply is_str_eq in E'. subst ty. split; [reflexivity|].
        intros _. apply set_add_elem. left. reflexivity.
      * split.
        -- intros Hx. destruct (Hnot _ Hx) as [_ Hc]. congruence.
        -- intros ->. cbn [is_str] in E'. rewrite str_eqb_refl in E'. discriminate E'.
Qed.

Lemma required_secrets_are_needed_witness :
  has_provider Examples.three_aws_environments (js "aws").
Proof.
  destruct (required_secrets_are_needed Examples.three_aws_environments
              [js "AWS_ACCESS_KEY_ID"; js "AWS_SECRET_ACCESS_KEY"; js "SLACK_WEBHOOK"])
    as (_ & Haws & _).
  - vm_compute. reflexivity.
  - apply Haws. left. apply list_elem_of_here.
Defined.

(** ** The documentation generator: lines that declare nothing *)

(** [^] only matches at the start of the input. *)
Lemma exec_from_bol_later (total : nat) (r : re) (s : jsstring) (idx : nat) :
  length s < total -> exec_from total (Seq Bol r) s idx = None.
Proof.
  revert idx. induction s as [|x s IH]; intros idx Hlen.
  - cbn [exec_from m]. destruct (Nat.eqb_spec (length (@nil N)) total); [lia|reflexivity].
  - rewrite exec_from_unfold. cbn [m].
    destruct (Nat.eqb_spec (length (x :: s)) total); [lia|].
    apply IH. cbn [length] in Hlen. lia.
Qed.

(** X8. A line of a props interface whose first non-blank character is
    not a word character (a comment, an index signature such as
    [[key: string]: any], a closing bracket) declares no prop:
    [parseComponent] skips it without a trace. *)
Theorem parseLine_skips_what_is_no_declaration
    (blanks : jsstring) (x : N) (rest : jsstring) :
  forallb is_space blanks = true ->
  is_space x = false -> is_word x = false ->
  parseLine (blanks ++ x :: rest) = [].
Proof.
  intros Hblanks Hsp Hw. unfold parseLine, str_match.
  assert (Hnone : exec_from (length (blanks ++ x :: rest)) propRe
                    (blanks ++ x :: rest) 0 = None); [|rewrite Hnone; reflexivity].
  rewrite exec_from_unfold. unfold propRe at 1.
  rewrite m_seq, m_bol by reflexivity.
  rewrite m_seq, m_star_class.
  rewrite star_class_fails.
  - destruct (blanks ++ x :: rest) as [|y s] eqn:E.
    + destruct blanks; discriminate E.
    + apply exec_from_bol_later. cbn [length]. lia.
  - exact Hblanks.
  - cbn [stops]. rewrite Hsp. reflexivity.
  - assert (Htails : forall w', forallb is_space w' = true ->
              m (length (blanks ++ x :: rest))
                (Seq (Group 1 (Plus (Char is_word)))
                   (Seq (Opt (Group 2 (Lit (ch "?"))))
                      (Seq (Lit (ch ":"))
                         (Seq (Star (Char is_space))
                            (Group 3 (Plus (NotLit (ch ";"))))))))
                (w' ++ x :: rest) no_caps (fun s' c' => Some (s', c')) = None).
    { intros w' Hw'. rewrite m_seq. cbn [m]. unfold Plus. rewrite m_seq.
      destruct w' as [|y w']; cbn [app].
      - apply m_char_no, Hw.
      - apply m_char_no. cbn [forallb] in Hw'. apply andb_true_iff in Hw' as [Hy _].
        destruct (is_word y) eqn:E; [|reflexivity].
        apply word_not_space in E. congruence. }
    clear -Hblanks Htails. induction blanks as [|y w IH]; cbn [fails_on_tails].
    + apply (Htails []). reflexivity.
    + split; [apply Htails, Hblanks|].
      cbn [forallb] in Hblanks. apply andb_true_iff in Hblanks as [_ Hb].
      apply IH; [exact Hb|]. exact Htails.
Qed.

Lemma parseLine_skips_witness :
  parseLine (js "  [key: string]: unknown;") = [].
Proof.
  apply (parseLine_skips_what_is_no_declaration (js "  ") (ch "[")
           (js "key: string]: unknown;")); reflexivity.
Defined.

(** ** The documentation generator: the description *)

(** X9. The description of a component is read from the first line of
    its JSDoc comment, and it keeps the asterisk that opens that line:
    for a comment [/**], line break, [ * text] the description is
    [* text] (without white space at its end), not [text]. *)
Theorem jsdoc_description_keeps_the_asterisk
    (name code text tail : jsstring) :
  m_text <$> str_match docRe code
  = Some (js "/**" ++ [10%N] ++ js " * " ++ text ++ 10%N :: tail) ->
  forallb (fun c => negb (unit_eqb c (ch "@")) && negb (unit_eqb c 10%N)) text = true ->
  description (parseComponent name code) = trim (js "* " ++ text).
Proof.
  intros Hdoc Htext. unfold parseComponent. cbn [description].
  destruct (str_match docRe code) as [doc|]; [|discriminate Hdoc].
  cbn [fmap option_fmap option_map] in Hdoc. apply (inj Some) in Hdoc. rewrite Hdoc.
  assert (Hm : str_match descRe
                 (js "/**" ++ [10%N] ++ js " * " ++ text ++ 10%N :: tail)
               = Some (MatchResult 2 (js "*" ++ [10%N] ++ js " " ++ js "* " ++ text)
                         (set_cap 1 (js "* " ++ text) no_caps) (10%N :: tail))).
  { unfold str_match. set (total := length _).
    change (js "/**" ++ [10%N] ++ js " * " ++ text ++ 10%N :: tail)
      with (ch "/" :: ch "*" :: ch "*" :: 10%N :: 32%N :: ch "*" :: 32%N
            :: text ++ 10%N :: tail).
    rewrite exec_from_unfold. unfold descRe at 1. rewrite m_seq.
    unfold Lit at 1. rewrite m_char_no by reflexivity.
    rewrite exec_from_unfold. unfold descRe at 1. rewrite m_seq.
    unfold Lit at 1. rewrite m_char by reflexivity.
    unfold Plus at 1. rewrite !m_seq, m_char_no by reflexivity.
    rewrite exec_from_unfold. unfold descRe at 1. rewrite m_seq.
    unfold Lit at 1. rewrite m_char by reflexivity.
    rewrite m_seq.
    rewrite (m_plus total is_space 10 [32%N]
               (ch "*" :: 32%N :: text ++ 10%N :: tail) no_caps _
               (10%N :: tail, set_cap 1 (js "* " ++ text) no_caps));
      [|reflexivity|reflexivity|reflexivity|].
    - change (ch "*" :: 10%N :: 32%N :: ch "*" :: 32%N :: text ++ 10%N :: tail)
        with ((ch "*" :: 10%N :: 32%N :: ch "*" :: 32%N :: text) ++ 10%N :: tail).
      rewrite take_consumed. reflexivity.
    - change (ch "*" :: 32%N :: text ++ 10%N :: tail)
        with (ch "*" :: (32%N :: text) ++ 10%N :: tail).
      apply m_group_plus; [reflexivity| |reflexivity|reflexivity].
      cbn [forallb]. rewrite Htext. reflexivity. }
  rewrite Hm. cbn [m_caps]. unfold set_cap. cbn [Nat.eqb default]. reflexivity.
Qed.

Lemma jsdoc_description_witness :
  description (parseComponent (js "Button") (js "/**
 * Primary button.
 */
export const Button = () => null;
"))
  = js "* Primary button.".
Proof.
  rewrite (jsdoc_description_keeps_the_asterisk (js "Button") _ (js "Primary button.")
             (js " */")).
  - vm_compute. reflexivity.
  - vm_compute. reflexivity.
  - vm_compute. reflexivity.
Defined.

(** ** The admin header: the breadcrumb trail *)

Section BreadcrumbTrail.
Import Breadcrumb.

Variable toUpperCase : jsstring -> jsstring.

Lemma join_empty_separator (items : list jsstring) : join [] items = concat items.
Proof.
  induction items as [|a [|b items] IH].
  - reflexivity.
  - cbn [join concat]. rewrite app_nil_r. reflexivity.
  - change (join [] (a :: b :: items)) with (a ++ [] ++ join [] (b :: items)).
    rewrite IH. reflexivity.
Qed.

Lemma includes_concat (items : list jsstring) (item : jsstring) :
  item ∈ items -> includes (concat items) item = true.
Proof.
  intros Hin. apply list_elem_of_split in Hin as (l1 & l2 & ->).
  apply includes_spec. exists (concat l1), (concat l2).
  rewrite concat_app. reflexivity.
Qed.

(** The path of the parts, each after a slash. *)
Lemma slashed_join (part : jsstring) (parts : list jsstring) :
  js "/" ++ join (js "/") (part :: parts)
  = concat (map (app (js "/")) (part :: parts)).
Proof.
  revert part. induction parts as [|q parts IH]; intros part.
  - cbn [join map concat]. rewrite app_nil_r. reflexivity.
  - change (join (js "/") (part :: q :: parts))
      with (part ++ js "/" ++ join (js "/") (q :: parts)).
    rewrite IH. cbn [map concat]. rewrite <- !app_assoc. reflexivity.
Qed.

(** The link of the last but one part, and the span of the last. *)
Lemma trail_end (currentPath : jsstring) (front : list jsstring)
    (parent page : jsstring) :
  let along := currentPath ++ concat (map (app (js "/")) (front ++ [parent])) in
  exists before,
    trail toUpperCase currentPath (front ++ [parent; page])
    = before
      ++ [jsq "<a href=~" ++ along ++ jsq "/~>" ++ label_of toUpperCase parent
          ++ js "</a>";
          jsq "<span class=~breadcrumb-separator~>/</span>";
          jsq "<span class=~breadcrumb-current~>" ++ label_of toUpperCase page
          ++ js "</span>"].
Proof.
  cbv zeta. revert currentPath. induction front as [|part front IH]; intros currentPath.
  - exists [jsq "<span class=~breadcrumb-separator~>/</span>"].
    cbn [app trail map concat]. rewrite !app_nil_r. reflexivity.
  - destruct (IH (currentPath ++ js "/" ++ part)) as [before Hbefore].
    exists ([jsq "<span class=~breadcrumb-separator~>/</span>";
             jsq "<a href=~" ++ (currentPath ++ js "/" ++ part) ++ jsq "/~>"
             ++ label_of toUpperCase part ++ js "</a>"] ++ before).
    change ((part :: front) ++ [parent; page]) with (part :: front ++ [parent; page]).
    cbn [trail]. rewrite Hbefore.
    destruct (front ++ [parent; page]) as [|x xs] eqn:E;
      [destruct front; discriminate E|].
    cbn [map concat app]. rewrite <- !app_assoc. reflexivity.
Qed.

(** X10. For a page at least two directories deep, [createBreadcrumb]
    returns a trail that opens with the [Home] link, or with the [Back]
    button when there are more than two parts; that ends with the last
    part as the current page, which is never a link; and in which the
    link of the last but one part and the [Back] button lead to the same
    address, the path of all parts but the last.  With fewer than two
    parts it returns [null]. *)
Theorem breadcrumb_back_is_the_parent_link
    (front : list jsstring) (parent page : jsstring) :
  let target := js "/" ++ join (js "/") (front ++ [parent]) ++ js "/" in
  (exists html before,
     createBreadcrumb toUpperCase (front ++ [parent; page]) = Some html
     /\ html = before ++ jsq "<span class=~breadcrumb-current~>"
               ++ label_of toUpperCase page ++ js "</span>"
     /\ includes html (jsq "<a href=~" ++ target ++ jsq "~>"
                       ++ label_of toUpperCase parent ++ js "</a>") = true
     /\ (front <> [] ->
         startsWith html (jsq "<a href=~" ++ target ++ jsq "~ class=~breadcrumb-back~>")
         = true)
     /\ (front = [] -> startsWith html (jsq "<a href=~/~>Home</a>") = true))
  /\ createBreadcrumb toUpperCase [] = None
  /\ createBreadcrumb toUpperCase [page] = None.
Proof.
  cbv zeta. split; [|split; reflexivity].
  destruct (trail_end [] front parent page) as [before Htrail]. cbv zeta in Htrail.
  cbn [app] in Htrail.
  assert (Htarget : js "/" ++ join (js "/") (front ++ [parent]) ++ js "/"
                    = concat (map (app (js "/")) (front ++ [parent])) ++ js "/").
  { destruct (front ++ [parent]) as [|x xs] eqn:E; [destruct front; discriminate E|].
    rewrite app_assoc, slashed_join. reflexivity. }
  unfold createBreadcrumb.
  assert (Hlen : (length (front ++ [parent; page]) <=? 1) = false).
  { apply Nat.leb_gt. rewrite length_app. cbn [length]. lia. }
  rewrite Hlen, join_empty_separator. unfold breadcrumbItems. rewrite Htrail.
  eexists _,
    (concat (if 2 <? length (front ++ [parent; page])
             then [backButton (front ++ [parent; page])] else [])
     ++ jsq "<a href=~/~>Home</a>" ++ concat before
     ++ (jsq "<a href=~" ++ concat (map (app (js "/")) (front ++ [parent]))
         ++ jsq "/~>" ++ label_of toUpperCase parent ++ js "</a>")
     ++ jsq "<span class=~breadcrumb-separator~>/</span>").
  split; [reflexivity|]. split; [|split; [|split]].
  - rewrite !concat_app. cbn [concat]. rewrite !app_nil_r, <- !app_assoc. reflexivity.
  - apply includes_concat. rewrite Htarget.
    rewrite !elem_of_app. right. right. right.
    rewrite <- app_assoc.
    change (jsq "/~>") with (js "/" ++ jsq "~>"). rewrite <- !app_assoc.
    apply list_elem_of_here.
  - intros Hfront.
    assert (Hdeep : (2 <? length (front ++ [parent; page])) = true).
    { apply Nat.ltb_lt. rewrite length_app. cbn [length].
      destruct front; [congruence|cbn [length]; lia]. }
    rewrite Hdeep. cbn [app concat]. unfold backButton.
    replace (removelast (front ++ [parent; page])) with (front ++ [parent]).
    + rewrite <- !app_assoc. apply startsWith_spec. eexists.
      rewrite <- !app_assoc. reflexivity.
    + change [parent; page] with ([parent] ++ [page]).
      rewrite app_assoc, removelast_last. reflexivity.
  - intros ->. cbn [app length Nat.ltb Nat.leb concat]. apply startsWith_app.
Qed.

End BreadcrumbTrail.

(** ** The documentation generator: scanning for component files *)

Section ScanComponents.
Import DocScan Trees.

Variable path_join : jsstring -> jsstring -> jsstring.

Lemma node_ind_nested (P : node -> Prop) :
  P File ->
  (forall entries, Forall (fun e => P e.2) entries -> P (Dir entries)) ->
  forall n, P n.
Proof.
  intros HF HD. fix IH 1. intros [|entries]; [exact HF|].
  apply HD. induction entries as [|[f n] entries IHes]; constructor;
    [apply IH|exact IHes].
Qed.

Lemma visit_is_a_filter (n : node) :
  forall dir file found,
    visit path_join dir file n found
    = found ++ kept (files_below path_join dir file n).
Proof.
  unfold kept.
  induction n as [|entries IH] using node_ind_nested; intros dir file found.
  - cbn [visit files_below]. rewrite filter_cons. cbn [snd].
    destruct (is_component file) eqn:E.
    + rewrite decide_True by reflexivity. reflexivity.
    + rewrite decide_False by discriminate. cbn [filter map].
      rewrite filter_nil. cbn [map]. rewrite app_nil_r. reflexivity.
  - cbn [visit files_below]. revert found.
    induction IH as [|[f n'] entries Hn' _ IHentries]; intros found.
    + rewrite filter_nil. cbn [map]. rewrite app_nil_r. reflexivity.
    + cbn [snd] in Hn'. rewrite Hn', IHentries.
      rewrite filter_app, map_app, app_assoc. reflexivity.
Qed.

Lemma scanComponents_is_a_filter (dir : jsstring) (entries : list (jsstring * node))
    (found : list jsstring) :
  scanComponents path_join dir entries found
  = found ++ kept (files_in path_join dir entries).
Proof.
  revert found. induction entries as [|[f n] entries IH]; intros found.
  - unfold kept. cbn [scanComponents files_in]. rewrite filter_nil. cbn [map].
    rewrite app_nil_r. reflexivity.
  - cbn [scanComponents files_in]. rewrite IH, visit_is_a_filter.
    unfold kept. rewrite filter_app, map_app, app_assoc. reflexivity.
Qed.

(** X11. [scanComponents] returns, after what was found before, the
    paths of exactly the files of the tree whose name ends with [.tsx] or
    [.jsx] and contains neither [.test.] nor [.stories.], each once per
    file and in the order of a depth-first walk: no test or story file is
    ever documented, and no component file below the directory is
    missed. *)
Theorem scanComponents_finds_the_component_files
    (dir : jsstring) (entries : list (jsstring * node)) (found : list jsstring) :
  let result := scanComponents path_join dir entries found in
  result = found ++ kept (files_in path_join dir entries)
  /\ (forall path file,
        (path, file) ∈ files_in path_join dir entries ->
        (endsWith file (js ".tsx") = true \/ endsWith file (js ".jsx") = true) ->
        includes file (js ".test.") = false ->
        includes file (js ".stories.") = false ->
        path ∈ result)
  /\ (forall path,
        path ∈ result -> path ∈ found \/
        exists file,
          (path, file) ∈ files_in path_join dir entries
          /\ (endsWith file (js ".tsx") = true \/ endsWith file (js ".jsx") = true)
          /\ includes file (js ".test.") = false
          /\ includes file (js ".stories.") = false).
Proof.
  cbv zeta. rewrite scanComponents_is_a_filter. split; [reflexivity|].
  unfold kept. split.
  - intros path file Hin Hext Htest Hstory.
    apply elem_of_app. right. apply list_elem_of_fmap. exists (path, file).
    split; [reflexivity|]. apply list_elem_of_filter. split; [|exact Hin].
    cbn [snd]. unfold is_component. rewrite Htest, Hstory.
    destruct Hext as [-> | ->]; [reflexivity|rewrite orb_true_r; reflexivity].
  - intros path Hin. apply elem_of_app in Hin as [Hin|Hin]; [left; exact Hin|].
    right. apply list_elem_of_fmap in Hin as ([p file] & -> & Hin).
    apply list_elem_of_filter in Hin as [Hc Hin]. cbn [fst snd] in *.
    exists file. split; [exact Hin|].
    unfold is_component in Hc. apply andb_true_iff in Hc as [Hext Hno].
    apply andb_true_iff in Hno as [Ht Hs].
    apply negb_true_iff in Ht. apply negb_true_iff in Hs.
    apply orb_true_iff in Hext. auto.
Qed.

End ScanComponents.

(** ** The documentation generator: from the interface to the page *)

Section ComponentPage.
Import DocPage.

Variable toLowerCase : jsstring -> jsstring.

(** The props read from a flat block. *)
Lemma flat_block_props
    (name pre sep component opening rest : jsstring)
    (fields : list field) (closing : jsstring) :
  let code := pre ++ block sep component opening fields closing ++ rest in
  indexOf code (js "interface") = Some (length pre) ->
  truthy sep = true -> forallb is_space sep = true ->
  truthy component = true -> forallb is_word component = true ->
  forallb is_space opening = true ->
  forallb well_formed fields = true ->
  forallb is_blank closing = true ->
  props (parseComponent name code) = map declared fields.
Proof.
  cbv zeta. intros Hfirst Hsne Hsep Hne Hword Hopening Hwf Hclosing.
  unfold parseComponent. cbn [props]. unfold str_match at 1.
  unfold propsRe at 1. rewrite (exec_from_skip _ _ _ _ _ _ Hfirst).
  fold propsRe. rewrite drop_app_length.
  assert (Hb : exists x tail,
             block sep component opening fields closing ++ rest = x :: tail).
  { unfold block. eexists _, _. reflexivity. }
  destruct Hb as (x & tail & Hb).
  pose proof (propsRe_on_block
                (length (pre ++ block sep component opening fields closing ++ rest))
                sep component opening rest fields closing
                Hsne Hsep Hne Hword Hopening Hwf Hclosing) as Hm.
  rewrite Hb in *. cbn [exec_from]. rewrite Hm. cbn [m_caps].
  unfold set_cap. cbn [Nat.eqb default]. unfold id.
  cbn [split]. change (unit_eqb 10 10) with true. cbn iota.
  rewrite (split_body fields closing Hwf Hclosing).
  rewrite filter_cons_False by (vm_compute; discriminate).
  rewrite (filter_declarations fields closing Hwf Hclosing).
  apply parse_declarations, Hwf.
Qed.

Lemma rows_appended (ps : list prop) (doc : jsstring) :
  fold_left (fun doc p => doc ++ row p) ps doc = doc ++ concat (map row ps).
Proof.
  revert doc. induction ps as [|p ps IH]; intros doc; cbn [fold_left map concat].
  - rewrite app_nil_r. reflexivity.
  - rewrite IH, <- app_assoc. reflexivity.
Qed.

Lemma includes_app_l (s b t : jsstring) :
  includes s t = true -> includes (s ++ b) t = true.
Proof.
  rewrite !includes_spec. intros (u & v & ->). exists u, (v ++ b).
  rewrite <- !app_assoc. reflexivity.
Qed.

Lemma includes_prefix (t b : jsstring) : includes (t ++ b) t = true.
Proof. apply includes_spec. exists [], b. reflexivity. Qed.

(** The page has the row of every prop of the component. *)
Lemma page_has_the_rows (info : componentInfo) (p : prop) :
  p ∈ props info -> includes (generateComponentDoc toLowerCase info) (row p) = true.
Proof.
  intros Hin. unfold generateComponentDoc.
  assert (Hlen : (0 <? length (props info)) = true).
  { apply Nat.ltb_lt. destruct (props info); [inversion Hin|cbn [length]; lia]. }
  rewrite Hlen, rows_appended.
  apply list_elem_of_split in Hin as (l1 & l2 & ->).
  rewrite map_app, concat_app. cbn [map concat].
  do 13 apply includes_app_l.
  do 2 apply includes_app_r. apply includes_prefix.
Qed.

(** X12. From the source to the page: for a component file with a flat
    props interface, the page [generateComponentDoc] makes of what
    [parseComponent] returns has, for every declared field, the table row
    with its name, its type between backticks and [Yes] or [No] for
    required. *)
Theorem page_lists_the_declared_fields
    (name pre sep component opening rest : jsstring)
    (fields : list field) (closing : jsstring) :
  let code := pre ++ block sep component opening fields closing ++ rest in
  indexOf code (js "interface") = Some (length pre) ->
  truthy sep = true -> forallb is_space sep = true ->
  truthy component = true -> forallb is_word component = true ->
  forallb is_space opening = true ->
  forallb well_formed fields = true ->
  forallb is_blank closing = true ->
  forall f, f ∈ fields ->
    includes (generateComponentDoc toLowerCase (parseComponent name code))
      (js "| " ++ f_name f ++ js " | `" ++ f_type f ++ js "` | "
       ++ (if f_optional f then js "No" else js "Yes") ++ js " | - |" ++ [10%N])
    = true.
Proof.
  cbv zeta. intros Hfirst Hsne Hsep Hne Hword Hopening Hwf Hclosing f Hf.
  pose proof (flat_block_props name pre sep component opening rest fields closing
                Hfirst Hsne Hsep Hne Hword Hopening Hwf Hclosing) as Hprops.
  cbv zeta in Hprops.
  assert (Hrow : js "| " ++ f_name f ++ js " | `" ++ f_type f ++ js "` | "
                 ++ (if f_optional f then js "No" else js "Yes") ++ js " | - |" ++ [10%N]
                 = row (declared f)).
  { unfold row, declared. cbn [prop_name prop_type prop_required].
    destruct (f_optional f); reflexivity. }
  rewrite Hrow. apply page_has_the_rows. rewrite Hprops.
  apply list_elem_of_fmap. exists f. split; [reflexivity|exact Hf].
Qed.

End ComponentPage.

Lemma page_lists_the_declared_fields_witness :
  includes
    (DocPage.generateComponentDoc toLowerCase
       (parseComponent (js "Button")
          (Sources.button_prelude
           ++ block (js " ") (js "Button") (js " ") Sources.button_fields []
           ++ Sources.button_rest)))
    (js "| onClick | `() => void` | No | - |" ++ [10%N])
  = true.
Proof.
  apply (page_lists_the_declared_fields toLowerCase (js "Button") Sources.button_prelude
           (js " ") (js "Button") (js " ") Sources.button_rest Sources.button_fields []
           ltac:(vm_compute; reflexivity) eq_refl eq_refl eq_refl
           ltac:(vm_compute; reflexivity) eq_refl ltac:(vm_compute; reflexivity) eq_refl
           (Field (js "  ") (js "onClick") true (js " ") (js "() => void") (js ";"))).
  apply list_elem_of_further, list_elem_of_here.
Defined.

(** ** The setup wizard: the production environment on file *)

Lemma string_values_obj_set (fs : list (jsstring * value)) (k s : jsstring) :
  string_values fs -> string_values (obj_set fs k (VStr s)).
Proof.
  unfold string_values. intros H. induction H as [|[k0 w] fs Hw Hfs IH]; cbn [obj_set].
  - repeat constructor. exists s. reflexivity.
  - destruct (str_eqb k0 k); constructor; auto. exists s. reflexivity.
Qed.

Lemma string_values_spread (base extra : list (jsstring * value)) :
  string_values base -> string_values extra -> string_values (spread base extra).
Proof.
  unfold spread. intros Hb He. revert base Hb.
  induction He as [|[k v] extra [s Hs] _ IH]; intros base Hb; cbn [fold_left];
    [exact Hb|].
  apply IH. cbn [fst snd] in *. subst v. apply string_values_obj_set, Hb.
Qed.

Lemma jsonify_strings (fs : list (jsstring * value)) :
  string_values fs -> jsonify (VObj fs) = VObj fs.
Proof.
  intros H. cbn [jsonify]. f_equal.
  induction H as [|[k v] fs [s Hs] _ IH]; [reflexivity|].
  cbn [snd] in Hs. subst v. cbn [jsonify]. rewrite IH. reflexivity.
Qed.

Lemma jsonify_objects (fs : list (jsstring * value)) :
  Forall is_object (map snd fs) ->
  jsonify (VObj fs) = VObj (map (fun kv => (kv.1, jsonify kv.2)) fs).
Proof.
  intros H. cbn [jsonify]. f_equal.
  induction fs as [|[k v] fs IH]; [reflexivity|].
  cbn [map snd] in H. apply Forall_cons in H as [[inner ->] Hfs].
  cbn [map fst snd]. rewrite <- (IH Hfs). reflexivity.
Qed.

Lemma obj_get_map (f : value -> value) (fs : list (jsstring * value)) (k : jsstring) :
  f VUndef = VUndef ->
  obj_get (map (fun kv => (kv.1, f kv.2)) fs) k = f (obj_get fs k).
Proof.
  intros Hf. induction fs as [|[k0 v] fs IH]; cbn [map obj_get fst snd].
  - symmetry. exact Hf.
  - destruct (str_eqb k0 k); [reflexivity|exact IH].
Qed.

(** Reading a property of an object of objects after [JSON.stringify]. *)
Lemma get_jsonify_objects (fs : list (jsstring * value)) (k : jsstring) :
  Forall is_object (map snd fs) ->
  get_opt (jsonify (VObj fs)) k = jsonify (obj_get fs k).
Proof.
  intros H. rewrite (jsonify_objects fs H). cbn [get_opt get default]. unfold id.
  apply obj_get_map. reflexivity.
Qed.

Lemma add_environments_keeps (names : list jsstring) (envs : list value)
    (acc : list (jsstring * value)) (k : jsstring) :
  Forall (named_in names) envs -> k ∉ names ->
  obj_get (add_environments acc envs) k = obj_get acc k.
Proof.
  intros Henvs Hk. revert acc.
  induction Henvs as [|env envs (fs & n & -> & Hn & Hin) _ IH]; intros acc;
    cbn [add_environments]; [reflexivity|].
  rewrite IH, obj_get_obj_set. cbn [get_opt get default]. unfold id. rewrite Hn.
  cbn [to_string]. destruct (str_eqb n k) eqn:E; [|reflexivity].
  apply str_eqb_eq in E. subst k. contradiction.
Qed.

Lemma lacks_not_key (k : jsstring) (fs : list (jsstring * value)) :
  k ∉ map fst fs -> lacks k fs.
Proof.
  intros H. unfold lacks. apply Forall_forall. intros [k0 v] Hin. cbn [fst].
  destruct (str_eqb k0 k) eqn:E; [|reflexivity].
  apply str_eqb_eq in E. subst k0. exfalso. apply H.
  apply list_elem_of_fmap. exists (k, v). split; [reflexivity|exact Hin].
Qed.

Lemma keys_obj_set (fs : list (jsstring * value)) (k : jsstring) (v : value) :
  map fst (obj_set fs k v)
  = if decide (k ∈ map fst fs) then map fst fs else map fst fs ++ [k].
Proof.
  induction fs as [|[k0 w] fs IH]; cbn [obj_set map fst].
  - rewrite decide_False by (apply not_elem_of_nil). reflexivity.
  - destruct (str_eqb k0 k) eqn:E.
    + apply str_eqb_eq in E. subst k0.
      rewrite decide_True by (apply list_elem_of_here). reflexivity.
    + cbn [map fst]. rewrite IH.
      assert (Hne : k <> k0).
      { intros ->. rewrite str_eqb_refl in E. discriminate E. }
      destruct (decide (k ∈ map fst fs)) as [Hin|Hout].
      * rewrite decide_True by (apply list_elem_of_further, Hin). reflexivity.
      * rewrite decide_False; [reflexivity|].
        intros Hin. apply elem_of_cons in Hin as [Hin|Hin]; auto.
Qed.

Lemma NoDup_keys_obj_set (fs : list (jsstring * value)) (k : jsstring) (v : value) :
  NoDup (map fst fs) -> NoDup (map fst (obj_set fs k v)).
Proof.
  intros H. rewrite keys_obj_set. destruct (decide (k ∈ map fst fs)); [exact H|].
  apply NoDup_app. repeat split; [exact H| |apply NoDup_singleton].
  intros x Hx Hx'. apply list_elem_of_singleton in Hx'. subst. auto.
Qed.

(** A property that [extra] has wins over the one of [base]. *)
Lemma obj_get_spread_found (base extra : list (jsstring * value)) (k : jsstring) :
  NoDup (map fst extra) -> is_string (obj_get extra k) ->
  obj_get (spread base extra) k = obj_get extra k.
Proof.
  intros Hnd. revert base.
  induction extra as [|[k0 v] extra IH]; intros base Hfound.
  - destruct Hfound as [s Hs]. discriminate Hs.
  - cbn [map fst] in Hnd. apply NoDup_cons in Hnd as [Hout Hnd].
    change (spread base ((k0, v) :: extra)) with (spread (obj_set base k0 v) extra).
    cbn [obj_get] in *. destruct (str_eqb k0 k) eqn:E.
    + apply str_eqb_eq in E. subst k0.
      rewrite (obj_get_spread _ _ _ (lacks_not_key _ _ Hout)), obj_get_obj_set,
        str_eqb_refl. reflexivity.
    + apply (IH Hnd). exact Hfound.
Qed.

(** What [getProviderConfig] returns for a menu entry. *)
Lemma yields_getProviderConfig_type (label : jsstring) :
  yields (getProviderConfig (VStr label))
    (fun cfg => string_values cfg
                /\ obj_get cfg (js "type") = VStr (split_first (ch " ") label)
                /\ lacks (js "name") cfg /\ lacks (js "provider") cfg
                /\ NoDup (map fst cfg)).
Proof.
  unfold getProviderConfig.
  apply (yields_bind _ _ (fun t => t = split_first (ch " ") label));
    [apply yields_try; eexists; split; reflexivity|].
  intros type ->.
  repeat match goal with
         | |- yields (if ?b then _ else _) _ => destruct b
         | |- yields (_ ≫= _) _ =>
             eapply yields_bind; [apply yields_question|intros ? _]
         | |- yields (mret _) _ => apply yields_ret
         end.
  all: split; [|split; [|split; [|split]]].
  all: try lacks_name.
  all: try (rewrite ?obj_get_obj_set; reflexivity).
  all: try (repeat apply NoDup_keys_obj_set; apply NoDup_singleton).
  all: repeat apply string_values_obj_set.
  all: apply Forall_cons; split; [eexists; reflexivity|apply Forall_nil_2].
Qed.

(** ** The setup wizard: the anatomy of a completed run *)

(** What every completed run has done: picked a production provider
    from the menu and asked its settings, gathered the environments,
    written the configuration and the workflow, then the example files. *)
Lemma completed_run_anatomy
    (cwd_name : jsstring) (typed : list jsstring)
    (ds : gset jsstring) (fs : gmap jsstring content)
    (secrets : list jsstring) (st' : wstate) :
  run cwd_name typed ds fs = Done secrets st' ->
  exists (label : jsstring) (prodConfig : list (jsstring * value))
         (others : list value) (fields : list (jsstring * value))
         (workflow : jsstring) (st0 : wstate),
    label ∈ [js "firebase - Firebase Hosting"; js "aws - AWS S3 + CloudFront";
             js "azure - Azure Storage + CDN"; js "vercel - Vercel";
             js "netlify - Netlify"; js "gcp - Google Cloud Platform";
             js "custom - Custom/Self-hosted"]
    /\ string_values prodConfig
    /\ obj_get prodConfig (js "type") = VStr (split_first (ch " ") label)
    /\ lacks (js "name") prodConfig /\ lacks (js "provider") prodConfig
    /\ NoDup (map fst prodConfig)
    /\ Forall (named_in [js "staging"; js "development"]) others
    /\ let production :=
         VObj (spread [(js "name", VStr (js "production"));
                       (js "provider", VStr label)] prodConfig) in
       Forall is_object (map snd fields)
       /\ obj_get fields (js "providers")
          = VObj (add_environments [] (production :: others))
       /\ files st0
          = <[js ".github/workflows/deploy.yml" := FText workflow]>
              (<[js ".cicd/config.json" := FJson (jsonify (VObj fields))]> fs)
       /\ write_env_examples (production :: others) st0 = Done tt st'
       /\ getRequiredSecrets (VObj fields) = Some secrets.
Proof.
  intros H. unfold run, main in H.
  do 7 bind_step H.
  bind_step H. destruct a6 as [testCommand coverageThreshold].
  do 19 bind_step H.
  (* the production environment *)
  assert (Hlabel : exists label,
            a6 = VStr label
            /\ label ∈ [js "firebase - Firebase Hosting"; js "aws - AWS S3 + CloudFront";
                        js "azure - Azure Storage + CDN"; js "vercel - Vercel";
                        js "netlify - Netlify"; js "gcp - Google Cloud Platform";
                        js "custom - Custom/Self-hosted"]).
  { pose proof Hs7 as Hsel.
    unfold selectOption in Hsel. apply bind_Done in Hsel as (answer & stq & _ & Hsel).
    injection Hsel as <- _.
    destruct (select_defined
                [js "firebase - Firebase Hosting"; js "aws - AWS S3 + CloudFront";
                 js "azure - Azure Storage + CDN"; js "vercel - Vercel";
                 js "netlify - Netlify"; js "gcp - Google Cloud Platform";
                 js "custom - Custom/Self-hosted"] answer) as [label Hl];
      [discriminate|].
    exists label. rewrite Hl. split; [reflexivity|]. eapply select_elem, Hl. }
  destruct Hlabel as (label & -> & Hlabel).
  pose proof (yields_Done _ _ _ _ _ (yields_getProviderConfig_type label) Hs8)
    as (Hstrings & Htype & Hname & Hprovider & Hkeys).
  set (production := VObj (spread [(js "name", VStr (js "production"));
                                   (js "provider", VStr label)] a7)) in *.
  set (later := [js "staging"; js "development"]).
  assert (Hstaging : exists others, a9 = production :: others
                                    /\ Forall (named_in later) others).
  { revert Hs10.
    apply (yields_Done _ (fun envs => exists others,
                            envs = production :: others
                            /\ Forall (named_in later) others)).
    destruct a8.
    - apply (yields_bind _ _ is_string); [apply yields_selectOption; discriminate|].
      intros stagingProvider HstagingProvider.
      apply (yields_bind _ _ (lacks (js "name"))).
      + destruct (is_str stagingProvider (js "same")).
        * apply yields_ret. apply lacks_spread; [apply lacks_spread; [constructor|]|].
          -- exact Hname.
          -- lacks_name.
        * apply yields_getProviderConfig, HstagingProvider.
      + intros stagingConfig HstagingConfig. apply yields_ret.
        eexists. split; [reflexivity|]. repeat constructor.
        apply named_in_environment; [apply list_elem_of_here|assumption].
    - apply yields_ret. exists []. split; [reflexivity|constructor]. }
  destruct Hstaging as (others & -> & Hothers).
  assert (Hdev : exists others', a11 = production :: others'
                                 /\ Forall (named_in later) others').
  { revert Hs12.
    apply (yields_Done _ (fun envs => exists others',
                            envs = production :: others'
                            /\ Forall (named_in later) others')).
    destruct a10.
    - apply (yields_bind _ _ is_string); [apply yields_selectOption; discriminate|].
      intros devProvider HdevProvider.
      destruct (negb (is_str devProvider (js "local"))).
      + apply (yields_bind _ _ (lacks (js "name")));
          [apply yields_getProviderConfig, HdevProvider|].
        intros devConfig HdevConfig. apply yields_ret.
        exists (others ++ [VObj (spread [(js "name", VStr (js "development"));
                                         (js "provider", devProvider)] devConfig)]).
        split; [reflexivity|]. apply Forall_app. split; [exact Hothers|].
        repeat constructor. apply named_in_environment; [|assumption].
        apply list_elem_of_further, list_elem_of_here.
      + apply yields_ret. exists others. split; [reflexivity|exact Hothers].
    - apply yields_ret. exists others. split; [reflexivity|exact Hothers]. }
  destruct Hdev as (others' & -> & Hothers').
  (* the steps that write *)
  repeat match goal with
  | Hw : mkdir _ _ = Done _ _ |- _ => fs_step
  | Hw : writeFileSync _ _ _ = Done _ _ |- _ => fs_step
  | Hw : try_ ?o _ = Done _ _ |- _ =>
      unfold try_ in Hw; destruct o eqn:?; [|discriminate Hw];
      injection Hw as <- <-
  end.
  (* the steps that only ask *)
  repeat match goal with
  | Hs : ?w ?s0 = Done ?a ?s1 |- _ =>
      lazymatch w with
      | write_env_examples _ => fail
      | _ => idtac
      end;
      let P := fresh "P" in
      assert (P : prompt_only w) by prompt_only;
      apply P in Hs; destruct Hs as [? _]
  end.
  destruct a24.
  match type of Hs25 with write_env_examples _ ?s = _ =>
    match type of Heqo0 with generateWorkflow (VObj ?fields) = _ =>
      exists label, a7, others', fields, l0, s
    end
  end.
  split; [exact Hlabel|]. split; [exact Hstrings|]. split; [exact Htype|].
  split; [exact Hname|]. split; [exact Hprovider|]. split; [exact Hkeys|].
  split; [exact Hothers'|].
  cbv zeta. split; [|split; [|split; [|split]]].
  - apply obj_set_values; [|eexists; reflexivity].
    cbn [map snd]. repeat (apply Forall_cons; split; [eexists; reflexivity|]).
    apply Forall_nil_2.
  - rewrite obj_get_obj_set, str_eqb_refl. reflexivity.
  - cbn [files] in *. do 2 f_equal. congruence.
  - exact Hs25.
  - exact Heqo.
Qed.

Lemma obj_get_elem (fs : list (jsstring * value)) (k : jsstring) :
  is_object (obj_get fs k) -> obj_get fs k ∈ map snd fs.
Proof.
  induction fs as [|[k0 v] fs IH]; cbn [obj_get map snd].
  - intros [inner Hi]. discriminate Hi.
  - destruct (str_eqb k0 k); intros H; [apply list_elem_of_here|].
    apply list_elem_of_further, IH, H.
Qed.

(** The production environment among the environments on file. *)
Lemma production_is_kept (production : value) (fs : list (jsstring * value))
    (others : list value) :
  production = VObj fs -> obj_get fs (js "name") = VStr (js "production") ->
  Forall (named_in [js "staging"; js "development"]) others ->
  obj_get (add_environments [] (production :: others)) (js "production") = production.
Proof.
  intros -> Hn Hothers. cbn [add_environments get_opt get default]. unfold id.
  rewrite Hn. cbn [to_string obj_set].
  rewrite (add_environments_keeps _ _ _ _ Hothers).
  - cbn [obj_get]. rewrite str_eqb_refl. reflexivity.
  - intros Hin. repeat (apply elem_of_cons in Hin as [E|Hin];
                        [vm_compute in E; discriminate E|]).
    inversion Hin.
Qed.

Lemma elem_three (n a b c : jsstring) : n ∈ [a; b; c] <-> n = a \/ n = b \/ n = c.
Proof.
  rewrite !elem_of_cons, elem_of_nil. tauto.
Qed.

(** X5. A completed run of the wizard writes [.cicd/config.json], the
    workflow and one example file per environment, and no other file:
    every other path holds what it held before.  The example file of the
    production environment is always written, and it starts with the
    header line [# PRODUCTION Environment Variables]. *)
Theorem wizard_writes_only_its_files
    (cwd_name : jsstring) (typed : list jsstring)
    (ds : gset jsstring) (fs : gmap jsstring content)
    (secrets : list jsstring) (st' : wstate) :
  run cwd_name typed ds fs = Done secrets st' ->
  (forall path,
     path ∉ [js ".cicd/config.json"; js ".github/workflows/deploy.yml";
             js ".cicd/production.env.example"; js ".cicd/staging.env.example";
             js ".cicd/development.env.example"] ->
     files st' !! path = fs !! path)
  /\ exists text,
       files st' !! js ".cicd/production.env.example" = Some (FText text)
       /\ startsWith text (js "# PRODUCTION Environment Variables" ++ nl) = true.
Proof.
  intros H.
  destruct (completed_run_anatomy _ _ _ _ _ _ H)
    as (label & cfg & others & fields & workflow & st0 & _ & _ & _ & Hlacks & _ & _
        & Hothers & Hrun).
  cbv zeta in Hrun. destruct Hrun as (_ & _ & Hfiles & Hwrite & _).
  set (production := VObj (spread [(js "name", VStr (js "production"));
                                   (js "provider", VStr label)] cfg)) in *.
  set (later := [js "staging"; js "development"]) in *.
  assert (Hname : obj_get (spread [(js "name", VStr (js "production"));
                                   (js "provider", VStr label)] cfg) (js "name")
                  = VStr (js "production"))
    by (rewrite (obj_get_spread _ _ _ Hlacks); reflexivity).
  assert (Hall : Forall (named_in (js "production" :: later)) (production :: others)).
  { constructor.
    - apply named_in_environment; [apply list_elem_of_here|exact Hlacks].
    - eapply Forall_impl; [exact Hothers|]. intros v. apply named_in_weaken.
      intros n. apply list_elem_of_further. }
  split.
  - intros path Hpath.
    rewrite (write_env_examples_elsewhere _ _ _ _ _ path Hall Hwrite).
    + rewrite Hfiles, !lookup_insert_ne; [reflexivity| |].
      * intros E. apply Hpath. rewrite <- E. apply list_elem_of_here.
      * intros E. apply Hpath. rewrite <- E.
        apply list_elem_of_further, list_elem_of_here.
    + intros n Hn E. apply Hpath. subst path.
      apply elem_three in Hn as [->|[->| ->]];
        repeat first [apply list_elem_of_here | apply list_elem_of_further].
  - assert (Hnot : js "production" ∉ later).
    { intros Hin. unfold later in Hin.
      repeat (apply elem_of_cons in Hin as [E|Hin];
              [vm_compute in E; discriminate E|]).
      inversion Hin. }
    destruct (write_env_examples_first later production _ (js "production") others
                _ _ _ eq_refl Hname Hnot Hothers Hwrite) as (text & Htext & Hfile).
    exists text. split; [exact Hfile|].
    apply (generateEnvExample_header _ (js "production") text Hname Htext).
Qed.

Lemma wizard_writes_only_its_files_witness :
  exists secrets st,
    run (js "shop") Examples.slack_session ∅ {[ js "README.md" := FText (js "shop") ]}
    = Done secrets st
    /\ files st !! js "README.md" = Some (FText (js "shop")).
Proof.
  destruct (run (js "shop") Examples.slack_session ∅
              {[ js "README.md" := FText (js "shop") ]}) as [secrets st|st|] eqn:H.
  - exists secrets, st. split; [reflexivity|].
    destruct (wizard_writes_only_its_files _ _ _ _ _ _ H) as [Hframe _].
    rewrite Hframe; [reflexivity|].
    intros Hin. repeat (apply elem_of_cons in Hin as [E|Hin];
                        [vm_compute in E; discriminate E|]).
    inversion Hin.
  - exfalso. vm_compute in H. discriminate H.
  - exfalso. vm_compute in H. discriminate H.
Defined.

(** What visiting one provider adds to the secrets. *)
Ltac provider_row :=
  let Ht := fresh "Ht" in
  intros ? ? ? Ht; unfold provider_secrets; rewrite Ht; cbn [mbind option_bind];
  repeat match goal with
         | |- context [is_str (VStr ?a) ?b] =>
             let v := eval vm_compute in (is_str (VStr a) b) in
             change (is_str (VStr a) b) with v
         end;
  cbn match; intros [= <-]; rewrite ?set_add_elem; auto.

(** X13. In the configuration a completed run writes, the production
    environment is on file under [providers.production] with its name
    [production], with the menu entry picked as [provider], whole, and
    with the first word of that entry as [type]: the settings asked for
    the provider never overwrite these.  The secrets of that provider
    are among the secrets the run lists. *)
Theorem wizard_files_the_production_provider
    (cwd_name : jsstring) (typed : list jsstring)
    (ds : gset jsstring) (fs : gmap jsstring content)
    (secrets : list jsstring) (st' : wstate) :
  run cwd_name typed ds fs = Done secrets st' ->
  exists config label,
    files st' !! js ".cicd/config.json" = Some (FJson config)
    /\ label ∈ [js "firebase - Firebase Hosting"; js "aws - AWS S3 + CloudFront";
                js "azure - Azure Storage + CDN"; js "vercel - Vercel";
                js "netlify - Netlify"; js "gcp - Google Cloud Platform";
                js "custom - Custom/Self-hosted"]
    /\ let production :=
         get_opt (get_opt config (js "providers")) (js "production") in
       let type := split_first (ch " ") label in
       get_opt production (js "name") = VStr (js "production")
       /\ get_opt production (js "provider") = VStr label
       /\ get_opt production (js "type") = VStr type
       /\ (type = js "firebase" -> js "FIREBASE_TOKEN" ∈ secrets)
       /\ (type = js "aws" ->
           js "AWS_ACCESS_KEY_ID" ∈ secrets /\ js "AWS_SECRET_ACCESS_KEY" ∈ secrets)
       /\ (type = js "azure" -> js "AZURE_CREDENTIALS" ∈ secrets)
       /\ (type = js "vercel" -> js "VERCEL_TOKEN" ∈ secrets)
       /\ (type = js "netlify" ->
           js "NETLIFY_AUTH_TOKEN" ∈ secrets /\ js "NETLIFY_SITE_ID" ∈ secrets).
Proof.
  intros H.
  destruct (completed_run_anatomy _ _ _ _ _ _ H)
    as (label & cfg & others & fields & workflow & st0 & Hlabel & Hstrings & Htype
        & Hlacks & Hlacks' & Hkeys & Hothers & Hrun).
  cbv zeta in Hrun. destruct Hrun as (Hobjects & Hproviders & Hfiles & Hwrite & Hsecrets).
  set (production := VObj (spread [(js "name", VStr (js "production"));
                                   (js "provider", VStr label)] cfg)) in *.
  assert (Hname : obj_get (spread [(js "name", VStr (js "production"));
                                   (js "provider", VStr label)] cfg) (js "name")
                  = VStr (js "production"))
    by (rewrite (obj_get_spread _ _ _ Hlacks); reflexivity).
  assert (Hprovider : obj_get (spread [(js "name", VStr (js "production"));
                                       (js "provider", VStr label)] cfg) (js "provider")
                      = VStr label)
    by (rewrite (obj_get_spread _ _ _ Hlacks'); reflexivity).
  assert (Hty : obj_get (spread [(js "name", VStr (js "production"));
                                 (js "provider", VStr label)] cfg) (js "type")
                = VStr (split_first (ch " ") label)).
  { rewrite obj_get_spread_found; [exact Htype|exact Hkeys|].
    rewrite Htype. eexists. reflexivity. }
  assert (Hkept : obj_get (add_environments [] (production :: others)) (js "production")
                  = production)
    by (apply (production_is_kept production _ others eq_refl Hname Hothers)).
  assert (Henvs : Forall named (production :: others)).
  { constructor; [eexists _, _; split; [reflexivity|exact Hname]|].
    eapply Forall_impl; [exact Hothers|]. intros v. apply named_in_named. }
  assert (Hvalues : Forall is_object
                      (map snd (add_environments [] (production :: others))))
    by (apply add_environments_values; [constructor|exact Henvs]).
  exists (jsonify (VObj fields)), label.
  split; [|split; [exact Hlabel|]].
  { rewrite (write_env_examples_others _ _ _ _ _ Hwrite config_json_is_no_example).
    rewrite Hfiles, lookup_insert_ne by (intros E; vm_compute in E; discriminate E).
    apply lookup_insert_eq. }
  cbv zeta.
  rewrite (get_jsonify_objects fields _ Hobjects), Hproviders.
  rewrite (get_jsonify_objects _ _ Hvalues), Hkept.
  unfold production at 1 2 3.
  rewrite jsonify_strings
    by (apply string_values_spread; [|exact Hstrings];
        repeat constructor; eexists; reflexivity).
  cbn [get_opt get default]. unfold id.
  split; [exact Hname|]. split; [exact Hprovider|]. split; [exact Hty|].
  assert (Hhas : has_provider (VObj fields) (split_first (ch " ") label)).
  { exists (VObj (add_environments [] (production :: others))),
           (map snd (add_environments [] (production :: others))), production.
    cbn [get]. rewrite Hproviders. split; [reflexivity|]. split; [reflexivity|].
    split.
    - rewrite <- Hkept at 1. apply obj_get_elem. rewrite Hkept. eexists. reflexivity.
    - unfold production. cbn [get]. rewrite Hty. reflexivity. }
  split; [|split; [|split; [|split]]]; intros Et; rewrite Et in Hhas; try split;
    apply (required_of_provider _ _ _ _ Hsecrets Hhas); provider_row.
Qed.

Lemma wizard_files_the_production_provider_witness :
  exists secrets st config label,
    run (js "shop") Examples.slack_session ∅ ∅ = Done secrets st
    /\ files st !! js ".cicd/config.json" = Some (FJson config)
    /\ get_opt (get_opt (get_opt config (js "providers")) (js "production"))
         (js "provider") = VStr label.
Proof.
  destruct (run (js "shop") Examples.slack_session ∅ ∅) as [secrets st|st|] eqn:H.
  - destruct (wizard_files_the_production_provider _ _ _ _ _ _ H)
      as (config & label & Hfile & _ & Hprod).
    cbv zeta in Hprod. destruct Hprod as (_ & Hprovider & _).
    exists secrets, st, config, label. auto.
  - exfalso. vm_compute in H. discriminate H.
  - exfalso. vm_compute in H. discriminate H.
Defined.

(** ** The setup wizard: the workflow it writes *)

Lemma startsWith_app_l (s b t : jsstring) :
  startsWith s t = true -> startsWith (s ++ b) t = true.
Proof.
  rewrite !startsWith_spec. intros [r ->]. exists (r ++ b).
  rewrite <- app_assoc. reflexivity.
Qed.

(** What [generateWorkflow] returns is a GitHub Actions workflow: it has
    a name, the events that start it, and a job that calls the reusable
    deployment workflow with the secrets of the repository. *)
Lemma generateWorkflow_is_a_workflow (config : value) (text : jsstring) :
  generateWorkflow config = Some text ->
  startsWith text (js "name: Deploy Pipeline" ++ nl) = true
  /\ includes text (nl ++ js "on:" ++ nl ++ js "  push:" ++ nl) = true
  /\ includes text (nl ++ js "jobs:" ++ nl ++ js "  deploy:" ++ nl) = true
  /\ includes text
       (js "    uses: sirsimaster/universal-cicd/.github/workflows/universal-deploy.yml@main"
        ++ nl) = true
  /\ includes text (js "    secrets: inherit" ++ nl) = true.
Proof.
  unfold generateWorkflow. intros H.
  repeat match type of H with
         | (match ?o with Some _ => _ | None => _ end) = _ =>
             destruct o; [|discriminate H]
         | (?o ≫= _) = _ =>
             destruct o; cbn [mbind option_bind] in H; [|discriminate H]
         end.
  apply (inj Some) in H. subst text.
  split; [apply startsWith_app_l; vm_compute; reflexivity|].
  split; [apply includes_app_l; vm_compute; reflexivity|].
  split; [apply includes_app_l; vm_compute; reflexivity|].
  split; [apply includes_app_l; vm_compute; reflexivity|].
  do 18 apply includes_app_r. vm_compute. reflexivity.
Qed.

(** Once 29 answers are typed the wizard is not left waiting: the run is
    completed, or it ends in the catch block. *)
Lemma run_is_not_left_waiting (cwd_name : jsstring) (typed : list jsstring)
    (ds : gset jsstring) (fs : gmap jsstring content) :
  29 <= length typed -> run cwd_name typed ds fs <> Waiting.
Proof.
  intros Hlen H. pose proof (main_consumes cwd_name (WState typed ds fs)) as Hc.
  unfold run in H. rewrite H in Hc. cbn [answers] in Hc. lia.
Qed.

(** C4. Every completed run of the wizard leaves at [.cicd/config.json]
    the JSON of an object with exactly the keys [project], [build],
    [testing], [providers], [notifications] and [advanced], and leaves a
    GitHub Actions workflow at [.github/workflows/deploy.yml]: a text
    that starts with its name, lists the events that start it and has
    the job that calls the reusable deployment workflow with the secrets
    of the repository.  A run is over once its questions are answered:
    with 29 typed answers it is never left waiting. *)
Theorem C4_completed_run_writes_config_and_workflow
    (cwd_name : jsstring) (typed : list jsstring)
    (ds : gset jsstring) (fs : gmap jsstring content) :
  (29 <= length typed -> run cwd_name typed ds fs <> Waiting)
  /\ (forall secrets st',
        run cwd_name typed ds fs = Done secrets st' ->
        exists config workflow,
          files st' !! js ".cicd/config.json" = Some (FJson config)
          /\ keys config = [js "project"; js "build"; js "testing"; js "providers";
                            js "notifications"; js "advanced"]
          /\ files st' !! js ".github/workflows/deploy.yml" = Some (FText workflow)
          /\ startsWith workflow (js "name: Deploy Pipeline" ++ nl) = true
          /\ includes workflow (nl ++ js "on:" ++ nl ++ js "  push:" ++ nl) = true
          /\ includes workflow (nl ++ js "jobs:" ++ nl ++ js "  deploy:" ++ nl) = true
          /\ includes workflow
               (js "    uses: sirsimaster/universal-cicd/.github/workflows/universal-deploy.yml@main"
                ++ nl) = true
          /\ includes workflow (js "    secrets: inherit" ++ nl) = true).
Proof.
  split; [apply run_is_not_left_waiting|].
  intros secrets st' H.
  destruct (completed_run_files _ _ _ _ _ _ H)
    as (fields & workflow & Hconfig & Hkeys & Hworkflow & Hfile).
  exists (jsonify (VObj fields)), workflow.
  split; [exact Hconfig|]. split; [exact Hkeys|]. split; [exact Hfile|].
  apply (generateWorkflow_is_a_workflow _ _ Hworkflow).
Qed.

(** A session in an empty working directory: the run is completed and
    the two files are there. *)
Lemma C4_completed_run_witness :
  exists secrets st config workflow,
    run (js "shop") Examples.slack_session ∅ ∅ = Done secrets st
    /\ files st !! js ".cicd/config.json" = Some (FJson config)
    /\ keys config = [js "project"; js "build"; js "testing"; js "providers";
                      js "notifications"; js "advanced"]
    /\ files st !! js ".github/workflows/deploy.yml" = Some (FText workflow)
    /\ startsWith workflow (js "name: Deploy Pipeline" ++ nl) = true.
Proof.
  destruct (C4_completed_run_writes_config_and_workflow
              (js "shop") Examples.slack_session ∅ ∅) as (_ & Hfiles).
  destruct (run (js "shop") Examples.slack_session ∅ ∅) as [secrets st|st|] eqn:H.
  - destruct (Hfiles _ _ eq_refl) as (config & workflow & H1 & H2 & H3 & H4 & _).
    exists secrets, st, config, workflow. auto.
  - exfalso. vm_compute in H. discriminate H.
  - exfalso. vm_compute in H. discriminate H.
Defined.



(** ** The universal header: what takes the place of the root *)

Lemma includes_glued (l1 v tail pre post : jsstring) :
  (exists a, l1 = a ++ pre) -> startsWith tail post = true ->
  includes (l1 ++ v ++ tail) (pre ++ v ++ post) = true.
Proof.
  intros [a ->] Hpost. apply startsWith_spec in Hpost as [b ->].
  apply includes_spec. exists a, b. rewrite <- !app_assoc. reflexivity.
Qed.

Ltac ends_with :=
  match goal with
  | |- exists a, ?l = a ++ ?pre =>
      exists (take (length l - length pre) l); vm_compute; reflexivity
  end.

(** The fallback markup is one [header] element, between blanks, whose
    four navigation links lead to pages below [base]. *)
Lemma fallbackHtml_is_a_header (base : jsstring) :
  (exists lead middle trail,
     forallb is_space lead = true /\ forallb is_space trail = true
     /\ UniversalHeader.fallbackHtml base
        = lead ++ jsq "<header class=~universal-header public-header~" ++ middle
          ++ js "</header>" ++ trail)
  /\ includes (UniversalHeader.fallbackHtml base)
       (jsq "<a href=~" ++ base ++ jsq "/~") = true
  /\ includes (UniversalHeader.fallbackHtml base)
       (jsq "<a href=~" ++ base ++ jsq "/properties.html~") = true
  /\ includes (UniversalHeader.fallbackHtml base)
       (jsq "<a href=~" ++ base ++ jsq "/agents.html~") = true
  /\ includes (UniversalHeader.fallbackHtml base)
       (jsq "<a href=~" ++ base ++ jsq "/about.html~") = true.
Proof.
  unfold UniversalHeader.fallbackHtml.
  match goal with
  | |- context [?l1 ++ base ++ ?l2 ++ base ++ ?l3 ++ base ++ ?l4 ++ base ++ ?l5] =>
      set (L1 := l1); set (L2 := l2); set (L3 := l3); set (L4 := l4); set (L5 := l5)
  end.
  split; [|split; [|split; [|split]]].
  - set (opening := jsq "<header class=~universal-header public-header~").
    exists (take 9 L1),
      (drop (9 + length opening) L1
       ++ base ++ L2 ++ base ++ L3 ++ base ++ L4 ++ base
       ++ take (length L5 - 16) L5),
      (drop (length L5 - 7) L5).
    split; [vm_compute; reflexivity|]. split; [vm_compute; reflexivity|].
    assert (E1 : L1 = take 9 L1 ++ opening ++ drop (9 + length opening) L1)
      by (vm_compute; reflexivity).
    assert (E5 : L5 = take (length L5 - 16) L5 ++ js "</header>"
                      ++ drop (length L5 - 7) L5)
      by (vm_compute; reflexivity).
    rewrite E1 at 1. rewrite E5 at 1. rewrite <- !app_assoc. reflexivity.
  - apply includes_glued; [ends_with|].
    apply startsWith_app_l. vm_compute. reflexivity.
  - do 2 apply includes_app_r.
    apply includes_glued; [ends_with|].
    apply startsWith_app_l. vm_compute. reflexivity.
  - do 4 apply includes_app_r.
    apply includes_glued; [ends_with|].
    apply startsWith_app_l. vm_compute. reflexivity.
  - do 6 apply includes_app_r.
    apply includes_glued; [ends_with|]. vm_compute. reflexivity.
Qed.

Section UniversalHeaderRoot.

Variable JSON_parse : jsstring -> option value.
Variable toUpperCase : jsstring -> jsstring.
Variable firstElementChild : jsstring -> bool.
Variable headerActions : jsstring -> bool.

(** The configuration the universal header reads from its root, and the
    header it puts in the page. *)
Lemma universal_header_cases (root : element) (script : option element)
    (loc : UniversalHeader.location) (response : UniversalHeader.fetched) :
  let page := UniversalHeader.injectHeader JSON_parse toUpperCase firstElementChild
                headerActions (Some root) script loc response in
  let fallback :=
    UniversalHeader.Fallback
      (UniversalHeader.fallbackHtml (UniversalHeader.resolveBase script loc)) in
  exists config,
    UniversalHeader.base config = UniversalHeader.resolveBase script loc
    /\ UniversalHeader.type config
       = opt_or_else (getAttribute root (js "data-type")) (js "public")
    /\ UniversalHeader.title config
       = opt_or_else (getAttribute root (js "data-title")) (js "Assiduous Properties")
    /\ UniversalHeader.subtitle config
       = opt_or_else (getAttribute root (js "data-subtitle")) []
    /\ UniversalHeader.userName config
       = opt_or_else (getAttribute root (js "data-user-name")) (js "User")
    /\ UniversalHeader.searchPlaceholder config
       = opt_or_else (getAttribute root (js "data-search-placeholder"))
           (js "Search...")
    /\ UniversalHeader.header page
       = match response with
         | UniversalHeader.Responded status (Some html) =>
             if (200 <=? status) && (status <=? 299)
                && firstElementChild (UniversalHeader.processTokens toUpperCase html config)
             then UniversalHeader.Template
                    (UniversalHeader.processTokens toUpperCase html config)
                    (UniversalHeader.type config)
             else fallback
         | _ => fallback
         end
    /\ (UniversalHeader.header page = fallback ->
        Error (js "Failed to load universal header:") ∈ UniversalHeader.console page).
Proof.
  cbv zeta. unfold UniversalHeader.injectHeader.
  destruct (match getAttribute root (js "data-actions") with
            | Some actionsAttr =>
                if truthy actionsAttr
                then match JSON_parse actionsAttr with
                     | Some parsed => (parsed, [])
                     | None => (VArr [], [Warn (js "Failed to parse data-actions:")])
                     end
                else (VArr [], [])
            | None => (VArr [], [])
            end) as [acts warns].
  exists (UniversalHeader.Config
            (UniversalHeader.resolveBase script loc)
            (opt_or_else (getAttribute root (js "data-type")) (js "public"))
            (opt_or_else (getAttribute root (js "data-title")) (js "Assiduous Properties"))
            (opt_or_else (getAttribute root (js "data-subtitle")) [])
            (opt_or_else (getAttribute root (js "data-user-name")) (js "User"))
            (opt_or_else (getAttribute root (js "data-search-placeholder"))
               (js "Search..."))
            (match getAttribute root (js "data-show-auth") with
             | Some v => str_eqb v (js "true")
             | None => false
             end)
            acts).
  do 6 (split; [reflexivity|]).
  assert (Hlogged : forall logs,
            Error (js "Failed to load universal header:")
            ∈ logs ++ [Error (js "Failed to load universal header:");
                       Log (js "Using fallback header instead")]).
  { intros logs. apply elem_of_app. right. apply list_elem_of_here. }
  destruct response as [|status body]; [split; [reflexivity|intros _; apply Hlogged]|].
  destruct ((200 <=? status) && (status <=? 299)); cbn [negb andb];
    [|destruct body; (split; [reflexivity|intros _; apply Hlogged])].
  destruct body as [html|]; [|split; [reflexivity|intros _; apply Hlogged]].
  match goal with |- context [firstElementChild ?h] =>
    destruct (firstElementChild h) end;
    [split; [reflexivity|discriminate]|split; [reflexivity|intros _; apply Hlogged]].
Qed.

(** C6. When the template cannot be fetched (the request is rejected, or
    the response status is outside 200..299) the universal header loader
    puts the hard-coded fallback header in the place of the root element
    and logs the failure as an error.  The page is not left without a
    header: the markup put there is one [header] element, of the classes
    [universal-header public-header], whose navigation links lead to the
    home page and to [properties.html], [agents.html] and [about.html]
    below the resolved base. *)
Theorem C6_fetch_failure_injects_fallback
    (root : element) (script : option element)
    (loc : UniversalHeader.location) (response : UniversalHeader.fetched) :
  (response = UniversalHeader.Rejected
   \/ exists status body, response = UniversalHeader.Responded status body
                          /\ ~ (200 <= status <= 299)) ->
  let page := UniversalHeader.injectHeader JSON_parse toUpperCase firstElementChild
                headerActions (Some root) script loc response in
  let base := UniversalHeader.resolveBase script loc in
  exists html,
    UniversalHeader.header page = UniversalHeader.Fallback html
    /\ html = UniversalHeader.fallbackHtml base
    /\ (exists lead middle trail,
          forallb is_space lead = true /\ forallb is_space trail = true
          /\ html = lead ++ jsq "<header class=~universal-header public-header~"
                    ++ middle ++ js "</header>" ++ trail)
    /\ includes html (jsq "<a href=~" ++ base ++ jsq "/~") = true
    /\ includes html (jsq "<a href=~" ++ base ++ jsq "/properties.html~") = true
    /\ includes html (jsq "<a href=~" ++ base ++ jsq "/agents.html~") = true
    /\ includes html (jsq "<a href=~" ++ base ++ jsq "/about.html~") = true
    /\ Error (js "Failed to load universal header:") ∈ UniversalHeader.console page.
Proof.
  intros Hfail. cbv zeta.
  destruct (universal_header_cases root script loc response)
    as (config & _ & _ & _ & _ & _ & _ & Hhead & Hlog).
  cbv zeta in Hhead, Hlog.
  assert (Hfallback :
            UniversalHeader.header
              (UniversalHeader.injectHeader JSON_parse toUpperCase firstElementChild
                 headerActions (Some root) script loc response)
            = UniversalHeader.Fallback
                (UniversalHeader.fallbackHtml (UniversalHeader.resolveBase script loc))).
  { rewrite Hhead. destruct Hfail as [->|(status & body & -> & Hbad)]; [reflexivity|].
    assert (Hok : (200 <=? status) && (status <=? 299) = false).
    { apply andb_false_iff.
      destruct (Nat.leb_spec 200 status); [right|left; reflexivity].
      apply Nat.leb_gt. lia. }
    rewrite Hok. destruct body; reflexivity. }
  exists (UniversalHeader.fallbackHtml (UniversalHeader.resolveBase script loc)).
  split; [exact Hfallback|]. split; [reflexivity|].
  destruct (fallbackHtml_is_a_header (UniversalHeader.resolveBase script loc))
    as (Hshape & Hhome & Hproperties & Hagents & Habout).
  split; [exact Hshape|]. split; [exact Hhome|]. split; [exact Hproperties|].
  split; [exact Hagents|]. split; [exact Habout|].
  apply Hlog, Hfallback.
Qed.

(** X3. Once its root element is found, the universal header always
    replaces it.  A template fetched with a status from 200 to 299 is
    processed with the configuration read from the root ([data-type],
    [public] by default, and the titles, user name and search
    placeholder with their defaults); when the processed markup has an
    element, that element replaces the root, showing the parts marked for
    the type, whatever [data-actions] holds.  In every other case the
    fallback header replaces the root: a rejected fetch, a status outside
    200..299, a body that cannot be read, processed markup without an
    element.  A template without a backslash is processed to itself. *)
Theorem universal_header_always_replaces_root
    (root : element) (script : option element)
    (loc : UniversalHeader.location) (response : UniversalHeader.fetched) :
  let page := UniversalHeader.injectHeader JSON_parse toUpperCase firstElementChild
                headerActions (Some root) script loc response in
  let base := UniversalHeader.resolveBase script loc in
  let type := opt_or_else (getAttribute root (js "data-type")) (js "public") in
  let fallback := UniversalHeader.Fallback (UniversalHeader.fallbackHtml base) in
  exists config,
    (UniversalHeader.base config = base
     /\ UniversalHeader.type config = type
     /\ UniversalHeader.title config
        = opt_or_else (getAttribute root (js "data-title")) (js "Assiduous Properties")
     /\ UniversalHeader.subtitle config
        = opt_or_else (getAttribute root (js "data-subtitle")) []
     /\ UniversalHeader.userName config
        = opt_or_else (getAttribute root (js "data-user-name")) (js "User")
     /\ UniversalHeader.searchPlaceholder config
        = opt_or_else (getAttribute root (js "data-search-placeholder"))
            (js "Search..."))
    /\ UniversalHeader.header page <> UniversalHeader.Kept
    /\ (forall status html,
          response = UniversalHeader.Responded status (Some html) ->
          200 <= status <= 299 ->
          let processed := UniversalHeader.processTokens toUpperCase html config in
          (firstElementChild processed = true ->
           UniversalHeader.header page = UniversalHeader.Template processed type)
          /\ (firstElementChild processed = false ->
              UniversalHeader.header page = fallback)
          /\ (UniversalHeader.bs ∉ html -> processed = html))
    /\ (forall status body,
          response = UniversalHeader.Responded status body ->
          ~ (200 <= status <= 299) ->
          UniversalHeader.header page = fallback)
    /\ (forall status,
          response = UniversalHeader.Responded status None ->
          UniversalHeader.header page = fallback)
    /\ (response = UniversalHeader.Rejected -> UniversalHeader.header page = fallback)
    /\ (UniversalHeader.header page = fallback ->
        includes (UniversalHeader.fallbackHtml base)
          (jsq "<header class=~universal-header public-header~") = true
        /\ Error (js "Failed to load universal header:") ∈ UniversalHeader.console page).
Proof.
  cbv zeta.
  destruct (universal_header_cases root script loc response)
    as (config & Hbase & Htype & Htitle & Hsubtitle & Huser & Hsearch & Hhead & Hlog).
  cbv zeta in Hhead, Hlog. exists config.
  split; [repeat split; assumption|].
  rewrite Hhead. split; [|split; [|split; [|split; [|split]]]].
  - destruct response as [|status [html|]]; try discriminate.
    destruct (_ && _); discriminate.
  - intros status html -> Hok.
    assert (E : (200 <=? status) && (status <=? 299) = true).
    { apply andb_true_iff. split; apply Nat.leb_le; lia. }
    rewrite E. cbn [andb]. split; [|split].
    + intros ->. rewrite Htype. reflexivity.
    + intros ->. reflexivity.
    + intros Hbs. apply processTokens_without_backslash, Hbs.
  - intros status body -> Hbad.
    assert (E : (200 <=? status) && (status <=? 299) = false).
    { apply andb_false_iff.
      destruct (Nat.leb_spec 200 status); [right|left; reflexivity].
      apply Nat.leb_gt. lia. }
    rewrite E. destruct body; reflexivity.
  - intros status ->. reflexivity.
  - intros ->. reflexivity.
  - intros Hf. split; [|apply Hlog; rewrite Hhead; exact Hf].
    destruct (fallbackHtml_is_a_header (UniversalHeader.resolveBase script loc))
      as ((lead & middle & trail & _ & _ & ->) & _).
    apply includes_spec. exists lead, (middle ++ js "</header>" ++ trail).
    reflexivity.
Qed.

End UniversalHeaderRoot.

Lemma C6_fetch_failure_witness :
  exists html,
    UniversalHeader.header
      (UniversalHeader.injectHeader (fun _ => None) (fun s => s) (fun _ => true)
         (fun _ => true) (Some Examples.bare_root) None Examples.site_root
         (UniversalHeader.Responded 404 None))
    = UniversalHeader.Fallback html
    /\ includes html (jsq "<a href=~https://example.org/assiduousflip/properties.html~")
       = true.
Proof.
  destruct (C6_fetch_failure_injects_fallback (fun _ => None) (fun s => s)
              (fun _ => true) (fun _ => true)
              Examples.bare_root None Examples.site_root
              (UniversalHeader.Responded 404 None))
    as (html & Hhead & _ & _ & _ & Hproperties & _).
  - right. exists 404, None. split; [reflexivity|lia].
  - exists html. split; [exact Hhead|exact Hproperties].
Defined.

(** ** The documentation generator: the props of the first interface block *)

(** The search goes past the positions where the regex does not match. *)
Lemma exec_from_past (total : nat) (r : re) (n : nat) :
  forall (s : jsstring) (idx : nat),
    (forall i, i < n ->
       m total r (drop i s) no_caps (fun s' c' => Some (s', c')) = None) ->
    n <= length s ->
    exec_from total r s idx = exec_from total r (drop n s) (idx + n).
Proof.
  induction n as [|n IH]; intros s idx Hnone Hlen.
  - rewrite drop_0, Nat.add_0_r. reflexivity.
  - destruct s as [|x s]; [cbn [length] in Hlen; lia|].
    rewrite exec_from_unfold.
    pose proof (Hnone 0 ltac:(lia)) as H0. rewrite drop_0 in H0. rewrite H0.
    rewrite (IH s (S idx)).
    + cbn [drop]. f_equal. lia.
    + intros i Hi. apply (Hnone (S i)). lia.
    + cbn [length] in Hlen. lia.
Qed.

Lemma str_match_first (r : re) (s : jsstring) (n : nat) :
  no_match_before r s n = true -> n <= length s ->
  str_match r s = exec_from (length s) r (drop n s) n.
Proof.
  intros Hfirst Hlen. unfold str_match.
  rewrite (exec_from_past (length s) r n s 0); [reflexivity| |exact Hlen].
  intros i Hi. unfold no_match_before in Hfirst. rewrite forallb_forall in Hfirst.
  specialize (Hfirst i). unfold matches_at in Hfirst.
  destruct (m (length s) r (drop i s) no_caps _); [|reflexivity].
  discriminate Hfirst. apply in_seq. lia.
Qed.

(** Before the first occurrence of the literal it starts with, a regex
    has no match: a block that holds the first occurrence of the word
    [interface] is the first match of the props regex. *)
Lemma no_match_before_first_occurrence (t : jsstring) (r : re) (s : jsstring) (n : nat) :
  indexOf s t = Some n -> no_match_before (Seq (lit t) r) s n = true.
Proof.
  intros Hn. unfold no_match_before. apply forallb_forall. intros i Hi.
  apply in_seq in Hi. unfold matches_at. generalize (length s). intros total.
  assert (Hnone : m total (Seq (lit t) r) (drop i s) no_caps
                    (fun s' c' => Some (s', c')) = None);
    [|rewrite Hnone; reflexivity].
  assert (Hlt : i < n) by lia. clear Hi. revert n i Hn Hlt.
  induction s as [|x s IH]; intros n i; cbn [indexOf].
  - destruct (startsWith [] t); [intros [= <-]; lia|discriminate].
  - destruct (startsWith (x :: s) t) eqn:Hs; [intros [= <-]; lia|].
    destruct (indexOf s t) as [j|] eqn:Hj; [|discriminate].
    cbn [fmap option_fmap option_map]. intros [= <-] Hlt.
    destruct i as [|i].
    + rewrite drop_0, m_seq, m_lit, Hs. reflexivity.
    + cbn [drop]. apply (IH j i eq_refl). lia.
Qed.

(** The props regex on an interface block: the group is what stands
    between the opening brace and the first closing brace. *)
Lemma propsRe_on_interface (total : nat) (sep component opening inner rest : jsstring) :
  truthy sep = true -> forallb is_space sep = true ->
  truthy component = true -> forallb is_word component = true ->
  forallb is_space opening = true ->
  truthy inner = true ->
  forallb (fun x => negb (unit_eqb (ch "}") x)) inner = true ->
  m total propsRe
    (js "interface" ++ sep ++ component ++ js "Props" ++ opening ++ js "{"
     ++ inner ++ js "}" ++ rest) no_caps
    (fun s' c' => Some (s', c'))
  = Some (rest, set_cap 1 inner no_caps).
Proof.
  intros Hsne Hsep Hne Hword Hopening Hinner Hunits.
  destruct sep as [|s0 sep]; [discriminate|].
  cbn [forallb] in Hsep. apply andb_true_iff in Hsep as [Hs0 Hsep].
  destruct component as [|n0 name]; [discriminate|].
  cbn [forallb] in Hword. apply andb_true_iff in Hword as [Hn0 Hname].
  destruct inner as [|c0 inner]; [discriminate|].
  cbn [forallb] in Hunits. apply andb_true_iff in Hunits as [Hc0 Hunits].
  unfold propsRe.
  rewrite m_seq, m_lit, startsWith_app, drop_app_length.
  rewrite m_seq. cbn [app].
  apply (m_plus total is_space s0 sep _ no_caps); [exact Hs0|exact Hsep| |].
  { cbn [stops]. apply negb_true_iff, word_not_space, Hn0. }
  rewrite m_seq. unfold Plus at 1. rewrite m_seq, (m_char total is_word n0) by exact Hn0.
  rewrite m_star_class.
  match goal with |- star_class _ ?k _ _ = _ => set (K := k) end.
  change (js "Props") with (ch "P" :: js "rops").
  cbn [app].
  match goal with |- context [opening ++ js "{" ++ ?tail] =>
    destruct (after_name_not_word opening tail Hopening) as (h & t & Hrest & Hh);
    set (R := opening ++ js "{" ++ tail) in *
  end.
  apply star_class_backtrack;
    [exact Hname|vm_compute; reflexivity| | |].
  { rewrite Hrest. cbn [stops]. rewrite Hh. reflexivity. }
  { cbn [fails_on_tails]. unfold K.
    repeat split; try (rewrite m_seq, m_lit; reflexivity).
    cbv beta iota delta [fails_on_tails map String.list_ascii_of_string].
    rewrite m_seq, m_lit, Hrest.
    change (js "Props") with (ch "P" :: js "rops"). cbn [startsWith].
    rewrite (not_word_not_P h Hh). reflexivity. }
  unfold K.
  change (ch "P" :: js "rops" ++ ?tail) with (js "Props" ++ tail).
  rewrite m_seq, m_lit, startsWith_app, drop_app_length.
  rewrite m_seq. unfold R.
  apply (m_star total is_space opening); [exact Hopening|reflexivity|].
  rewrite m_seq. change (js "{") with [ch "{"]. cbn [app].
  unfold Lit at 1. rewrite m_char by (vm_compute; reflexivity).
  rewrite m_seq. unfold NotLit.
  apply m_group_plus; [exact Hc0|exact Hunits|reflexivity|].
  change (js "}") with [ch "}"]. cbn [app].
  unfold Lit. rewrite m_char by (vm_compute; reflexivity). reflexivity.
Qed.

(** *** The lines between the braces *)

Lemma trimStart_split (t : jsstring) :
  exists blanks, forallb is_space blanks = true /\ t = blanks ++ trimStart t.
Proof.
  induction t as [|x t (blanks & Hb & Ht)]; [exists []; split; reflexivity|].
  cbn [trimStart]. destruct (is_space x) eqn:E.
  - exists (x :: blanks). cbn [forallb app]. rewrite E, Hb, <- Ht. split; reflexivity.
  - exists []. split; reflexivity.
Qed.

Lemma trimStart_stops (t : jsstring) : stops is_space (trimStart t) = true.
Proof.
  induction t as [|x t IH]; [reflexivity|]. cbn [trimStart].
  destruct (is_space x) eqn:E; [exact IH|]. cbn [stops]. rewrite E. reflexivity.
Qed.

(** A line without a word character after its blanks yields no prop. *)
Lemma parseLine_without_name (blanks rest : jsstring) :
  forallb is_space blanks = true -> stops is_space rest = true ->
  match rest with [] => true | x :: _ => negb (is_word x) end = true ->
  parseLine (blanks ++ rest) = [].
Proof.
  intros Hblanks Hstop Hfirst. unfold parseLine, str_match.
  assert (Hnone : exec_from (length (blanks ++ rest)) propRe (blanks ++ rest) 0 = None);
    [|rewrite Hnone; reflexivity].
  assert (Htails : forall w', forallb is_space w' = true ->
            m (length (blanks ++ rest))
              (Seq (Group 1 (Plus (Char is_word)))
                 (Seq (Opt (Group 2 (Lit (ch "?"))))
                    (Seq (Lit (ch ":"))
                       (Seq (Star (Char is_space))
                          (Group 3 (Plus (NotLit (ch ";"))))))))
              (w' ++ rest) no_caps (fun s' c' => Some (s', c')) = None).
  { intros w' Hw'. rewrite m_seq. cbn [m]. unfold Plus. rewrite m_seq.
    destruct w' as [|y w']; cbn [app].
    - destruct rest as [|x rest]; [reflexivity|].
      apply m_char_no, negb_true_iff, Hfirst.
    - apply m_char_no. cbn [forallb] in Hw'. apply andb_true_iff in Hw' as [Hy _].
      destruct (is_word y) eqn:E; [|reflexivity].
      apply word_not_space in E. congruence. }
  rewrite exec_from_unfold. unfold propRe at 1.
  rewrite m_seq, m_bol by reflexivity.
  rewrite m_seq, m_star_class.
  rewrite star_class_fails.
  - destruct (blanks ++ rest) as [|y s] eqn:E; [reflexivity|].
    apply exec_from_bol_later. cbn [length]. lia.
  - exact Hblanks.
  - exact Hstop.
  - clear -Hblanks Htails. induction blanks as [|y w IH]; cbn [fails_on_tails].
    + apply (Htails []). reflexivity.
    + split; [apply Htails, Hblanks|].
      cbn [forallb] in Hblanks. apply andb_true_iff in Hblanks as [_ Hb].
      apply IH; [exact Hb|]. exact Htails.
Qed.

Lemma parseLine_nothing (text : jsstring) :
  nameless text = true -> parseLine text = [].
Proof.
  unfold nameless. intros H. apply andb_true_iff in H as [_ H].
  destruct (trimStart_split text) as (blanks & Hb & Ht). rewrite Ht.
  apply parseLine_without_name; [exact Hb|apply trimStart_stops|exact H].
Qed.

Lemma line_units (l : line) :
  well_formed_line l = true -> forallb line_unit (line_text l) = true.
Proof.
  destruct l as [f|text]; cbn [well_formed_line line_text].
  - apply declaration_units.
  - unfold nameless. intros H. apply andb_true_iff in H as [H _]. exact H.
Qed.

Lemma lines_text_units (lines : list line) :
  forallb well_formed_line lines = true ->
  forallb (fun x => negb (unit_eqb (ch "}") x)) (lines_text lines) = true.
Proof.
  unfold lines_text. induction lines as [|l lines IH]; cbn [forallb map join].
  - reflexivity.
  - intros H. apply andb_true_iff in H as [Hl Hls].
    pose proof (line_unit_not_brace _ (line_units l Hl)) as Hunits.
    destruct lines as [|l' lines]; [exact Hunits|].
    change (join [10%N] (map line_text (l :: l' :: lines)))
      with (line_text l ++ [10%N] ++ join [10%N] (map line_text (l' :: lines))).
    apply forallb_app_intro; [exact Hunits|].
    apply forallb_app_intro; [reflexivity|apply IH, Hls].
Qed.

Lemma split_lines_text (lines : list line) :
  forallb well_formed_line lines = true -> lines <> [] ->
  split 10 (lines_text lines) = map line_text lines.
Proof.
  unfold lines_text. induction lines as [|l lines IH]; [congruence|].
  cbn [forallb]. intros H _. apply andb_true_iff in H as [Hl Hls].
  destruct lines as [|l' lines].
  - cbn [map join]. apply split_one_line, line_units, Hl.
  - change (join [10%N] (map line_text (l :: l' :: lines)))
      with (line_text l ++ 10%N :: join [10%N] (map line_text (l' :: lines))).
    rewrite (split_segment _ _ (line_units l Hl)), IH; [reflexivity|exact Hls|discriminate].
Qed.

(** Blank lines are dropped, lines without a name yield nothing, and
    every declaration yields its entry. *)
Lemma parse_lines (lines : list line) :
  forallb well_formed_line lines = true ->
  concat (map parseLine
            (filter (fun line => truthy (trim line) = true) (map line_text lines)))
  = map declared (declarations lines).
Proof.
  induction lines as [|l lines IH]; cbn [forallb map]; [reflexivity|].
  intros H. apply andb_true_iff in H as [Hl Hls]. specialize (IH Hls).
  destruct l as [f|text]; cbn [well_formed_line line_text declarations] in *.
  - rewrite filter_cons_True by (apply declaration_not_blank, Hl).
    cbn [map concat]. rewrite (parseLine_declaration f Hl), IH. reflexivity.
  - rewrite filter_cons. destruct (decide (truthy (trim text) = true)); [|exact IH].
    cbn [map concat]. rewrite (parseLine_nothing text Hl), IH. reflexivity.
Qed.

(** C1 (amended). In a source text, let the first text that the pattern
    [interface <Name>Props { ... }] matches be a block whose lines up to
    the first closing brace are, each, the declaration of a field
    ([name: type] or [name?: type], with or without a [;] and a comment
    after it) or a line that does not start with a name (a blank line,
    or a line whose first character after the blanks is no word
    character, like a comment).  Then [parseComponent] returns exactly
    the fields these
    lines declare, in order, each with its name, its type and
    [required = true] exactly when it has no [?].  For a flat interface
    these are all its fields, whatever stands before the block (the
    block need not hold the first occurrence of the word [interface]).
    In an interface with a nested object literal they are the fields up
    to the closing brace of the nested object; what is declared after
    that brace is not returned. *)
Theorem C1_fields_up_to_first_closing_brace
    (name pre sep component opening rest : jsstring) (lines : list line) :
  let code := pre ++ interface sep component opening lines ++ rest in
  no_match_before propsRe code (length pre) = true ->
  truthy sep = true -> forallb is_space sep = true ->
  truthy component = true -> forallb is_word component = true ->
  forallb is_space opening = true ->
  forallb well_formed_line lines = true ->
  truthy (lines_text lines) = true ->
  props (parseComponent name code) = map declared (declarations lines).
Proof.
  cbv zeta. intros Hfirst Hsne Hsep Hne Hword Hopening Hwf Hinner.
  unfold parseComponent. cbn [props].
  rewrite (str_match_first _ _ _ Hfirst) by (rewrite length_app; lia).
  rewrite drop_app_length. unfold interface. rewrite <- !app_assoc.
  pose proof (propsRe_on_interface
                (length (pre ++ js "interface" ++ sep ++ component ++ js "Props"
                         ++ opening ++ js "{" ++ lines_text lines ++ js "}" ++ rest))
                sep component opening (lines_text lines) rest
                Hsne Hsep Hne Hword Hopening Hinner (lines_text_units lines Hwf)) as Hm.
  rewrite exec_from_unfold, Hm. cbn [m_caps].
  unfold set_cap. cbn [Nat.eqb default]. unfold id.
  rewrite (split_lines_text lines Hwf)
    by (intros ->; discriminate Hinner).
  apply parse_lines, Hwf.
Qed.

Lemma C1_flat_interface_witness :
  props (parseComponent (js "Panel")
           (Sources.panel_prelude
            ++ interface (js " ") (js "Panel") (js " ") Sources.panel_lines
            ++ Sources.panel_rest))
  = [ Prop_ (js "title") true (js "string");
      Prop_ (js "footer") false (js "string") ].
Proof.
  apply (C1_fields_up_to_first_closing_brace (js "Panel") Sources.panel_prelude
           (js " ") (js "Panel") (js " ") Sources.panel_rest Sources.panel_lines).
  - vm_compute. reflexivity.
  - reflexivity.
  - reflexivity.
  - reflexivity.
  - vm_compute. reflexivity.
  - reflexivity.
  - vm_compute. reflexivity.
  - vm_compute. reflexivity.
Defined.

(** The nested sample is a block that ends at the first closing brace. *)
Lemma nested_card_is_a_block :
  Sources.nested_card
  = [] ++ block (js " ") (js "Card") (js " ") Sources.card_fields (js "  ")
       ++ Sources.card_rest.
Proof. vm_compute. reflexivity. Qed.

(** C1 as stated fails on a nested object-literal field: the block is cut
    at the first closing brace.  The field [footer], declared after the
    nested object, is not returned, and the inner field [color] is
    returned as if it were a prop. *)
Lemma C1_nested_interface_counterexample :
  props (parseComponent (js "Card") Sources.nested_card)
  = [ Prop_ (js "title") true (js "string");
      Prop_ (js "style") false (js "{");
      Prop_ (js "color") true (js "string") ]
  /\ js "footer" ∉ map prop_name (props (parseComponent (js "Card") Sources.nested_card)).
Proof.
  assert (H : props (parseComponent (js "Card") Sources.nested_card)
              = [ Prop_ (js "title") true (js "string");
                  Prop_ (js "style") false (js "{");
                  Prop_ (js "color") true (js "string") ])
    by (vm_compute; reflexivity).
  split; [exact H|]. rewrite H. cbn [map prop_name].
  intros Hin. repeat (apply elem_of_cons in Hin as [E|Hin];
                      [vm_compute in E; discriminate E|]).
  inversion Hin.
Qed.
